(** * Canvas integration gateway: a shallow embedding of the route handlers

    The development follows the TypeScript sources of the Canvas
    service-to-service API (apps/sim/app/api/integrations/canvas):

    - [Js]        the fragment of JavaScript strings and JSON values the
                  handlers rely on (trim, toLowerCase, split, `??`, truthiness);
    - [Responses] responses.ts, the success / error envelopes;
    - [Eff]       the state-and-exception monad the handlers are written in;
    - [Types]     types.ts, the request context;
    - [Auth]      auth.ts, [authenticateCanvasRequest];
    - [RateLimit] rate-limit.ts, [enforceCanvasRateLimit];
    - [Schema]    the database tables the handlers touch and the state of
                  a run (database, uuid stream, clock, tool engine, call log);
    - [Provision] users/provision/route.ts;
    - [Execute]   blocks/execute/route.ts;
    - [Status]    executions/[executionId]/status/route.ts;
    - [Pagination] types.ts, [parsePaginationParams];
    - [Middleware] middleware.ts, [withCanvasAuth];
    - [BlockUtils] blocks/utils.ts, descriptors, schemas and categories;
    - [Blocks]    blocks/route.ts, the block listing;
    - [BlockSchema] blocks/[type]/schema/route.ts;
    - [UserLookup] users/[canvasUserId]/route.ts;
    - [Stated]    the documented behaviour, written independently of the
                  code, for the comparisons of Part II;
    - [Demo]      concrete keys, stores, tools and requests.

    Strings are byte strings: the JavaScript operations are modelled on
    ASCII (white space is the ASCII white space, case mapping acts on
    A-Z / a-z).  Requests are handled one after the other; the database
    tables are lists of rows in insertion order and `limit(1)` takes the
    first matching row. *)

From Stdlib Require Import String Ascii List ZArith QArith Bool Lia DecimalString Permutation.
Import ListNotations.

Local Open Scope string_scope.
Local Open Scope list_scope.
Local Open Scope Z_scope.

(* ===================================================================== *)
(** ** JavaScript strings and JSON values *)
(* ===================================================================== *)

Module Js.

(** *** Characters *)

Definition code (c : ascii) : nat := nat_of_ascii c.

Definition between (lo hi : nat) (c : ascii) : bool :=
  (Nat.leb lo (code c) && Nat.leb (code c) hi)%bool.

(** White space removed by [String.prototype.trim] (ASCII part). *)
Definition isWhiteSpace (c : ascii) : bool :=
  (Nat.eqb (code c) 32 || between 9 13 c)%bool.

Definition isUpper (c : ascii) : bool := between 65 90 c.
Definition isLower (c : ascii) : bool := between 97 122 c.
Definition isDigit (c : ascii) : bool := between 48 57 c.

(** The class [\w] of a regular expression without the [u] flag. *)
Definition isWordChar (c : ascii) : bool :=
  (isUpper c || isLower c || isDigit c || Nat.eqb (code c) 95)%bool.

Definition toLowerChar (c : ascii) : ascii :=
  if isUpper c then ascii_of_nat (code c + 32) else c.

Definition toUpperChar (c : ascii) : ascii :=
  if isLower c then ascii_of_nat (code c - 32) else c.

(** *** Strings *)

Fixpoint mapChars (f : ascii -> ascii) (s : string) : string :=
  match s with
  | EmptyString => EmptyString
  | String c r => String (f c) (mapChars f r)
  end.

Definition toLowerCase : string -> string := mapChars toLowerChar.
Definition toUpperCase : string -> string := mapChars toUpperChar.

Fixpoint trimStart (s : string) : string :=
  match s with
  | EmptyString => EmptyString
  | String c r => if isWhiteSpace c then trimStart r else s
  end.

Fixpoint trimEnd (s : string) : string :=
  match s with
  | EmptyString => EmptyString
  | String c r =>
      match trimEnd r with
      | EmptyString => if isWhiteSpace c then EmptyString else String c EmptyString
      | r' => String c r'
      end
  end.

Definition trim (s : string) : string := trimEnd (trimStart s).

(** [s.startsWith(p)] *)
Definition startsWith (s p : string) : bool := String.prefix p s.

(** [s.includes(needle)] *)
Fixpoint includes (s needle : string) : bool :=
  (String.prefix needle s ||
   match s with
   | EmptyString => false
   | String _ r => includes r needle
   end)%bool.

(** [s.slice(0, n)] for [0 <= n] *)
Definition sliceTo (n : nat) (s : string) : string := String.substring 0 n s.

(** The first element of [s.split(d)] for a one-character separator. *)
Fixpoint splitHead (d : ascii) (s : string) : string :=
  match s with
  | EmptyString => EmptyString
  | String c r => if Ascii.eqb c d then EmptyString else String c (splitHead d r)
  end.

(** [s.split(d)] for a one-character separator. *)
Fixpoint split (d : ascii) (s : string) : list string :=
  match s with
  | EmptyString => [EmptyString]
  | String c r =>
      if Ascii.eqb c d then EmptyString :: split d r
      else
        match split d r with
        | piece :: pieces => String c piece :: pieces
        | [] => [String c EmptyString]
        end
  end.

(** [xs.join(sep)] *)
Definition join (sep : string) (xs : list string) : string := String.concat sep xs.

(** [n.toString()] and [String(n)] for an integer. *)
Definition integerToString (z : Z) : string := NilZero.string_of_int (Z.to_int z).

(** [seg.charAt(0).toUpperCase() + seg.slice(1)] *)
Definition capitalize (seg : string) : string :=
  match seg with
  | EmptyString => EmptyString
  | String c r => String (toUpperChar c) r
  end.

(** *** JSON values

    A JavaScript value that reaches the handlers through JSON (request
    bodies, tool outputs, jsonb columns).  [undefined] is the [None] of
    [option json]; numbers are rationals (rounding is not modelled). *)

#[warnings="-register-all"]
Inductive json : Type :=
| JNull
| JBool (b : bool)
| JNum (q : Q)
| JStr (s : string)
| JArr (items : list json)
| JObj (fields : list (string * json)).

Fixpoint lookup (k : string) (fields : list (string * json)) : option json :=
  match fields with
  | [] => None
  | (k', v) :: rest => if String.eqb k k' then Some v else lookup k rest
  end.

(** Property read [v.k] on a value that is not nullish: own data
    properties of objects; the named properties used by the handlers are
    undefined on every primitive and on arrays. *)
Definition prop (v : json) (k : string) : option json :=
  match v with
  | JObj fields => lookup k fields
  | _ => None
  end.

(** Optional chaining [v?.k] on a possibly undefined / null value. *)
Definition optProp (v : option json) (k : string) : option json :=
  match v with
  | None | Some JNull => None
  | Some o => prop o k
  end.

(** [a ?? b] *)
Definition nullish (v : option json) : bool :=
  match v with
  | None | Some JNull => true
  | _ => false
  end.

Definition coalesce (a b : option json) : option json :=
  if nullish a then b else a.

Infix "??" := coalesce (at level 45, right associativity).

(** ToBoolean *)
Definition truthy (v : option json) : bool :=
  match v with
  | None | Some JNull => false
  | Some (JBool b) => b
  | Some (JNum q) => negb (Qeq_bool q 0)
  | Some (JStr s) => negb (String.eqb s "")
  | Some (JArr _) | Some (JObj _) => true
  end.

(** An object literal: properties whose value is [undefined] do not
    survive serialisation. *)
Fixpoint object (fields : list (string * option json)) : list (string * json) :=
  match fields with
  | [] => []
  | (k, Some v) :: rest => (k, v) :: object rest
  | (_, None) :: rest => object rest
  end.

Definition obj (fields : list (string * option json)) : json := JObj (object fields).

(** Object spread [{...a, ...b}] restricted to what the handlers need:
    properties of [b] shadow those of [a]. *)
Definition spread (a b : list (string * json)) : list (string * json) := b ++ a.

Definition str (s : string) : option json := Some (JStr s).
Definition optStr (s : option string) : option json := option_map JStr s.
Definition num (z : Z) : option json := Some (JNum (inject_Z z)).
Definition optNum (z : option Z) : option json := option_map (fun n => JNum (inject_Z n)) z.
Definition boolean (b : bool) : option json := Some (JBool b).

(** *** Integral numbers

    The values [Number.parseInt] can return, and the arithmetic the
    handlers do on them. *)

Inductive Integral : Type :=
| NaN
| Finite (z : Z)
| PlusInfinity
| MinusInfinity.

Definition isNaN (n : Integral) : bool :=
  match n with
  | NaN => true
  | _ => false
  end.

(** [a < b]; a comparison with [NaN] is false. *)
Definition lessThan (a b : Integral) : bool :=
  match a, b with
  | Finite x, Finite y => x <? y
  | MinusInfinity, Finite _ | MinusInfinity, PlusInfinity | Finite _, PlusInfinity => true
  | _, _ => false
  end.

(** [a + b] *)
Definition plus (a b : Integral) : Integral :=
  match a, b with
  | NaN, _ | _, NaN => NaN
  | Finite x, Finite y => Finite (x + y)
  | PlusInfinity, MinusInfinity | MinusInfinity, PlusInfinity => NaN
  | PlusInfinity, _ | _, PlusInfinity => PlusInfinity
  | MinusInfinity, _ | _, MinusInfinity => MinusInfinity
  end.

(** How [JSON.stringify] writes the number. *)
Definition integralJson (n : Integral) : json :=
  match n with
  | Finite z => JNum (inject_Z z)
  | _ => JNull
  end.

(** The index [Array.prototype.slice] derives from an argument, for an
    array of length [len]. *)
Definition relativeIndex (len : Z) (n : Integral) : Z :=
  match n with
  | NaN => 0
  | Finite z => if z <? 0 then Z.max (len + z) 0 else Z.min z len
  | PlusInfinity => len
  | MinusInfinity => 0
  end.

(** [xs.slice(start, stop)] *)
Definition slice {A : Type} (start stop : Integral) (xs : list A) : list A :=
  let len := Z.of_nat (length xs) in
  let from := relativeIndex len start in
  let to := relativeIndex len stop in
  firstn (Z.to_nat (to - from)) (skipn (Z.to_nat from) xs).

(** Values thrown by JavaScript code: an [Error] with its message, or
    anything else. *)
Inductive thrown : Type :=
| ErrorObj (message : string)
| NonError.

(** [error instanceof Error ? error.message : 'Unknown error'] *)
Definition messageOf (e : thrown) : string :=
  match e with
  | ErrorObj m => m
  | NonError => "Unknown error"
  end.

End Js.

Import Js.

(* ===================================================================== *)
(** ** responses.ts *)
(* ===================================================================== *)

Module Responses.

(** A [NextResponse.json(body, { status })]: the two envelopes of
    types.ts ([canvasApiSuccessSchema], [canvasApiErrorSchema]). *)
Inductive Response : Type :=
| SuccessEnvelope (status : Z) (data : json)
| ErrorEnvelope (status : Z) (error : string) (code : option string)
                (details : option json) (retryAfter : option Z).

Definition statusOf (r : Response) : Z :=
  match r with
  | SuccessEnvelope s _ => s
  | ErrorEnvelope s _ _ _ _ => s
  end.

Definition isSuccess (r : Response) : bool :=
  match r with
  | SuccessEnvelope _ _ => true
  | ErrorEnvelope _ _ _ _ _ => false
  end.

Definition dataOf (r : Response) : option json :=
  match r with
  | SuccessEnvelope _ d => Some d
  | ErrorEnvelope _ _ _ _ _ => None
  end.

Definition codeOf (r : Response) : option string :=
  match r with
  | SuccessEnvelope _ _ => None
  | ErrorEnvelope _ _ c _ _ => c
  end.

(** [singleResponse(data, status = 200)] *)
Definition singleResponse (data : json) (status : option Z) : Response :=
  SuccessEnvelope (match status with Some s => s | None => 200 end) data.

(** [errorResponse(code, message, status, details?, retryAfter?)]: an
    empty code is left out of the body. *)
Definition errorResponse (code message : string) (status : Z)
           (details : option json) (retryAfter : option Z) : Response :=
  ErrorEnvelope status message
                (if String.eqb code "" then None else Some code)
                details retryAfter.

Definition unauthorizedResponse (message : string) : Response :=
  errorResponse "UNAUTHORIZED" message 401 None None.

Definition forbiddenResponse (message : string) : Response :=
  errorResponse "FORBIDDEN" message 403 None None.

Definition notFoundResponse (resource : string) : Response :=
  errorResponse "NOT_FOUND" (resource ++ " not found") 404 None None.

Definition badRequestResponse (message : string) (details : option json) : Response :=
  errorResponse "INVALID_PARAMS" message 400 details None.

Definition internalErrorResponse (message : string) : Response :=
  errorResponse "INTERNAL_ERROR" message 500 None None.

Definition userExistsResponse (message : string) : Response :=
  errorResponse "USER_EXISTS" message 409 None None.

(** [insufficientScopeResponse(requiredScopes)] *)
Definition insufficientScopeResponse (requiredScopes : list string) : Response :=
  errorResponse "INSUFFICIENT_SCOPE"
                ("Insufficient permissions. Required scopes: " ++ join ", " requiredScopes)
                403
                (Some (obj [("requiredScopes", Some (JArr (map JStr requiredScopes)))]))
                None.

(** A response with the one header the helpers set. *)
Record HttpResponse : Type := {
  envelope : Response;
  retryAfterHeader : option string
}.

Definition plain (r : Response) : HttpResponse :=
  {| envelope := r; retryAfterHeader := None |}.

(** [rateLimitResponse(retryAfter?)]: the header is set for a truthy
    [retryAfter] only. *)
Definition rateLimitResponse (retryAfter : option Z) : HttpResponse :=
  {| envelope := errorResponse "RATE_LIMITED" "Rate limit exceeded" 429 None retryAfter;
     retryAfterHeader :=
       match retryAfter with
       | Some n => if n =? 0 then None else Some (integerToString n)
       | None => None
       end |}.

End Responses.

Import Responses.

(* ===================================================================== *)
(** ** Effects: state passing with JavaScript exceptions *)
(* ===================================================================== *)

Module Eff.

(** A computation over a store [S] that returns a value or throws; the
    store keeps the writes made before a throw. *)
Definition M (S A : Type) : Type := S -> S * (thrown + A).

Definition ret {S A} (a : A) : M S A := fun s => (s, inr a).

Definition throw {S A} (e : thrown) : M S A := fun s => (s, inl e).

Definition bind {S A B} (m : M S A) (k : A -> M S B) : M S B :=
  fun s =>
    match m s with
    | (s', inr a) => k a s'
    | (s', inl e) => (s', inl e)
    end.

(** [try { m } catch (error) { handler(error) }] *)
Definition tryCatch {S A} (m : M S A) (handler : thrown -> M S A) : M S A :=
  fun s =>
    match m s with
    | (s', inr a) => (s', inr a)
    | (s', inl e) => handler e s'
    end.

Definition gets {S A} (f : S -> A) : M S A := fun s => (s, inr (f s)).

Definition modify {S} (f : S -> S) : M S unit := fun s => (f s, inr tt).

End Eff.

Import Eff.

Notation "x <- m ;; k" := (bind m (fun x => k))
  (at level 61, m at next level, right associativity).
Notation "m ;;; k" := (bind m (fun _ => k))
  (at level 61, right associativity).

(* ===================================================================== *)
(** ** types.ts *)
(* ===================================================================== *)

Module Types.

(** [serviceContextSchema] extended to [canvasRequestContextSchema]; the
    header fields are absent on the context the authenticator returns. *)
Record CanvasRequestContext : Type := {
  serviceName : string;
  keyId : string;
  keyPrefix : string;
  scopes : list string;
  rateLimitPerMinute : option Z;
  rateLimitPerDay : option Z;
  metadata : json;
  canvasUserId : option string;
  canvasWorkspaceId : option string;
  requestId : option string;
  idempotencyKey : option string;
  ipAddress : option string;
  userAgent : option string
}.

(** Truthiness of an optional string ([undefined] and [''] are falsy). *)
Definition present (s : option string) : bool :=
  match s with
  | Some v => negb (String.eqb v "")
  | None => false
  end.

End Types.

Import Types.

(* ===================================================================== *)
(** ** auth.ts *)
(* ===================================================================== *)

Module Auth.

Definition SERVICE_KEY_PREFIX : string := "sim_svc_".
Definition SERVICE_KEY_PREFIX_LENGTH : nat := 16.
Definition CANVAS_SERVICE_ID : string := "canvas".

(** [canvasAuthFailureCodeSchema] *)
Inductive FailureCode : Type :=
| MISSING_KEY
| INVALID_KEY
| EXPIRED_KEY
| INACTIVE_KEY
| INSUFFICIENT_SCOPE
| INTERNAL_ERROR.

(** [canvasAuthResultSchema] *)
Inductive CanvasAuthResult : Type :=
| Authenticated (context : CanvasRequestContext)
| Rejected (error : string) (code : FailureCode).

(** A row of [service_api_keys]; timestamps are milliseconds. *)
Record KeyRecord : Type := {
  recId : string;
  keyHash : string;
  recKeyPrefix : string;
  recServiceName : string;
  permissions : json;
  recRateLimitPerMinute : option Z;
  recRateLimitPerDay : option Z;
  isActive : bool;
  expiresAt : option Z;
  lastUsedAt : option Z;
  recMetadata : option json
}.

(** The key table as the query sees it: its rows, or a driver that
    throws. *)
Inductive KeyTable : Type :=
| Rows (rows : list KeyRecord)
| Failing (e : thrown).

Definition getServiceKeyPrefix (key : string) : string :=
  sliceTo SERVICE_KEY_PREFIX_LENGTH key.

Fixpoint stringsOf (items : list json) : list string :=
  match items with
  | [] => []
  | JStr s :: rest => s :: stringsOf rest
  | _ :: rest => stringsOf rest
  end.

Definition setLastUsed (now : Z) (r : KeyRecord) : KeyRecord :=
  {| recId := recId r; keyHash := keyHash r; recKeyPrefix := recKeyPrefix r;
     recServiceName := recServiceName r; permissions := permissions r;
     recRateLimitPerMinute := recRateLimitPerMinute r;
     recRateLimitPerDay := recRateLimitPerDay r; isActive := isActive r;
     expiresAt := expiresAt r; lastUsedAt := Some now;
     recMetadata := recMetadata r |}.

(** [updateLastUsed(keyId)]; the write is not awaited and its failure is
    only logged. *)
Definition updateLastUsed (now : Z) (id : string) (rows : list KeyRecord) : list KeyRecord :=
  map (fun r => if String.eqb (recId r) id then setLastUsed now r else r) rows.

Definition includesScope (keyScopes : list string) (scope : string) : bool :=
  existsb (String.eqb scope) keyScopes.

Section Authenticate.

(** SHA-256 in hexadecimal, and [JSON.parse] ([None] when it throws). *)
Variable hashKey : string -> string.
Variable JSON_parse : string -> option json.

Definition parseScopes (scopes : json) : list string :=
  match scopes with
  | JArr items => stringsOf items
  | JStr s =>
      match JSON_parse s with
      | Some (JArr items) => stringsOf items
      | _ => []
      end
  | _ => []
  end.

(** The [select ... where keyHash = h and serviceName = 'canvas' limit 1]. *)
Definition findKey (h : string) (rows : list KeyRecord) : option KeyRecord :=
  find (fun r => String.eqb (keyHash r) h && String.eqb (recServiceName r) CANVAS_SERVICE_ID)%bool
       rows.

Definition authenticateCanvasRequest
           (providedKey : option string) (requiredScopes : option (list string))
           (now : Z) (db : KeyTable) : CanvasAuthResult * KeyTable :=
  if negb (present providedKey) then
    (Rejected "Service API key required. Provide x-service-key header." MISSING_KEY, db)
  else
    let key := match providedKey with Some k => k | None => "" end in
    if negb (startsWith key SERVICE_KEY_PREFIX) then
      (Rejected "Invalid service API key format" INVALID_KEY, db)
    else
      match db with
      | Failing _ => (Rejected "Authentication service error" INTERNAL_ERROR, db)
      | Rows rows =>
          match findKey (hashKey key) rows with
          | None => (Rejected "Invalid service API key" INVALID_KEY, db)
          | Some keyRecord =>
              if negb (isActive keyRecord) then
                (Rejected "Service API key is inactive" INACTIVE_KEY, db)
              else if match expiresAt keyRecord with
                      | Some t => t <? now
                      | None => false
                      end then
                (Rejected "Service API key has expired" EXPIRED_KEY, db)
              else
                let keyScopes := parseScopes (permissions keyRecord) in
                let required := match requiredScopes with Some l => l | None => [] end in
                if negb (forallb (includesScope keyScopes) required) then
                  (Rejected ("Insufficient permissions. Required scopes: "
                               ++ join ", " required) INSUFFICIENT_SCOPE, db)
                else
                  (Authenticated
                     {| serviceName := recServiceName keyRecord;
                        keyId := recId keyRecord;
                        keyPrefix := recKeyPrefix keyRecord;
                        scopes := keyScopes;
                        rateLimitPerMinute := recRateLimitPerMinute keyRecord;
                        rateLimitPerDay := recRateLimitPerDay keyRecord;
                        metadata := match recMetadata keyRecord with
                                    | Some m => m
                                    | None => JObj []
                                    end;
                        canvasUserId := None; canvasWorkspaceId := None;
                        requestId := None; idempotencyKey := None;
                        ipAddress := None; userAgent := None |},
                   Rows (updateLastUsed now (recId keyRecord) rows))
          end
      end.

End Authenticate.

(** [hasScope], [hasAllScopes] and [hasAnyScope] *)
Definition hasScope (context : CanvasRequestContext) (scope : string) : bool :=
  includesScope (scopes context) scope.

Definition hasAllScopes (context : CanvasRequestContext) (required : list string) : bool :=
  forallb (includesScope (scopes context)) required.

Definition hasAnyScope (context : CanvasRequestContext) (candidates : list string) : bool :=
  existsb (includesScope (scopes context)) candidates.

End Auth.

(* ===================================================================== *)
(** ** rate-limit.ts *)
(* ===================================================================== *)

Module RateLimit.

Definition MINUTE_MS : Z := 60 * 1000.
Definition DAY_MS : Z := 24 * 60 * 60 * 1000.

Record TokenBucketConfig : Type := {
  maxTokens : Z;
  refillRate : Z;
  refillIntervalMs : Z
}.

(** [rateLimitCheckResultSchema]; the storage adapter answers with the
    same two fields. *)
Record RateLimitCheckResult : Type := {
  allowed : bool;
  retryAfterMs : option Z
}.

Definition buildConfig (limit intervalMs : Z) : TokenBucketConfig :=
  {| maxTokens := limit; refillRate := limit; refillIntervalMs := intervalMs |}.

Section WithStorage.

(** The token-bucket storage adapter of lib/core/rate-limiter/storage:
    its state, and [consumeTokens(key, tokens, config)], which may throw. *)
Variable Storage : Type.
Variable consumeTokens : string -> Z -> TokenBucketConfig -> M Storage RateLimitCheckResult.

(** Limits come from integer columns, so [Number.isFinite(limit)] holds
    and only the sign is tested. *)
Definition consume (key : string) (limit intervalMs : Z) : M Storage RateLimitCheckResult :=
  if limit <=? 0 then
    ret {| allowed := true; retryAfterMs := None |}
  else
    result <- consumeTokens key 1 (buildConfig limit intervalMs) ;;
    if allowed result then
      ret {| allowed := true; retryAfterMs := None |}
    else
      ret {| allowed := false; retryAfterMs := retryAfterMs result |}.

(** The body of the [try] block. *)
Definition checkBuckets (context : CanvasRequestContext) : M Storage RateLimitCheckResult :=
  let serviceKey := ("svc:" ++ serviceName context ++ ":" ++ keyPrefix context)%string in
  let userKey :=
    if present (canvasUserId context) then
      match canvasUserId context with
      | Some u => Some (serviceKey ++ ":user:" ++ u)%string
      | None => None
      end
    else None in
  let perMinute := match rateLimitPerMinute context with Some n => n | None => 1000 end in
  let perDay := match rateLimitPerDay context with Some n => n | None => 100000 end in
  serviceMinute <- consume serviceKey perMinute MINUTE_MS ;;
  if negb (allowed serviceMinute) then ret serviceMinute else
  serviceDay <- consume (serviceKey ++ ":day")%string perDay DAY_MS ;;
  if negb (allowed serviceDay) then ret serviceDay else
  match userKey with
  | Some userKey =>
      userMinute <- consume userKey perMinute MINUTE_MS ;;
      if negb (allowed userMinute) then ret userMinute else
      userDay <- consume (userKey ++ ":day")%string perDay DAY_MS ;;
      if negb (allowed userDay) then ret userDay else
      ret {| allowed := true; retryAfterMs := None |}
  | None => ret {| allowed := true; retryAfterMs := None |}
  end.

Definition enforceCanvasRateLimit (context : CanvasRequestContext)
  : M Storage RateLimitCheckResult :=
  tryCatch (checkBuckets context)
           (fun _ => ret {| allowed := false; retryAfterMs := Some MINUTE_MS |}).

(** The storage adapter with a flag that records whether one of its
    [consumeTokens] calls has thrown. *)
Definition observed (key : string) (tokens : Z) (config : TokenBucketConfig)
  : M (Storage * bool) RateLimitCheckResult :=
  fun s =>
    match consumeTokens key tokens config (fst s) with
    | (s', inl e) => ((s', true), inl e)
    | (s', inr r) => ((s', snd s), inr r)
    end.

Definition failClosed : RateLimitCheckResult :=
  {| allowed := false; retryAfterMs := Some 60000 |}.

(** Whether a [consumeTokens] call threw during a run that started with
    the flag down. *)
Definition storageThrew {A} (run : (Storage * bool) * A) : bool := snd (fst run).

End WithStorage.

Arguments consume {Storage} consumeTokens key limit intervalMs.
Arguments checkBuckets {Storage} consumeTokens context.
Arguments enforceCanvasRateLimit {Storage} consumeTokens context.
Arguments observed {Storage} consumeTokens key tokens config.
Arguments storageThrew {Storage A} run.

End RateLimit.

(* ===================================================================== *)
(** ** The database schema and the state of the service *)
(* ===================================================================== *)

Module Schema.

(** Rows of the tables the handlers touch ([@sim/db/schema]); timestamps
    are milliseconds since the epoch. *)

Record User : Type := {
  userId : string;
  userName : string;
  userEmail : string;
  emailVerified : bool;
  userCreatedAt : Z
}.

Record Account : Type := {
  linkId : string;
  accountId : string;
  providerId : string;
  accountUserId : string;
  scope : string;
  accountCreatedAt : Z
}.

Record UserStats : Type := {
  statsId : string;
  statsUserId : string;
  currentUsageLimit : string
}.

Record Workspace : Type := {
  workspaceId : string;
  workspaceName : string;
  ownerId : string;
  billedAccountUserId : string;
  allowPersonalApiKeys : bool;
  workspaceCreatedAt : Z
}.

Record Permission : Type := {
  permissionId : string;
  entityType : string;
  entityId : string;
  permissionUserId : string;
  permissionType : string
}.

Record Workflow : Type := {
  workflowId : string;
  workflowUserId : string;
  workflowWorkspaceId : string;
  workflowName : string;
  description : string;
  color : string;
  isDeployed : bool;
  runCount : Z;
  workflowCreatedAt : Z
}.

(** A row of [workflow_execution_logs]. *)
Record ExecutionLog : Type := {
  logId : string;
  logWorkflowId : option string;
  logWorkspaceId : string;
  executionId : string;
  level : string;
  trigger : string;
  startedAt : Z;
  endedAt : option Z;
  totalDurationMs : option Z;
  executionData : json;
  blockType : string;
  blockVersion : option string;
  callerId : string;
  callerUserId : string;
  callerWorkspaceId : option string;
  callerWorkflowId : option string;
  callerNodeId : option string;
  apiCallsMade : option json;
  creditsConsumed : option string
}.

Record Db : Type := {
  users : list User;
  accounts : list Account;
  userStats : list UserStats;
  workspaces : list Workspace;
  permissions : list Permission;
  workflows : list Workflow;
  workflowStates : list (string * json);
  executionLogs : list ExecutionLog
}.

Definition emptyDb : Db :=
  {| users := []; accounts := []; userStats := []; workspaces := [];
     permissions := []; workflows := []; workflowStates := [];
     executionLogs := [] |}.

(** [insert(table).values(row)]: rows are kept in insertion order. *)
Definition insertUser (r : User) (d : Db) : Db :=
  {| users := users d ++ [r]; accounts := accounts d; userStats := userStats d;
     workspaces := workspaces d; permissions := permissions d;
     workflows := workflows d; workflowStates := workflowStates d;
     executionLogs := executionLogs d |}.

Definition insertAccount (r : Account) (d : Db) : Db :=
  {| users := users d; accounts := accounts d ++ [r]; userStats := userStats d;
     workspaces := workspaces d; permissions := permissions d;
     workflows := workflows d; workflowStates := workflowStates d;
     executionLogs := executionLogs d |}.

Definition insertUserStats (r : UserStats) (d : Db) : Db :=
  {| users := users d; accounts := accounts d; userStats := userStats d ++ [r];
     workspaces := workspaces d; permissions := permissions d;
     workflows := workflows d; workflowStates := workflowStates d;
     executionLogs := executionLogs d |}.

Definition insertWorkspace (r : Workspace) (d : Db) : Db :=
  {| users := users d; accounts := accounts d; userStats := userStats d;
     workspaces := workspaces d ++ [r]; permissions := permissions d;
     workflows := workflows d; workflowStates := workflowStates d;
     executionLogs := executionLogs d |}.

Definition insertPermission (r : Permission) (d : Db) : Db :=
  {| users := users d; accounts := accounts d; userStats := userStats d;
     workspaces := workspaces d; permissions := permissions d ++ [r];
     workflows := workflows d; workflowStates := workflowStates d;
     executionLogs := executionLogs d |}.

Definition insertWorkflow (r : Workflow) (d : Db) : Db :=
  {| users := users d; accounts := accounts d; userStats := userStats d;
     workspaces := workspaces d; permissions := permissions d;
     workflows := workflows d ++ [r]; workflowStates := workflowStates d;
     executionLogs := executionLogs d |}.

Definition insertWorkflowState (r : string * json) (d : Db) : Db :=
  {| users := users d; accounts := accounts d; userStats := userStats d;
     workspaces := workspaces d; permissions := permissions d;
     workflows := workflows d; workflowStates := workflowStates d ++ [r];
     executionLogs := executionLogs d |}.

Definition setExecutionLogs (l : list ExecutionLog) (d : Db) : Db :=
  {| users := users d; accounts := accounts d; userStats := userStats d;
     workspaces := workspaces d; permissions := permissions d;
     workflows := workflows d; workflowStates := workflowStates d;
     executionLogs := l |}.

(** The synthesized [ExecutionContext] handed to a tool (its identifying
    fields; the state-tracking collections are all empty). *)
Record ExecutionContext : Type := {
  ctxWorkflowId : string;
  ctxWorkspaceId : string;
  ctxExecutionId : string;
  ctxUserId : string
}.

(** One invocation [executeTool(toolId, toolInputs, false, false, executionContext)]. *)
Record Call : Type := {
  callToolId : string;
  callInputs : json;
  callContext : ExecutionContext
}.

(** The state of the service between two requests: the database, the
    position in the stream of random UUIDs, the wall clock, the state of
    the tool engine and the log of tool invocations made so far. *)
Record State (W : Type) : Type := {
  db : Db;
  entropy : nat;
  clock : Z;
  world : W;
  calls : list Call
}.

Arguments db {W} _.
Arguments entropy {W} _.
Arguments clock {W} _.
Arguments world {W} _.
Arguments calls {W} _.

Section StateOps.

Context {W : Type}.

Definition setDb (d : Db) (s : State W) : State W :=
  {| db := d; entropy := entropy s; clock := clock s; world := world s; calls := calls s |}.

Definition updateDb (f : Db -> Db) : M (State W) unit :=
  modify (fun s => setDb (f (db s)) s).

(** [new Date()] / [Date.now()] *)
Definition now : M (State W) Z := gets clock.

(** Time passing while the handler waits. *)
Definition elapse (ms : Z) : M (State W) unit :=
  modify (fun s => {| db := db s; entropy := entropy s; clock := clock s + ms;
                      world := world s; calls := calls s |}).

(** A step that leaves the tool log, the engine and the clock alone. *)
Definition sameTools (s s1 : State W) : Prop :=
  calls s1 = calls s /\ world s1 = world s /\ clock s1 = clock s.

(** [crypto.randomUUID()], drawn from a stream of identifiers. *)
Definition randomUUID (uuids : nat -> string) : M (State W) string :=
  fun s => ({| db := db s; entropy := S (entropy s); clock := clock s;
               world := world s; calls := calls s |},
            inr (uuids (entropy s))).

End StateOps.

End Schema.

Import Schema.

(* ===================================================================== *)
(** ** users/provision/route.ts *)
(* ===================================================================== *)

Module Provision.

Definition CANVAS_PROVIDER_ID : string := "canvas".

Definition DEFAULT_CANVAS_USER_CREDITS : string := "1000000".

(** *** [deriveNameFromEmail] *)

(** The character class [[._-]]. *)
Definition isDelimiter (c : ascii) : bool :=
  (Ascii.eqb c "." || Ascii.eqb c "_" || Ascii.eqb c "-")%bool.

Definition startsWithDelimiter (s : string) : bool :=
  match s with
  | String c _ => isDelimiter c
  | EmptyString => false
  end.

(** [s.split(/[._-]+/)]: the pieces between maximal runs of delimiters,
    with an empty piece before a leading run and after a trailing one. *)
Fixpoint splitDelimiters (s : string) : list string :=
  match s with
  | EmptyString => [EmptyString]
  | String c r =>
      if isDelimiter c then
        if startsWithDelimiter r then splitDelimiters r
        else EmptyString :: splitDelimiters r
      else
        match splitDelimiters r with
        | seg :: segs => String c seg :: segs
        | [] => [String c EmptyString]
        end
  end.

Definition deriveNameFromEmail (email : string) : string :=
  let localPart := splitHead "@" email in
  if String.eqb localPart "" then "Canvas User"
  else join " " (map capitalize (splitDelimiters localPart)).

(** *** The request *)

(** [userProvisioningRequestSchema], after JSON decoding. *)
Record UserProvisioningRequest : Type := {
  reqCanvasUserId : string;
  reqEmail : string;
  reqName : option string;
  reqWorkspaceId : option string;
  reqMetadata : option (list (string * json))
}.

(** [await request.json()] *)
Inductive Body : Type :=
| Malformed (e : thrown)
| Decoded (data : UserProvisioningRequest).

(** What the handler takes from its surroundings: the stream behind
    [crypto.randomUUID()], [Date.prototype.toISOString], [JSON.stringify],
    zod's [uuid()] and [email()] checks with the flattened field errors,
    the default workflow state and whether seeding it fails. *)
Record Env : Type := {
  uuids : nat -> string;
  toISOString : Z -> string;
  JSON_stringify : json -> string;
  isUuid : string -> bool;
  isEmail : string -> bool;
  fieldErrors : UserProvisioningRequest -> json;
  defaultWorkflowState : json;
  saveWorkflowFails : string -> bool
}.

(** [const derivedName = name ?? deriveNameFromEmail(email)] *)
Definition derivedName (name : option string) (email : string) : string :=
  match name with
  | Some n => n
  | None => deriveNameFromEmail email
  end.

(** What [findExistingCanvasLink] selects. *)
Record CanvasLink : Type := {
  foundLinkId : string;
  foundUserId : string;
  foundCreatedAt : Z;
  foundEmail : string
}.

(** [accountId = canvasUserId and providerId = 'canvas'] *)
Definition linksTo (canvasUserId : string) (a : Account) : bool :=
  (String.eqb (accountId a) canvasUserId
   && String.eqb (providerId a) CANVAS_PROVIDER_ID)%bool.

Definition joinUser (us : list User) (a : Account) : option CanvasLink :=
  match find (fun u => String.eqb (accountUserId a) (userId u)) us with
  | Some u => Some {| foundLinkId := linkId a; foundUserId := accountUserId a;
                      foundCreatedAt := accountCreatedAt a; foundEmail := userEmail u |}
  | None => None
  end.

Fixpoint firstLink (canvasUserId : string) (us : list User) (accts : list Account)
  : option CanvasLink :=
  match accts with
  | [] => None
  | a :: rest =>
      if linksTo canvasUserId a then
        match joinUser us a with
        | Some l => Some l
        | None => firstLink canvasUserId us rest
        end
      else firstLink canvasUserId us rest
  end.

(** [account inner join user on account.userId = user.id
     where accountId = canvasUserId and providerId = 'canvas' limit 1] *)
Definition findExistingCanvasLink (canvasUserId : string) (d : Db) : option CanvasLink :=
  firstLink canvasUserId (users d) (accounts d).

Definition findUserByEmail (email : string) (d : Db) : option User :=
  find (fun u => String.eqb (userEmail u) email) (users d).

Section Handler.

Context {W : Type} (env : Env).

Definition validRequest (data : UserProvisioningRequest) : bool :=
  (isUuid env (reqCanvasUserId data)
   && isEmail env (reqEmail data)
   && match reqWorkspaceId data with
      | Some w => isUuid env w
      | None => true
      end)%bool.

Definition createCanvasAccountLink (userId canvasUserId : string) (metadata : json)
  : M (State W) (string * Z) :=
  t <- now ;;
  linkId <- randomUUID (uuids env) ;;
  updateDb (insertAccount
              {| linkId := linkId; accountId := canvasUserId;
                 providerId := CANVAS_PROVIDER_ID; accountUserId := userId;
                 scope := JSON_stringify env metadata; accountCreatedAt := t |}) ;;;
  ret (linkId, t).

(** The result of [createNewSimUser]. *)
Record NewSimUser : Type := {
  newUserId : string;
  newWorkspaceId : string;
  newLinkId : string;
  linkCreatedAt : Z
}.

Definition createNewSimUser (canvasUserId email name : string) (metadata : json)
  : M (State W) NewSimUser :=
  userId <- randomUUID (uuids env) ;;
  workspaceId <- randomUUID (uuids env) ;;
  workflowId <- randomUUID (uuids env) ;;
  linkId <- randomUUID (uuids env) ;;
  t <- now ;;
  (* db.transaction: the six inserts commit together *)
  statsId <- randomUUID (uuids env) ;;
  permissionId <- randomUUID (uuids env) ;;
  updateDb (fun d =>
    insertWorkflow
      {| workflowId := workflowId; workflowUserId := userId;
         workflowWorkspaceId := workspaceId; workflowName := "canvas-workflow";
         description := "Your first Canvas workflow"; color := "#3972F6";
         isDeployed := false; runCount := 0; workflowCreatedAt := t |}
    (insertPermission
      {| permissionId := permissionId; entityType := "workspace";
         entityId := workspaceId; permissionUserId := userId;
         permissionType := "admin" |}
    (insertWorkspace
      {| workspaceId := workspaceId;
         workspaceName := (splitHead " " name ++ "'s Workspace")%string;
         ownerId := userId; billedAccountUserId := userId;
         allowPersonalApiKeys := true; workspaceCreatedAt := t |}
    (insertAccount
      {| linkId := linkId; accountId := canvasUserId;
         providerId := CANVAS_PROVIDER_ID; accountUserId := userId;
         scope := JSON_stringify env metadata; accountCreatedAt := t |}
    (insertUserStats
      {| statsId := statsId; statsUserId := userId;
         currentUsageLimit := DEFAULT_CANVAS_USER_CREDITS |}
    (insertUser
      {| userId := userId; userName := name; userEmail := email;
         emailVerified := true; userCreatedAt := t |} d)))))) ;;;
  (* seeding the default workflow state, outside the transaction *)
  (if saveWorkflowFails env workflowId then ret tt
   else updateDb (insertWorkflowState (workflowId, defaultWorkflowState env))) ;;;
  ret {| newUserId := userId; newWorkspaceId := workspaceId;
         newLinkId := linkId; linkCreatedAt := t |}.

Definition provisioned (simUserId canvasUserId email : string) (createdAt : Z)
           (linkId : string) (alreadyExisted : option bool) : json :=
  obj [("simUserId", str simUserId);
       ("canvasUserId", str canvasUserId);
       ("email", str email);
       ("createdAt", str (toISOString env createdAt));
       ("linkId", str linkId);
       ("alreadyExisted", option_map JBool alreadyExisted)].

Definition POST (context : CanvasRequestContext) (body : Body) : M (State W) Response :=
  tryCatch
    (match body with
     | Malformed e => throw e
     | Decoded data =>
         if negb (validRequest data) then
           ret (badRequestResponse "Validation failed" (Some (fieldErrors env data)))
         else
           let canvasUserId := reqCanvasUserId data in
           let email := reqEmail data in
           let name := derivedName (reqName data) email in
           let linkMetadata :=
             JObj (spread (match reqMetadata data with Some m => m | None => [] end)
                          (if present (reqWorkspaceId data) then
                             object [("canvasWorkspaceId", optStr (reqWorkspaceId data))]
                           else [])) in
           existingLink <- gets (fun s => findExistingCanvasLink canvasUserId (db s)) ;;
           match existingLink with
           | Some l =>
               ret (singleResponse
                      (provisioned (foundUserId l) canvasUserId (foundEmail l)
                                   (foundCreatedAt l) (foundLinkId l) (Some true))
                      (Some 409))
           | None =>
               existingUser <- gets (fun s => findUserByEmail email (db s)) ;;
               match existingUser with
               | Some u =>
                   link <- createCanvasAccountLink (userId u) canvasUserId linkMetadata ;;
                   ret (singleResponse
                          (provisioned (userId u) canvasUserId (userEmail u)
                                       (snd link) (fst link) None)
                          (Some 201))
               | None =>
                   result <- createNewSimUser canvasUserId email name linkMetadata ;;
                   ret (singleResponse
                          (provisioned (newUserId result) canvasUserId email
                                       (linkCreatedAt result) (newLinkId result) None)
                          (Some 201))
               end
           end
     end)
    (fun error =>
       match error with
       | ErrorObj message =>
           if includes message "unique" then
             ret (userExistsResponse "User provisioning conflict - please retry")
           else ret (internalErrorResponse "Failed to provision user")
       | NonError => ret (internalErrorResponse "Failed to provision user")
       end).

End Handler.

End Provision.

(* ===================================================================== *)
(** ** blocks/execute/route.ts *)
(* ===================================================================== *)

Module Execute.

Definition CANVAS_PROVIDER_ID : string := "canvas".
Definition DEFAULT_EXECUTION_TIMEOUT_MS : Z := 30000.
Definition MAX_EXECUTION_TIMEOUT_MS : Z := 300000.

(** *** The request *)

(** [blockExecutionContextSchema] and [blockExecutionOptionsSchema] *)
Record RequestContext : Type := {
  reqWorkflowId : option string;
  reqExecutionId : option string;
  reqNodeId : option string
}.

Record RequestOptions : Type := {
  timeout : option Z;
  retryOnFailure : option bool
}.

(** [blockExecutionRequestWithInputsSchema], after JSON decoding. *)
Record ExecuteRequest : Type := {
  reqBlockType : string;
  params : option json;
  inputs : option json;
  reqBlockVersion : option string;
  context : option RequestContext;
  options : option RequestOptions
}.

(** [await request.json()] *)
Inductive Body : Type :=
| Malformed (e : thrown)
| Decoded (data : ExecuteRequest).

(** [z.record(z.unknown()).optional()]: a plain object when it is given. *)
Definition isRecord (v : option json) : bool :=
  match v with
  | None | Some (JObj _) => true
  | Some _ => false
  end.

(** [executeRequestSchema.safeParse(body).success] *)
Definition validRequest (data : ExecuteRequest) : bool :=
  (negb (String.eqb (reqBlockType data) "")
   && isRecord (params data)
   && isRecord (inputs data)
   && (match params data with Some _ => true | None => false end
       || match inputs data with Some _ => true | None => false end)
   && match options data with
      | Some o =>
          match timeout o with
          | Some t => (0 <? t) && negb ((t <? 1000) || (MAX_EXECUTION_TIMEOUT_MS <? t))
          | None => true
          end
      | None => true
      end)%bool.

(** *** The block catalogue and the tool engine *)

(** What the handler reads of a [BlockConfig]: its type, the static tool
    list [tools.access] and the optional selector [tools.config.tool]. *)
Record BlockConfig : Type := {
  configType : string;
  toolsAccess : list string;
  toolSelector : option (json -> thrown + option string)
}.

(** What [executeTool] resolves to. *)
Record ToolResult : Type := {
  success : bool;
  output : option json;
  error : option string
}.

(** How the promise returned by one call of [executeTool] settles. *)
Inductive Settlement : Type :=
| Resolves (afterMs : Z) (result : ToolResult)
| RejectsWith (afterMs : Z) (e : thrown)
| Pending.

(** What the handler takes from its surroundings.  [executeTool] is the
    tool engine: from its state and the arguments of the call it yields
    its next state and the way the call settles. *)
Record Env (W : Type) : Type := {
  uuids : nat -> string;
  toISOString : Z -> string;
  numberToString : json -> string;
  parseNumber : string -> option Q;
  fieldErrors : ExecuteRequest -> json;
  getBlock : string -> option BlockConfig;
  getBlockByToolName : string -> option BlockConfig;
  applyBlockTransforms : BlockConfig -> json -> json;
  redactApiKeys : json -> json;
  executeTool : W -> string -> json -> ExecutionContext -> W * Settlement
}.

Arguments uuids {W} _.
Arguments toISOString {W} _.
Arguments numberToString {W} _.
Arguments parseNumber {W} _.
Arguments fieldErrors {W} _.
Arguments getBlock {W} _.
Arguments getBlockByToolName {W} _.
Arguments applyBlockTransforms {W} _.
Arguments redactApiKeys {W} _.
Arguments executeTool {W} _.

(** *** Asynchronous-job detection *)

Definition ASYNC_STATUS_VALUES : list string :=
  ["queued"; "running"; "processing"; "pending"; "in_progress"; "in-progress"; "started"].

(** The alternatives of
    [/\b(async|asynchronous|queued|processing|running|pending|in progress)\b/i]. *)
Definition ASYNC_MESSAGE_WORDS : list string :=
  ["async"; "asynchronous"; "queued"; "processing"; "running"; "pending"; "in progress"].

(** [w] read case-insensitively at the start of [s]: what follows it. *)
Fixpoint readWord (w s : string) : option string :=
  match w, s with
  | EmptyString, _ => Some s
  | String a w', String b s' =>
      if Ascii.eqb (toLowerChar a) (toLowerChar b) then readWord w' s' else None
  | String _ _, EmptyString => None
  end.

Definition startsWithWordChar (s : string) : bool :=
  match s with
  | String c _ => isWordChar c
  | EmptyString => false
  end.

(** One of the alternatives starts here and ends at a word boundary. *)
Definition wordHere (s : string) : bool :=
  existsb (fun w => match readWord w s with
                    | Some rest => negb (startsWithWordChar rest)
                    | None => false
                    end)
          ASYNC_MESSAGE_WORDS.

(** Search for a match; [afterWord] tells whether the character before
    the current position is a word character. *)
Fixpoint searchPattern (afterWord : bool) (s : string) : bool :=
  (negb afterWord && wordHere s
   || match s with
      | EmptyString => false
      | String c r => searchPattern (isWordChar c) r
      end)%bool.

(** [ASYNC_MESSAGE_PATTERN.test(message)] *)
Definition ASYNC_MESSAGE_PATTERN_test (message : string) : bool :=
  searchPattern false message.

Definition getString (value : option json) : option string :=
  match value with
  | Some (JStr s) => if String.eqb (trim s) "" then None else Some (trim s)
  | _ => None
  end.

Definition getNumber (parse : string -> option Q) (value : option json) : option Q :=
  match value with
  | Some (JNum q) => Some q
  | Some (JStr s) => if String.eqb (trim s) "" then None else parse s
  | _ => None
  end.

Definition normalizeProgress (value : Q) : Q :=
  if Qle_bool value 0 then 0%Q
  else if Qle_bool value 1 then value
  else if Qle_bool value (inject_Z 100) then (value / inject_Z 100)%Q
  else 1%Q.

(** The result of [detectAsyncExecution] when it is not [null]. *)
Record AsyncExecution : Type := {
  progress : option Q;
  currentStep : option string;
  estimatedCompletionMs : option Q
}.

(** [typeof output === 'object'] for a value that is not nullish *)
Definition isObject (v : json) : bool :=
  match v with
  | JObj _ | JArr _ => true
  | _ => false
  end.

(** The three readings of [detectAsyncExecution]. *)
Definition statusOf (output : json) : option string :=
  getString (prop output "status" ?? prop output "state"
             ?? prop output "jobStatus" ?? prop output "job_state").

Definition jobIdOf (output : json) : option string :=
  getString (prop output "jobId" ?? prop output "job_id"
             ?? prop output "taskId" ?? prop output "task_id").

Definition messageOfOutput (output : json) : option string :=
  getString (prop output "currentStep" ?? prop output "message"
             ?? prop output "statusMessage" ?? prop output "status_message").

Definition detectAsyncExecution (parse : string -> option Q) (output : option json)
  : option AsyncExecution :=
  match output with
  | None | Some JNull => None
  | Some output =>
      if negb (truthy (Some output) && isObject output) then None
      else
        let statusValue := statusOf output in
        let normalizedStatus := option_map toLowerCase statusValue in
        let isRunningStatus :=
          match normalizedStatus with
          | Some s => existsb (String.eqb s) ASYNC_STATUS_VALUES
          | None => false
          end in
        let jobId := jobIdOf output in
        let message := messageOfOutput output in
        let hasAsyncMessage :=
          match message with
          | Some m => ASYNC_MESSAGE_PATTERN_test m
          | None => false
          end in
        if (negb isRunningStatus
            && negb (match jobId with Some _ => hasAsyncMessage | None => false end))%bool
        then None
        else
          let progressValue :=
            getNumber parse (prop output "progress" ?? prop output "percentage"
                             ?? prop output "percent") in
          Some {| progress := option_map normalizeProgress progressValue;
                  currentStep :=
                    match message with
                    | Some m => Some m
                    | None => option_map (fun s => ("Status: " ++ s)%string) normalizedStatus
                    end;
                  estimatedCompletionMs :=
                    getNumber parse (prop output "estimatedCompletionMs"
                                     ?? prop output "etaMs" ?? prop output "eta_ms") |}
  end.

(** *** Usage counters *)

Definition orNull (v : option json) : json :=
  match v with
  | Some x => x
  | None => JNull
  end.

Definition isNumber (v : option json) : bool :=
  match v with
  | Some (JNum _) => true
  | _ => false
  end.

Definition extractTokensUsed (output : option json) : json :=
  if negb (truthy output) then JNull
  else
    let tokens := optProp (optProp output "tokens") "total" in
    if truthy tokens then orNull tokens
    else
      let usage := optProp (optProp output "usage") "total_tokens" in
      if truthy usage then orNull usage
      else
        let cost := optProp (optProp (optProp output "cost") "tokens") "total" in
        if truthy cost then orNull cost else JNull.

Definition extractApiCallsMade (output : option json) : json :=
  if negb (truthy output) then JNum 1
  else
    let made := optProp (optProp output "usage") "apiCallsMade" in
    if isNumber made then orNull made else JNum 1.

Definition extractCreditsConsumed (output : option json) : json :=
  if negb (truthy output) then JNull
  else
    let consumed := optProp (optProp output "usage") "creditsConsumed" in
    if isNumber consumed then orNull consumed
    else
      let total := optProp (optProp output "cost") "total" in
      if isNumber total then orNull total else JNull.

Record Usage : Type := {
  tokensUsed : json;
  apiCallsMadeNow : json;
  creditsConsumedNow : json
}.

Definition usageJson (u : Usage) : json :=
  obj [("tokensUsed", Some (tokensUsed u));
       ("apiCallsMade", Some (apiCallsMadeNow u));
       ("creditsConsumed", Some (creditsConsumedNow u))].

Definition noUsage : Usage :=
  {| tokensUsed := JNull; apiCallsMadeNow := JNull; creditsConsumedNow := JNull |}.

(** *** The execution log *)

Definition findExistingExecution (executionId : string) (d : Db) : option ExecutionLog :=
  find (fun r => String.eqb (Schema.executionId r) executionId) (executionLogs d).

Definition pollUrlOf (executionId : string) : string :=
  "/api/v1/executions/" ++ executionId ++ "/status".

(** The columns written by [logExecutionCompletion]. *)
Definition completeLog (completedAt durationMs : Z) (newLevel : string) (data : json)
           (calls : option json) (credits : option string) (r : ExecutionLog) : ExecutionLog :=
  {| logId := logId r; logWorkflowId := logWorkflowId r;
     logWorkspaceId := logWorkspaceId r; executionId := Schema.executionId r;
     level := newLevel; trigger := trigger r; startedAt := startedAt r;
     endedAt := Some completedAt; totalDurationMs := Some durationMs;
     executionData := data; blockType := blockType r;
     blockVersion := blockVersion r; callerId := callerId r;
     callerUserId := callerUserId r; callerWorkspaceId := callerWorkspaceId r;
     callerWorkflowId := callerWorkflowId r; callerNodeId := callerNodeId r;
     apiCallsMade := match calls with Some c => Some c | None => apiCallsMade r end;
     creditsConsumed :=
       match credits with Some c => Some c | None => creditsConsumed r end |}.

(** The columns written by [logExecutionRunning]. *)
Definition progressLog (data : json) (calls : option json) (credits : option string)
           (r : ExecutionLog) : ExecutionLog :=
  {| logId := logId r; logWorkflowId := logWorkflowId r;
     logWorkspaceId := logWorkspaceId r; executionId := Schema.executionId r;
     level := level r; trigger := trigger r; startedAt := startedAt r;
     endedAt := endedAt r; totalDurationMs := totalDurationMs r;
     executionData := data; blockType := blockType r;
     blockVersion := blockVersion r; callerId := callerId r;
     callerUserId := callerUserId r; callerWorkspaceId := callerWorkspaceId r;
     callerWorkflowId := callerWorkflowId r; callerNodeId := callerNodeId r;
     apiCallsMade := match calls with Some c => Some c | None => apiCallsMade r end;
     creditsConsumed :=
       match credits with Some c => Some c | None => creditsConsumed r end |}.

(** [update(workflowExecutionLogs).set(...).where(eq(executionId, id))] *)
Definition updateWhere (id : string) (f : ExecutionLog -> ExecutionLog) (d : Db) : Db :=
  setExecutionLogs
    (map (fun r => if String.eqb (Schema.executionId r) id then f r else r)
         (executionLogs d))
    d.

(** [insert(workflowExecutionLogs).values(row).onConflictDoNothing()]:
    a row whose execution id is already stored is dropped. *)
Definition insertLog (row : ExecutionLog) (d : Db) : Db :=
  match findExistingExecution (Schema.executionId row) d with
  | Some _ => d
  | None => setExecutionLogs (executionLogs d ++ [row]) d
  end.

Section Handler.

Context {W : Type} (env : Env W).

Definition buildExecutionStatusResponse (existing : ExecutionLog) (executionId : string)
  : Response :=
  match endedAt existing with
  | None =>
      let executionData := Some (executionData existing) in
      singleResponse
        (obj [("executionId", str executionId);
              ("blockType",
               optProp (optProp executionData "request") "blockType" ?? str "unknown");
              ("status", str "running");
              ("progress", optProp executionData "progress" ?? num 0);
              ("currentStep", optProp executionData "currentStep" ?? str "Running");
              ("timing",
               Some (obj [("startedAt", str (toISOString env (startedAt existing)))]));
              ("pollUrl", str (pollUrlOf executionId));
              ("estimatedCompletionMs", optProp executionData "estimatedCompletionMs")])
        (Some 202)
  | Some ended =>
      let executionData := Some (executionData existing) ?? Some (JObj []) in
      let responseData := optProp executionData "response" ?? Some (JObj []) in
      singleResponse
        (obj [("executionId", str executionId);
              ("blockType",
               optProp responseData "blockType"
               ?? optProp (optProp executionData "request") "blockType"
               ?? str "unknown");
              ("status",
               str (if String.eqb (level existing) "error" then "failed" else "completed"));
              ("output", optProp responseData "output" ?? Some (JObj []));
              ("timing",
               Some (obj [("startedAt", str (toISOString env (startedAt existing)));
                          ("completedAt", str (toISOString env ended));
                          ("durationMs", optNum (totalDurationMs existing))]));
              ("usage", optProp responseData "usage")])
        None
  end.

Definition logExecutionStart (executionId workspaceId blockType : string)
           (blockVersion : option string) (callerUserId : string)
           (callerWorkspaceId callerWorkflowId callerNodeId : option string)
           (requestData : json) : M (State W) unit :=
  t <- now ;;
  id <- randomUUID (uuids env) ;;
  updateDb (insertLog
    {| logId := id; logWorkflowId := None; logWorkspaceId := workspaceId;
       executionId := executionId; level := "info"; trigger := "api";
       startedAt := t; endedAt := None; totalDurationMs := None;
       executionData := obj [("request", Some requestData); ("status", str "running")];
       blockType := blockType; blockVersion := blockVersion;
       callerId := CANVAS_PROVIDER_ID; callerUserId := callerUserId;
       callerWorkspaceId := callerWorkspaceId; callerWorkflowId := callerWorkflowId;
       callerNodeId := callerNodeId; apiCallsMade := None; creditsConsumed := None |}).

(** [usage.apiCallsMade ?? undefined] and
    [usage.creditsConsumed !== null ? String(usage.creditsConsumed) : undefined] *)
Definition apiCallsColumn (u : Usage) : option json :=
  match apiCallsMadeNow u with
  | JNull => None
  | v => Some v
  end.

Definition creditsColumn (u : Usage) : option string :=
  match creditsConsumedNow u with
  | JNull => None
  | v => Some (numberToString env v)
  end.

Definition logExecutionCompletion (executionId : string) (durationMs : Z) (ok : bool)
           (out : json) (err : option string) (usage : Usage) (requestData : json)
           (responseBlockType : string) : M (State W) unit :=
  completedAt <- now ;;
  let status := if ok then "completed" else "failed" in
  updateDb (updateWhere executionId
    (completeLog completedAt durationMs (if ok then "info" else "error")
       (obj [("request", Some requestData);
             ("response",
              Some (obj [("blockType", str responseBlockType);
                         ("output", Some out);
                         ("error", optStr err);
                         ("usage", Some (usageJson usage));
                         ("success", boolean ok);
                         ("status", str status);
                         ("durationMs", num durationMs);
                         ("completedAt", str (toISOString env completedAt))]));
             ("status", str status)])
       (apiCallsColumn usage) (creditsColumn usage))).

Definition qnum (q : option Q) : option json := option_map JNum q.

Definition logExecutionRunning (executionId : string) (durationMs : Z) (out : json)
           (usage : Usage) (requestData : json) (responseBlockType : string)
           (async : AsyncExecution) : M (State W) unit :=
  updateDb (updateWhere executionId
    (progressLog
       (obj [("request", Some requestData);
             ("response",
              Some (obj [("blockType", str responseBlockType);
                         ("output", Some out);
                         ("usage", Some (usageJson usage));
                         ("success", boolean true);
                         ("status", str "running");
                         ("durationMs", num durationMs)]));
             ("status", str "running");
             ("progress", qnum (progress async));
             ("currentStep", optStr (currentStep async));
             ("estimatedCompletionMs", qnum (estimatedCompletionMs async))])
       (apiCallsColumn usage) (creditsColumn usage))).

(** *** Linked account and workspace *)

Definition findLinkedSimUser (canvasUserId : string) (d : Db) : option string :=
  option_map accountUserId
    (find (fun a => String.eqb (accountId a) canvasUserId
                    && String.eqb (providerId a) CANVAS_PROVIDER_ID)%bool
          (accounts d)).

Definition findUserWorkspace (userId : string) (d : Db) : option string :=
  option_map workspaceId
    (find (fun w => String.eqb (ownerId w) userId) (workspaces d)).

Definition buildCanvasExecutionContext (executionId workspaceId userId : string)
           (canvasWorkflowId : option string) : ExecutionContext :=
  {| ctxWorkflowId := match canvasWorkflowId with
                      | Some w => w
                      | None => "canvas-" ++ executionId
                      end;
     ctxWorkspaceId := workspaceId;
     ctxExecutionId := executionId;
     ctxUserId := userId |}.

(** *** Block resolution *)

Definition resolveBlock (blockType : string) : option (BlockConfig * option string) :=
  match getBlock env blockType with
  | Some blockConfig => Some (blockConfig, None)
  | None =>
      match getBlockByToolName env blockType with
      | Some byToolName => Some (byToolName, Some blockType)
      | None => None
      end
  end.

Definition resolveToolId (blockConfig : BlockConfig) (params : json)
  : thrown + option string :=
  match toolSelector blockConfig with
  | Some tool => tool params
  | None => inr (hd_error (toolsAccess blockConfig))
  end.

(** The record of one invocation. *)
Definition theCall (toolId : string) (toolInputs : json)
           (executionContext : ExecutionContext) : Call :=
  {| callToolId := toolId; callInputs := toolInputs; callContext := executionContext |}.

(** A call that is still unsettled when the timer of [timeoutMs] fires. *)
Definition settlesAfter (timeoutMs : Z) (settlement : Settlement) : bool :=
  match settlement with
  | Resolves ms _ | RejectsWith ms _ => negb (ms <? timeoutMs)
  | Pending => true
  end.

(** *** Running the tool *)

(** [executeTool(...)] raced against [setTimeout(..., timeoutMs)]: the
    call is recorded, the engine moves on, and the handler resumes when
    the first of the two settles. *)
Definition executeWithTimeout (toolId : string) (toolInputs : json)
           (executionContext : ExecutionContext) (timeoutMs : Z)
  : M (State W) ToolResult :=
  fun s =>
    let (w', settlement) := executeTool env (world s) toolId toolInputs executionContext in
    let resume (ms : Z) : State W :=
      {| db := db s; entropy := entropy s; clock := clock s + ms; world := w';
         calls := calls s ++ [theCall toolId toolInputs executionContext] |} in
    match settlement with
    | Resolves ms result =>
        if ms <? timeoutMs then (resume ms, inr result)
        else (resume timeoutMs, inl (ErrorObj "EXECUTION_TIMEOUT"))
    | RejectsWith ms e =>
        if ms <? timeoutMs then (resume ms, inl e)
        else (resume timeoutMs, inl (ErrorObj "EXECUTION_TIMEOUT"))
    | Pending => (resume timeoutMs, inl (ErrorObj "EXECUTION_TIMEOUT"))
    end.

Definition executeWithRetry (toolId : string) (toolInputs : json)
           (executionContext : ExecutionContext) (timeoutMs : Z) (retry : bool)
  : M (State W) ToolResult :=
  tryCatch
    (result <- executeWithTimeout toolId toolInputs executionContext timeoutMs ;;
     if (retry && negb (success result))%bool then
       executeWithTimeout toolId toolInputs executionContext timeoutMs
     else ret result)
    (fun error =>
       if retry then executeWithTimeout toolId toolInputs executionContext timeoutMs
       else throw error).

(** The next two calls of the engine, whatever their arguments, are
    still unsettled when the timer of [timeoutMs] fires. *)
Definition nextCallsLate (timeoutMs : Z) (w : W) : Prop :=
  forall (t : string) (i : json) (c : ExecutionContext),
    settlesAfter timeoutMs (snd (executeTool env w t i c)) = true
    /\ settlesAfter timeoutMs
         (snd (executeTool env (fst (executeTool env w t i c)) t i c))
       = true.

(** *** The handler *)

(** The [let] variables of [POST] that its [catch] block reads. *)
Record Locals : Type := {
  executionIdVar : string;
  requestPayload : option json;
  responseBlockType : option string;
  logStarted : bool
}.

Definition initialLocals : Locals :=
  {| executionIdVar := ""; requestPayload := None; responseBlockType := None;
     logStarted := false |}.

Definition Frame : Type := (State W * Locals)%type.

Definition lift {A} (m : M (State W) A) : M Frame A :=
  fun f => let (s', r) := m (fst f) in ((s', snd f), r).

Definition assign (g : Locals -> Locals) : M Frame unit :=
  modify (fun f => (fst f, g (snd f))).

Definition setExecutionId (id : string) (l : Locals) : Locals :=
  {| executionIdVar := id; requestPayload := requestPayload l;
     responseBlockType := responseBlockType l; logStarted := logStarted l |}.

Definition setRequestPayload (p : json) (l : Locals) : Locals :=
  {| executionIdVar := executionIdVar l; requestPayload := Some p;
     responseBlockType := responseBlockType l; logStarted := logStarted l |}.

Definition setLogStarted (blockType : string) (l : Locals) : Locals :=
  {| executionIdVar := executionIdVar l; requestPayload := requestPayload l;
     responseBlockType := Some blockType; logStarted := true |}.

(** [context?.executionId] *)
Definition executionIdOf (context : option RequestContext) : option string :=
  match context with Some c => reqExecutionId c | None => None end.

(** [context?.executionId ?? serviceContext.idempotencyKey ?? crypto.randomUUID()] *)
Definition chooseExecutionId (context : option RequestContext)
           (idempotencyKey : option string) : M (State W) string :=
  match executionIdOf context with
  | Some id => ret id
  | None =>
      match idempotencyKey with
      | Some key => ret key
      | None => randomUUID (uuids env)
      end
  end.

Definition fieldsOf (v : json) : list (string * json) :=
  match v with
  | JObj fields => fields
  | _ => []
  end.

Definition workflowIdOf (context : option RequestContext) : option string :=
  match context with Some c => reqWorkflowId c | None => None end.

Definition nodeIdOf (context : option RequestContext) : option string :=
  match context with Some c => reqNodeId c | None => None end.

(** [lowerMessage.includes('credential') || ... 'oauth' || ... 'api key'] *)
Definition isMissingCredentials (errorMessage : string) : bool :=
  let lowerMessage := toLowerCase errorMessage in
  (includes lowerMessage "credential" || includes lowerMessage "oauth"
   || includes lowerMessage "api key")%bool.

(** [options?.timeout ?? DEFAULT_EXECUTION_TIMEOUT_MS] *)
Definition timeoutOf (data : ExecuteRequest) : Z :=
  match match options data with Some o => timeout o | None => None end with
  | Some t => t
  | None => DEFAULT_EXECUTION_TIMEOUT_MS
  end.

(** [options?.retryOnFailure ?? false] *)
Definition retryOf (data : ExecuteRequest) : bool :=
  match match options data with Some o => retryOnFailure o | None => None end with
  | Some b => b
  | None => false
  end.

(** From the synthesized execution context to the response: the part of
    the [try] block after the user and the workspace are resolved. *)
Definition executeStage (serviceContext : CanvasRequestContext) (data : ExecuteRequest)
           (startTime : Z) (canvasUserId executionId requestId : string)
           (blockConfig : BlockConfig) (toolId : string) (hydratedParams : json)
           (simUserId simWorkspaceId : string) : M Frame Response :=
  let context := context data in
  let executionContext :=
    buildCanvasExecutionContext executionId simWorkspaceId simUserId (workflowIdOf context) in
  let toolInputs :=
    JObj (spread (fieldsOf hydratedParams)
            (object
               [("_context",
                 Some (obj [("workflowId", str (ctxWorkflowId executionContext));
                            ("workspaceId", str (ctxWorkspaceId executionContext));
                            ("executionId", str executionId);
                            ("userId", str simUserId);
                            ("isCanvasExecution", boolean true);
                            ("canvasWorkspaceId", optStr (canvasWorkspaceId serviceContext));
                            ("canvasNodeId", optStr (nodeIdOf context));
                            ("canvasWorkflowId", optStr (workflowIdOf context))]))])) in
  let payload :=
    obj [("requestId", str requestId);
         ("idempotencyKey", optStr (idempotencyKey serviceContext));
         ("serviceKeyPrefix", str (keyPrefix serviceContext));
         ("serviceName", str (serviceName serviceContext));
         ("ipAddress", optStr (ipAddress serviceContext));
         ("userAgent", optStr (userAgent serviceContext));
         ("blockType", str (reqBlockType data));
         ("blockVersion", optStr (reqBlockVersion data));
         ("toolId", str toolId);
         ("params", Some (redactApiKeys env hydratedParams));
         ("context",
          Some (obj [("canvasUserId", str canvasUserId);
                     ("canvasWorkspaceId", optStr (canvasWorkspaceId serviceContext));
                     ("canvasWorkflowId", optStr (workflowIdOf context));
                     ("canvasNodeId", optStr (nodeIdOf context))]))] in
  assign (setRequestPayload payload) ;;;
  lift (logExecutionStart executionId simWorkspaceId (configType blockConfig)
          (reqBlockVersion data) canvasUserId (canvasWorkspaceId serviceContext)
          (workflowIdOf context) (nodeIdOf context) payload) ;;;
  assign (setLogStarted (configType blockConfig)) ;;;
  let timeoutMs := timeoutOf data in
  let retry := retryOf data in
  result <- lift (executeWithRetry toolId toolInputs executionContext timeoutMs retry) ;;
  endTime <- lift now ;;
  let durationMs := endTime - startTime in
  let usage :=
    {| tokensUsed := extractTokensUsed (output result);
       apiCallsMadeNow := extractApiCallsMade (output result);
       creditsConsumedNow := extractCreditsConsumed (output result) |} in
  let redacted :=
    redactApiKeys env (orNull (output result ?? Some (JObj []))) in
  match (if success result
         then detectAsyncExecution (parseNumber env) (output result)
         else None) with
  | Some asyncExecution =>
      lift (logExecutionRunning executionId durationMs redacted usage payload
              (configType blockConfig) asyncExecution) ;;;
      ret (singleResponse
             (obj [("executionId", str executionId);
                   ("blockType", str (configType blockConfig));
                   ("status", str "running");
                   ("progress", qnum (progress asyncExecution));
                   ("currentStep", optStr (currentStep asyncExecution));
                   ("pollUrl", str (pollUrlOf executionId));
                   ("estimatedCompletionMs", qnum (estimatedCompletionMs asyncExecution))])
             (Some 202))
  | None =>
      lift (logExecutionCompletion executionId durationMs (success result) redacted
              (error result) usage payload (configType blockConfig)) ;;;
      if negb (success result) then
        let errorMessage :=
          match error result with Some m => m | None => "Block execution failed" end in
        ret (errorResponse
               (if isMissingCredentials errorMessage
                then "MISSING_CREDENTIALS" else "EXECUTION_FAILED")
               errorMessage
               (if isMissingCredentials errorMessage then 400 else 500)
               (Some (obj [("executionId", str executionId);
                           ("blockType", str (configType blockConfig))]))
               None)
      else
        ret (singleResponse
               (obj [("executionId", str executionId);
                     ("blockType", str (configType blockConfig));
                     ("status", str "completed");
                     ("output", output result ?? Some (JObj []));
                     ("timing",
                      Some (obj [("startedAt", str (toISOString env startTime));
                                 ("completedAt", str (toISOString env endTime));
                                 ("durationMs", num durationMs)]));
                     ("usage", Some (usageJson usage))])
               None)
  end.

(** The inputs [executeStage] hands to the tool: the hydrated parameters
    and [_context]. *)
Definition toolInputsOf (serviceContext : CanvasRequestContext) (data : ExecuteRequest)
           (executionId : string) (hydratedParams : json)
           (simUserId simWorkspaceId : string) : json :=
  JObj (spread (fieldsOf hydratedParams)
          (object
             [("_context",
               Some (obj [("workflowId",
                           str (ctxWorkflowId
                                  (buildCanvasExecutionContext
                                     executionId simWorkspaceId simUserId
                                     (workflowIdOf (context data)))));
                          ("workspaceId",
                           str (ctxWorkspaceId
                                  (buildCanvasExecutionContext
                                     executionId simWorkspaceId simUserId
                                     (workflowIdOf (context data)))));
                          ("executionId", str executionId);
                          ("userId", str simUserId);
                          ("isCanvasExecution", boolean true);
                          ("canvasWorkspaceId", optStr (canvasWorkspaceId serviceContext));
                          ("canvasNodeId", optStr (nodeIdOf (context data)));
                          ("canvasWorkflowId", optStr (workflowIdOf (context data)))]))])).

(** The [requestPayload] that [executeStage] stores with the running row. *)
Definition requestPayloadOf (serviceContext : CanvasRequestContext) (data : ExecuteRequest)
           (canvasUserId requestId toolId : string) (hydratedParams : json) : json :=
  obj [("requestId", str requestId);
       ("idempotencyKey", optStr (idempotencyKey serviceContext));
       ("serviceKeyPrefix", str (keyPrefix serviceContext));
       ("serviceName", str (serviceName serviceContext));
       ("ipAddress", optStr (ipAddress serviceContext));
       ("userAgent", optStr (userAgent serviceContext));
       ("blockType", str (reqBlockType data));
       ("blockVersion", optStr (reqBlockVersion data));
       ("toolId", str toolId);
       ("params", Some (redactApiKeys env hydratedParams));
       ("context",
        Some (obj [("canvasUserId", str canvasUserId);
                   ("canvasWorkspaceId", optStr (canvasWorkspaceId serviceContext));
                   ("canvasWorkflowId", optStr (workflowIdOf (context data)));
                   ("canvasNodeId", optStr (nodeIdOf (context data)))]))].

(** The run of the tool inside [executeStage], from the state the
    admission left: [logExecutionStart] writes the running row, then
    [executeWithRetry] calls the tool. *)
Definition toolRun (serviceContext : CanvasRequestContext) (data : ExecuteRequest)
           (canvasUserId executionId requestId : string)
           (blockConfig : BlockConfig) (toolId : string) (hydratedParams : json)
           (simUserId simWorkspaceId : string) : M (State W) ToolResult :=
  logExecutionStart executionId simWorkspaceId (configType blockConfig)
    (reqBlockVersion data) canvasUserId (canvasWorkspaceId serviceContext)
    (workflowIdOf (context data)) (nodeIdOf (context data))
    (requestPayloadOf serviceContext data canvasUserId requestId toolId hydratedParams) ;;;
  executeWithRetry toolId
    (toolInputsOf serviceContext data executionId hydratedParams simUserId simWorkspaceId)
    (buildCanvasExecutionContext executionId simWorkspaceId simUserId
       (workflowIdOf (context data)))
    (timeoutOf data) (retryOf data).

(** What the first part of the [try] block settles: an early reply, or
    everything the execution needs. *)
Inductive Admission : Type :=
| Reply (response : Response)
| Admit (canvasUserId executionId requestId : string) (blockConfig : BlockConfig)
        (toolId : string) (hydratedParams : json) (simUserId simWorkspaceId : string).

(** From the parsed body to the resolved user and workspace: validation,
    the choice of the execution id, the replay of an existing execution,
    block and tool resolution, account and workspace lookup. *)
Definition admission (serviceContext : CanvasRequestContext) (data : ExecuteRequest)
  : M Frame Admission :=
  if negb (validRequest data) then
    ret (Reply (badRequestResponse "Validation failed" (Some (fieldErrors env data))))
  else
    let blockType := reqBlockType data in
    let params := orNull (params data ?? inputs data ?? Some (JObj [])) in
    match canvasUserId serviceContext with
    | None => ret (Reply (badRequestResponse "Missing X-Canvas-User-Id header" None))
    | Some canvasUserId =>
        if String.eqb canvasUserId "" then
          ret (Reply (badRequestResponse "Missing X-Canvas-User-Id header" None))
        else
          executionId <-
            lift (chooseExecutionId (context data) (idempotencyKey serviceContext)) ;;
          assign (setExecutionId executionId) ;;;
          let requestId :=
            match requestId serviceContext with
            | Some r => r
            | None => executionId
            end in
          existing <- lift (gets (fun s => findExistingExecution executionId (db s))) ;;
          match existing with
          | Some existing => ret (Reply (buildExecutionStatusResponse existing executionId))
          | None =>
              match resolveBlock blockType with
              | None =>
                  ret (Reply (errorResponse "INVALID_BLOCK_TYPE" "Unknown block type" 400
                                (Some (obj [("blockType", str blockType)])) None))
              | Some (blockConfig, presetToolId) =>
                  let hydratedParams := applyBlockTransforms env blockConfig params in
                  toolId <-
                    match presetToolId with
                    | Some t => ret (Some t)
                    | None =>
                        match resolveToolId blockConfig hydratedParams with
                        | inl e => throw e
                        | inr t => ret t
                        end
                    end ;;
                  if negb (present toolId) then
                    ret (Reply (errorResponse "INVALID_BLOCK_TYPE"
                                  "Unable to resolve tool for block type" 400
                                  (Some (obj [("blockType", str blockType)])) None))
                  else
                    simUser <- lift (gets (fun s => findLinkedSimUser canvasUserId (db s))) ;;
                    match simUser with
                    | None =>
                        ret (Reply (errorResponse "USER_NOT_PROVISIONED"
                                      "Canvas user not linked to Sim Studio. Call /users/provision first."
                                      404 None None))
                    | Some simUserId =>
                        simWorkspace <-
                          lift (gets (fun s => findUserWorkspace simUserId (db s))) ;;
                        match simWorkspace with
                        | None =>
                            ret (Reply (internalErrorResponse "User workspace not found"))
                        | Some simWorkspaceId =>
                            ret (Admit canvasUserId executionId requestId blockConfig
                                       (match toolId with Some t => t | None => "" end)
                                       hydratedParams simUserId simWorkspaceId)
                        end
                    end
              end
          end
    end.

(** The [try] block of [POST]. *)
Definition tryBlock (serviceContext : CanvasRequestContext) (body : Body)
           (startTime : Z) : M Frame Response :=
  match body with
  | Malformed e => throw e
  | Decoded data =>
      admitted <- admission serviceContext data ;;
      match admitted with
      | Reply response => ret response
      | Admit canvasUserId executionId requestId blockConfig toolId hydratedParams
              simUserId simWorkspaceId =>
          executeStage serviceContext data startTime canvasUserId executionId requestId
                       blockConfig toolId hydratedParams simUserId simWorkspaceId
      end
  end.

(** [error instanceof Error && error.message === 'EXECUTION_TIMEOUT'] *)
Definition isTimeout (e : thrown) : bool :=
  match e with
  | ErrorObj message => String.eqb message "EXECUTION_TIMEOUT"
  | NonError => false
  end.

(** The answer of the [catch] block: a timeout is told apart by the
    message of the error. *)
Definition failureResponse (error : thrown) (executionId : string) (durationMs : Z)
  : Response :=
  let details :=
    Some (obj [("executionId", str executionId); ("durationMs", num durationMs)]) in
  match error with
  | ErrorObj message =>
      if String.eqb message "EXECUTION_TIMEOUT" then
        errorResponse "TIMEOUT" "Execution exceeded timeout" 504 details None
      else errorResponse "EXECUTION_FAILED" (messageOf error) 500 details None
  | NonError => errorResponse "EXECUTION_FAILED" (messageOf error) 500 details None
  end.

(** [logStarted && executionId && requestPayload && responseBlockType] *)
Definition mayLogFailure (l : Locals) : bool :=
  (logStarted l
   && negb (String.eqb (executionIdVar l) "")
   && match requestPayload l with Some _ => true | None => false end
   && present (responseBlockType l))%bool.

(** The [catch] block of [POST]. *)
Definition catchBlock (startTime : Z) (error : thrown) : M Frame Response :=
  t <- lift now ;;
  let durationMs := t - startTime in
  let errorMessage := messageOf error in
  l <- gets snd ;;
  (if mayLogFailure l then
     lift (logExecutionCompletion (executionIdVar l) durationMs false (JObj [])
             (Some errorMessage) noUsage
             (match requestPayload l with Some p => p | None => JNull end)
             (match responseBlockType l with Some b => b | None => "" end))
   else ret tt) ;;;
  ret (failureResponse error (executionIdVar l) durationMs).

Definition POST (serviceContext : CanvasRequestContext) (body : Body)
  : M (State W) Response :=
  fun s =>
    let startTime := clock s in
    match tryCatch (tryBlock serviceContext body startTime) (catchBlock startTime)
                   (s, initialLocals) with
    | (f, r) => (fst f, r)
    end.

(** *** Serving requests one after the other *)

(** A request, with the time that passes before it arrives. *)
Record Request : Type := {
  idleMs : Z;
  requestContext : CanvasRequestContext;
  requestBody : Body
}.

(** The state after the request has been answered. *)
Definition handle (s : State W) (r : Request) : State W :=
  fst (POST (requestContext r) (requestBody r)
            {| db := db s; entropy := entropy s; clock := clock s + idleMs r;
               world := world s; calls := calls s |}).

Definition serve (s : State W) (rs : list Request) : State W :=
  fold_left handle rs s.

Definition isFor (executionId : string) (c : Call) : bool :=
  String.eqb (ctxExecutionId (callContext c)) executionId.

(** The tool invocations made between two states. *)
Definition newCalls (before after : State W) : list Call :=
  skipn (length (calls before)) (calls after).

(** Does answering [r] in state [s] invoke the tool for [executionId]? *)
Definition invokes (executionId : string) (s : State W) (r : Request) : bool :=
  existsb (isFor executionId) (newCalls s (handle s r)).

(** How many requests of the sequence invoke the tool for [executionId]. *)
Fixpoint invokingRequests (executionId : string) (s : State W) (rs : list Request) : nat :=
  match rs with
  | [] => 0%nat
  | r :: rest =>
      ((if invokes executionId s r then 1 else 0)
       + invokingRequests executionId (handle s r) rest)%nat
  end.

(** How many times the tool has been invoked for [executionId]. *)
Definition invocations (executionId : string) (s : State W) : nat :=
  length (filter (isFor executionId) (calls s)).

End Handler.

End Execute.

(* ===================================================================== *)
(** ** executions/[executionId]/status/route.ts *)
(* ===================================================================== *)

Module Status.

Section Handler.

Context {W : Type} (env : Execute.Env W).

(** [GET]: read-only, driven by the stored row. *)
Definition GET (executionId : string) (d : Db) : Response :=
  match Execute.findExistingExecution executionId d with
  | None => notFoundResponse "Execution"
  | Some log =>
      let executionData := Some (executionData log) ?? Some (JObj []) in
      let requestData := optProp executionData "request" ?? Some (JObj []) in
      let responseData := optProp executionData "response" ?? Some (JObj []) in
      match endedAt log with
      | None =>
          SuccessEnvelope 200
            (obj [("executionId", str executionId);
                  ("blockType", optProp requestData "blockType" ?? str "unknown");
                  ("status", str "running");
                  ("progress", optProp executionData "progress" ?? num 0);
                  ("currentStep", optProp executionData "currentStep" ?? str "Running");
                  ("timing",
                   Some (obj [("startedAt",
                               str (Execute.toISOString env (startedAt log)))]));
                  ("pollUrl", str (Execute.pollUrlOf executionId));
                  ("estimatedCompletionMs",
                   optProp executionData "estimatedCompletionMs")])
      | Some ended =>
          SuccessEnvelope 200
            (obj [("executionId", str executionId);
                  ("blockType",
                   optProp responseData "blockType"
                   ?? optProp requestData "blockType" ?? str "unknown");
                  ("status",
                   str (if String.eqb (level log) "error" then "failed" else "completed"));
                  ("output", optProp responseData "output" ?? Some (JObj []));
                  ("timing",
                   Some (obj [("startedAt",
                               str (Execute.toISOString env (startedAt log)));
                              ("completedAt", str (Execute.toISOString env ended));
                              ("durationMs", optNum (totalDurationMs log))]));
                  ("usage", optProp responseData "usage")])
      end
  end.

End Handler.

End Status.

(* ===================================================================== *)
(** ** types.ts: pagination *)
(* ===================================================================== *)

Module Pagination.

Definition DEFAULT_LIMIT : Z := 50.
Definition MAX_LIMIT : Z := 100.

(** What [parsePaginationParams] returns. *)
Record PaginationParams : Type := {
  limit : Integral;
  offset : Integral
}.

Section Parse.

(** [Number.parseInt(s, 10)] *)
Variable parseInt : string -> Integral.

(** [param ? Number.parseInt(param, 10) : fallback] *)
Definition parsedOr (param : option string) (fallback : Z) : Integral :=
  match param with
  | Some v => if String.eqb v "" then Finite fallback else parseInt v
  | None => Finite fallback
  end.

(** [parsePaginationParams(url)]; [get] is [url.searchParams.get]. *)
Definition parsePaginationParams (get : string -> option string) : PaginationParams :=
  let limitParam := get "limit" in
  let offsetParam := get "offset" in
  let limit := parsedOr limitParam DEFAULT_LIMIT in
  let offset := parsedOr offsetParam 0 in
  let limit :=
    if (isNaN limit || lessThan limit (Finite 1))%bool then Finite DEFAULT_LIMIT
    else limit in
  let limit := if lessThan (Finite MAX_LIMIT) limit then Finite MAX_LIMIT else limit in
  let offset :=
    if (isNaN offset || lessThan offset (Finite 0))%bool then Finite 0 else offset in
  {| limit := limit; offset := offset |}.

End Parse.

End Pagination.

(* ===================================================================== *)
(** ** middleware.ts *)
(* ===================================================================== *)

Module Middleware.

(** [canvasScopeSchema] of types.ts *)
Definition CANVAS_SCOPES : list string :=
  ["blocks:execute"; "blocks:list"; "users:provision"; "users:read";
   "executions:read"; "executions:write"].

(** What the middleware reads of a request: [request.headers.get(...)]
    for the headers it looks at, and [request.ip]. *)
Record Request : Type := {
  xServiceKey : option string;
  xCanvasUserId : option string;
  xCanvasWorkspaceId : option string;
  xRequestId : option string;
  xIdempotencyKey : option string;
  xForwardedFor : option string;
  xRealIp : option string;
  userAgentHeader : option string;
  requestIp : option string
}.

(** [canvasAuthOptionsSchema] *)
Record CanvasAuthOptions : Type := {
  optionScopes : option (list string);
  requireUserContext : option bool;
  requireWorkspaceContext : option bool
}.

(** The second argument of [withCanvasAuth]:
    [requiredScopes?: CanvasScope[] | CanvasAuthOptions] *)
Inductive RequiredScopes : Type :=
| Omitted
| ScopeArray (scopes : list string)
| AuthOptions (options : CanvasAuthOptions).

(** [Array.isArray(requiredScopes) ? { scopes: requiredScopes } : requiredScopes ?? {}] *)
Definition optionsOf (requiredScopes : RequiredScopes) : CanvasAuthOptions :=
  match requiredScopes with
  | ScopeArray l =>
      {| optionScopes := Some l; requireUserContext := None;
         requireWorkspaceContext := None |}
  | AuthOptions o => o
  | Omitted =>
      {| optionScopes := None; requireUserContext := None;
         requireWorkspaceContext := None |}
  end.

Definition mapAuthErrorToResponse (code : Auth.FailureCode) (message : string)
           (requiredScopes : option (list string)) : Response :=
  match code with
  | Auth.MISSING_KEY | Auth.INVALID_KEY | Auth.EXPIRED_KEY | Auth.INACTIVE_KEY =>
      unauthorizedResponse message
  | Auth.INSUFFICIENT_SCOPE =>
      match requiredScopes with
      | Some l => insufficientScopeResponse l
      | None => forbiddenResponse message
      end
  | Auth.INTERNAL_ERROR => internalErrorResponse message
  end.

(** [getRequestIp(request)] *)
Definition getRequestIp (request : Request) : option string :=
  let forwarded :=
    if present (xForwardedFor request) then
      match xForwardedFor request with
      | Some forwardedFor =>
          let ip := hd EmptyString (split "," forwardedFor) in
          if String.eqb ip "" then None else Some (trim ip)
      | None => None
      end
    else None in
  match forwarded with
  | Some ip => Some ip
  | None =>
      if present (xRealIp request) then option_map trim (xRealIp request)
      else requestIp request
  end.

(** [buildRequestContext(request, context)] *)
Definition buildRequestContext (request : Request) (context : CanvasRequestContext)
  : CanvasRequestContext :=
  {| serviceName := serviceName context;
     keyId := keyId context;
     keyPrefix := keyPrefix context;
     scopes := scopes context;
     rateLimitPerMinute := rateLimitPerMinute context;
     rateLimitPerDay := rateLimitPerDay context;
     metadata := metadata context;
     canvasUserId := xCanvasUserId request;
     canvasWorkspaceId := xCanvasWorkspaceId request;
     requestId := xRequestId request;
     idempotencyKey := xIdempotencyKey request;
     ipAddress := getRequestIp request;
     userAgent := userAgentHeader request |}.

(** [parseAllowlist(value)] *)
Definition parseAllowlist (value : option string) : list string :=
  if present value then
    match value with
    | Some v => filter (fun entry => negb (String.eqb entry "")) (map trim (split "," v))
    | None => []
    end
  else [].

(** [retryAfterMs ? Math.ceil(retryAfterMs / 1000) : undefined] *)
Definition retryAfterSeconds (result : RateLimit.RateLimitCheckResult) : option Z :=
  match RateLimit.retryAfterMs result with
  | Some ms => if ms =? 0 then None else Some (- ((- ms) / 1000))
  | None => None
  end.

(** What the middleware decides before the handler runs. *)
Inductive Verdict : Type :=
| Blocked (response : HttpResponse)
| Passed (requestContext : CanvasRequestContext).

(** What the middleware takes from its surroundings: SHA-256 and
    [JSON.parse] for the authenticator, zod's [uuid()] check with the
    flattened field errors, the variable [CANVAS_IP_ALLOWLIST] of the
    process environment and the storage adapter of the rate limiter. *)
Record Env (Storage : Type) : Type := {
  hashKey : string -> string;
  JSON_parse : string -> option json;
  isUuid : string -> bool;
  fieldErrors : CanvasRequestContext -> json;
  allowlistVariable : option string;
  consumeTokens :
    string -> Z -> RateLimit.TokenBucketConfig -> M Storage RateLimit.RateLimitCheckResult
}.

Arguments hashKey {Storage} _.
Arguments JSON_parse {Storage} _.
Arguments isUuid {Storage} _.
Arguments fieldErrors {Storage} _.
Arguments allowlistVariable {Storage} _.
Arguments consumeTokens {Storage} _.

(** The same surroundings with the storage adapter observed: a flag
    records whether one of its [consumeTokens] calls has thrown. *)
Definition observing {Storage : Type} (env : Env Storage) : Env (Storage * bool) :=
  {| hashKey := hashKey env;
     JSON_parse := JSON_parse env;
     isUuid := isUuid env;
     fieldErrors := fieldErrors env;
     allowlistVariable := allowlistVariable env;
     consumeTokens := RateLimit.observed (consumeTokens env) |}.

Section Wrapper.

Context {Storage : Type} (env : Env Storage).

Definition CANVAS_IP_ALLOWLIST : list string := parseAllowlist (allowlistVariable env).

Definition isIpAllowed (ipAddress : option string) : bool :=
  match CANVAS_IP_ALLOWLIST with
  | [] => true
  | _ =>
      if negb (present ipAddress) then false
      else
        match ipAddress with
        | Some ip => existsb (String.eqb ip) CANVAS_IP_ALLOWLIST
        | None => false
        end
  end.

Definition optionalUuid (value : option string) : bool :=
  match value with
  | Some v => isUuid env v
  | None => true
  end.

(** [canvasRequestContextSchema.safeParse(context).success]: the scopes
    are among the six of [canvasScopeSchema], the metadata is a record,
    the two Canvas ids are UUIDs when they are given. *)
Definition validContext (context : CanvasRequestContext) : bool :=
  (forallb (fun scope => existsb (String.eqb scope) CANVAS_SCOPES) (scopes context)
   && match metadata context with JObj _ => true | _ => false end
   && optionalUuid (canvasUserId context)
   && optionalUuid (canvasWorkspaceId context))%bool.

Definition isTrue (flag : option bool) : bool :=
  match flag with
  | Some b => b
  | None => false
  end.

(** The part of the wrapper that runs before the handler: the store is
    the key table and the storage of the rate limiter. *)
Definition gate (options : CanvasAuthOptions) (request : Request) (now : Z)
  : M (Auth.KeyTable * Storage) Verdict :=
  fun st =>
    let (auth, keys) :=
      Auth.authenticateCanvasRequest (hashKey env) (JSON_parse env)
        (xServiceKey request) (optionScopes options) now (fst st) in
    match auth with
    | Auth.Rejected error code =>
        ((keys, snd st),
         inr (Blocked (plain (mapAuthErrorToResponse code error (optionScopes options)))))
    | Auth.Authenticated context =>
        let requestContext := buildRequestContext request context in
        if negb (validContext requestContext) then
          ((keys, snd st),
           inr (Blocked (plain (badRequestResponse "Invalid request headers"
                                  (Some (fieldErrors env requestContext))))))
        else if negb (isIpAllowed (ipAddress requestContext)) then
          ((keys, snd st), inr (Blocked (plain (forbiddenResponse "IP address not allowed"))))
        else if (isTrue (requireUserContext options)
                 && negb (present (canvasUserId requestContext)))%bool then
          ((keys, snd st),
           inr (Blocked (plain (badRequestResponse "Missing X-Canvas-User-Id header" None))))
        else if (isTrue (requireWorkspaceContext options)
                 && negb (present (canvasWorkspaceId requestContext)))%bool then
          ((keys, snd st),
           inr (Blocked (plain (badRequestResponse "Missing X-Canvas-Workspace-Id header"
                                  None))))
        else
          match RateLimit.enforceCanvasRateLimit (consumeTokens env) requestContext
                                                 (snd st) with
          | (storage, inl e) => ((keys, storage), inl e)
          | (storage, inr rateLimitResult) =>
              if negb (RateLimit.allowed rateLimitResult) then
                ((keys, storage),
                 inr (Blocked (rateLimitResponse (retryAfterSeconds rateLimitResult))))
              else ((keys, storage), inr (Passed requestContext))
          end
    end.

(** [withCanvasAuth(handler, requiredScopes)]; the handler has a store
    [H] of its own. *)
Definition withCanvasAuth {H : Type}
           (handler : Request -> CanvasRequestContext -> M H Response)
           (requiredScopes : RequiredScopes) (request : Request) (now : Z)
  : M ((Auth.KeyTable * Storage) * H) HttpResponse :=
  fun st =>
    match gate (optionsOf requiredScopes) request now (fst st) with
    | (g, inl e) => ((g, snd st), inl e)
    | (g, inr (Blocked response)) => ((g, snd st), inr response)
    | (g, inr (Passed requestContext)) =>
        match handler request requestContext (snd st) with
        | (h, inl e) => ((g, h), inl e)
        | (h, inr response) => ((g, h), inr (plain response))
        end
    end.

(** [withCanvasAuthParams(handler, requiredScopes)]; [params] is what
    [await routeContext.params] gives. *)
Definition withCanvasAuthParams {H P : Type}
           (handler : Request -> CanvasRequestContext -> P -> M H Response)
           (requiredScopes : RequiredScopes) (request : Request) (params : thrown + P)
           (now : Z)
  : M ((Auth.KeyTable * Storage) * H) HttpResponse :=
  fun st =>
    match gate (optionsOf requiredScopes) request now (fst st) with
    | (g, inl e) => ((g, snd st), inl e)
    | (g, inr (Blocked response)) => ((g, snd st), inr response)
    | (g, inr (Passed requestContext)) =>
        match params with
        | inl e => ((g, snd st), inl e)
        | inr p =>
            match handler request requestContext p (snd st) with
            | (h, inl e) => ((g, h), inl e)
            | (h, inr response) => ((g, h), inr (plain response))
            end
        end
    end.

End Wrapper.

End Middleware.

(* ===================================================================== *)
(** ** blocks/utils.ts *)
(* ===================================================================== *)

Module BlockUtils.

(** *** The block catalogue

    What the helpers read of a [BlockConfig]. *)

Record SubBlockConfig : Type := {
  subBlockId : string;
  required : option json
}.

Record ParamConfig : Type := {
  paramType : string;
  paramDescription : option string;
  paramSchema : option (list (string * json))
}.

(** [OutputFieldDefinition]: a type name, or a type with a description. *)
Inductive OutputFieldDefinition : Type :=
| OutputType (type : string)
| OutputField (type : string) (description : option string).

(** [inputs] and [outputs] are the entries of the two records, in the
    order of [Object.entries]. *)
Record BlockConfig : Type := {
  blockType : string;
  blockName : string;
  blockDescription : string;
  hideFromToolbar : bool;
  subBlocks : list SubBlockConfig;
  toolsAccess : list string;
  inputs : list (string * ParamConfig);
  outputs : list (string * OutputFieldDefinition);
  authMode : option string
}.

(** *** The type tables *)

Definition PARAM_TYPE_MAP : list (string * string) :=
  [("short_text", "string"); ("long_text", "string"); ("code", "string");
   ("json", "object"); ("checkbox", "boolean"); ("slider", "number");
   ("dropdown", "enum"); ("file_upload", "file"); ("table", "array");
   ("tool-input", "object"); ("file-selector", "file"); ("eval-input", "string")].

Definition OUTPUT_TYPE_MAP : list (string * string) :=
  [("string", "string"); ("number", "number"); ("boolean", "boolean");
   ("object", "object"); ("array", "array"); ("any", "any")].

Definition RFC_CATEGORY_KEYWORDS : list (string * list string) :=
  [("email",
    ["gmail"; "outlook"; "sendgrid"; "mailgun"; "mailchimp"; "smtp"; "ses"; "email"]);
   ("messaging",
    ["slack"; "discord"; "telegram"; "twilio"; "sms"; "whatsapp"; "teams";
     "mattermost"; "signal"; "messenger"]);
   ("ai",
    ["openai"; "anthropic"; "claude"; "gemini"; "vertex"; "mistral"; "groq";
     "ollama"; "llama"; "deepseek"; "xai"; "cohere"; "perplexity"; "huggingface"]);
   ("database",
    ["postgres"; "postgresql"; "mysql"; "mariadb"; "mongodb"; "mongo"; "supabase";
     "redis"; "dynamodb"; "rds"; "elasticsearch"; "pinecone"; "qdrant"; "weaviate";
     "milvus"; "neo4j"; "bigquery"; "snowflake"; "sqlite"]);
   ("crm",
    ["salesforce"; "hubspot"; "zendesk"; "pipedrive"; "intercom"; "zoho"; "freshdesk"]);
   ("payments",
    ["stripe"; "paypal"; "braintree"; "square"; "adyen"; "paystack"; "razorpay";
     "checkout"]);
   ("storage",
    ["s3"; "gcs"; "google_drive"; "drive"; "dropbox"; "box"; "onedrive";
     "sharepoint"; "sftp"; "ftp"; "storage"])].

(** The tables are object literals: a key they do not own is looked up
    on [Object.prototype], whose members are functions (and, for
    [__proto__], the prototype itself). *)
Definition OBJECT_PROTOTYPE_MEMBERS : list string :=
  ["constructor"; "__defineGetter__"; "__defineSetter__"; "hasOwnProperty";
   "__lookupGetter__"; "__lookupSetter__"; "isPrototypeOf"; "propertyIsEnumerable";
   "toString"; "valueOf"; "__proto__"; "toLocaleString"].

(** The result of a table lookup: a type name, or an inherited member. *)
Inductive TypeName : Type :=
| Named (name : string)
| Inherited (member : string).

Definition inherited (key : string) : bool :=
  existsb (String.eqb key) OBJECT_PROTOTYPE_MEMBERS.

(** [table[key]], [None] when it is [undefined]. *)
Definition tableLookup (table : list (string * string)) (key : string) : option TypeName :=
  match find (fun entry => String.eqb (fst entry) key) table with
  | Some entry => Some (Named (snd entry))
  | None => if inherited key then Some (Inherited key) else None
  end.

Definition mapParamType (type : string) : TypeName :=
  match tableLookup PARAM_TYPE_MAP type with
  | Some t => t
  | None => Named type
  end.

Definition mapOutputType (type : string) : TypeName :=
  match tableLookup OUTPUT_TYPE_MAP type with
  | Some t => t
  | None => Named "any"
  end.

(** The type as it is serialised: a function-valued property is left
    out, the prototype object is written as an empty object. *)
Definition typeJson (t : TypeName) : option json :=
  match t with
  | Named name => str name
  | Inherited member => if String.eqb member "__proto__" then Some (JObj []) else None
  end.

(** *** Required inputs *)

(** [subBlock.required === true] *)
Definition isAlwaysRequired (subBlock : SubBlockConfig) : bool :=
  match required subBlock with
  | Some (JBool true) => true
  | _ => false
  end.

(** [set.has(x)] and [set.add(x)] on a [Set], kept in insertion order. *)
Definition has (set : list string) (x : string) : bool := existsb (String.eqb x) set.

Definition add (set : list string) (x : string) : list string :=
  if has set x then set else set ++ [x].

Definition getRequiredInputs (block : BlockConfig) : list string :=
  fold_left
    (fun required subBlock =>
       if isAlwaysRequired subBlock then add required (subBlockId subBlock) else required)
    (subBlocks block) [].

(** [object[key] = value] on an object built from [{}]: the key
    [__proto__] sets the prototype and creates no property. *)
Definition setProperty (key : string) (value : json) (fields : list (string * json))
  : list (string * json) :=
  if String.eqb key "__proto__" then fields
  else if existsb (fun entry => String.eqb (fst entry) key) fields then
    map (fun entry => if String.eqb (fst entry) key then (key, value) else entry) fields
  else fields ++ [(key, value)].

(** *** Descriptors and schemas *)

Definition buildParamsDescriptor (block : BlockConfig) : list (string * json) :=
  let required := getRequiredInputs block in
  fold_left
    (fun params entry =>
       let name := fst entry in
       let config := snd entry in
       setProperty name
         (obj [("type", typeJson (mapParamType (paramType config)));
               ("required", boolean (has required name));
               ("description", optStr (paramDescription config))])
         params)
    (inputs block) [].

(** [...(description ? { description } : {})] *)
Definition describe (description : option string) : list (string * json) :=
  if present description then object [("description", optStr description)] else [].

Definition mapParamToSchema (config : ParamConfig) : json :=
  match paramSchema config with
  | Some schema => JObj (spread schema (describe (paramDescription config)))
  | None =>
      let type := paramType config in
      if String.eqb type "json" then
        JObj (spread (object [("type", str "object");
                              ("additionalProperties", boolean true)])
                     (describe (paramDescription config)))
      else if String.eqb type "array" then
        JObj (spread (object [("type", str "array"); ("items", Some (JObj []))])
                     (describe (paramDescription config)))
      else
        JObj (spread (object [("type", typeJson (mapParamType type))])
                     (describe (paramDescription config)))
  end.

(** The [properties] of [buildInputSchema]. *)
Definition inputProperties (block : BlockConfig) : list (string * json) :=
  fold_left
    (fun properties entry => setProperty (fst entry) (mapParamToSchema (snd entry)) properties)
    (inputs block) [].

Definition buildInputSchema (block : BlockConfig) : json :=
  let required := getRequiredInputs block in
  obj [("type", str "object");
       ("properties", Some (JObj (inputProperties block)));
       ("required",
        match required with
        | [] => None
        | _ => Some (JArr (map JStr required))
        end);
       ("additionalProperties", boolean false)].

Definition mapOutputToSchema (config : OutputFieldDefinition) : json :=
  match config with
  | OutputType type => obj [("type", typeJson (mapOutputType type))]
  | OutputField type description =>
      JObj (spread (object [("type", typeJson (mapOutputType type))]) (describe description))
  end.

(** The [properties] of [buildOutputSchema]. *)
Definition outputProperties (block : BlockConfig) : list (string * json) :=
  fold_left
    (fun properties entry =>
       if String.eqb (fst entry) "visualization" then properties
       else setProperty (fst entry) (mapOutputToSchema (snd entry)) properties)
    (outputs block) [].

Definition buildOutputSchema (block : BlockConfig) : json :=
  obj [("type", str "object");
       ("properties", Some (JObj (outputProperties block)));
       ("additionalProperties", boolean true)].

(** *** Credentials and categories *)

Definition getCredentialTypes (block : BlockConfig) : list string :=
  if negb (present (authMode block)) then []
  else
    match authMode block with
    | Some mode =>
        if String.eqb mode "oauth" then [(blockType block ++ "_oauth")%string]
        else if String.eqb mode "api_key" then [(blockType block ++ "_api_key")%string]
        else if String.eqb mode "bot_token" then [(blockType block ++ "_bot_token")%string]
        else []
    | None => []
    end.

(** [[type, name, description, ...tools.access].join(' ').toLowerCase()] *)
Definition searchSpace (block : BlockConfig) : string :=
  toLowerCase
    (join " " (blockType block :: blockName block :: blockDescription block
               :: toolsAccess block)).

(** [keywords.some((keyword) => searchSpace.includes(keyword))] *)
Definition mentions (space : string) (keywords : list string) : bool :=
  existsb (fun keyword => includes space keyword) keywords.

Definition mapBlockCategory (block : BlockConfig) : string :=
  match find (fun entry => mentions (searchSpace block) (snd entry)) RFC_CATEGORY_KEYWORDS with
  | Some entry => fst entry
  | None => "other"
  end.

End BlockUtils.

(* ===================================================================== *)
(** ** blocks/route.ts *)
(* ===================================================================== *)

Module Blocks.

(** What the handler takes from its surroundings: [Number.parseInt],
    the block registry (which may throw), [String.prototype.localeCompare]
    and [Array.prototype.sort]. *)
Record Env : Type := {
  parseInt : string -> Integral;
  getAllBlocks : thrown + list BlockUtils.BlockConfig;
  localeCompare : string -> string -> Z;
  sort : forall A : Type, (A -> A -> Z) -> list A -> list A
}.

(** A block with its mapped category. *)
Definition Entry : Type := (BlockUtils.BlockConfig * string)%type.

Definition transformBlockToCapability (block : BlockUtils.BlockConfig) (category : string)
  : json :=
  let credentialTypes := BlockUtils.getCredentialTypes block in
  let params := BlockUtils.buildParamsDescriptor block in
  obj [("type", str (BlockUtils.blockType block));
       ("version", str "1.0.0");
       ("name", str (BlockUtils.blockName block));
       ("description", str (BlockUtils.blockDescription block));
       ("category", str category);
       ("requiresCredentials", boolean (0 <? Z.of_nat (length credentialTypes)));
       ("credentialTypes",
        if 0 <? Z.of_nat (length credentialTypes)
        then Some (JArr (map JStr credentialTypes)) else None);
       ("params", Some (JObj params))].

(** The filter callback. *)
Definition listed (includeHidden : bool) (categoryFilter search : option string)
           (entry : Entry) : bool :=
  let block := fst entry in
  let category := snd entry in
  if (negb includeHidden && BlockUtils.hideFromToolbar block)%bool then false
  else if String.eqb (BlockUtils.blockType block) "starter" then false
  else if (present categoryFilter
           && negb (String.eqb (toLowerCase category)
                               (toLowerCase (match categoryFilter with
                                             | Some c => c
                                             | None => ""
                                             end))))%bool then false
  else if present search then
    let query := toLowerCase (match search with Some q => q | None => "" end) in
    (includes (toLowerCase (BlockUtils.blockName block)) query
     || includes (toLowerCase (BlockUtils.blockDescription block)) query
     || includes (toLowerCase (BlockUtils.blockType block)) query)%bool
  else true.

Section Handler.

Variable env : Env.

(** The comparator of the sort: by category, then by name. *)
Definition compareEntries (a b : Entry) : Z :=
  let catCompare := localeCompare env (snd a) (snd b) in
  if negb (catCompare =? 0) then catCompare
  else localeCompare env (BlockUtils.blockName (fst a)) (BlockUtils.blockName (fst b)).

(** [filteredBlocks], after the sort. *)
Definition filteredBlocks (get : string -> option string)
           (blocks : list BlockUtils.BlockConfig) : list Entry :=
  let categoryFilter := get "category" in
  let search := get "search" in
  let includeHidden :=
    match get "includeHidden" with
    | Some v => String.eqb v "true"
    | None => false
    end in
  let allBlocks := map (fun block => (block, BlockUtils.mapBlockCategory block)) blocks in
  sort env Entry compareEntries (filter (listed includeHidden categoryFilter search) allBlocks).

(** [filteredBlocks.slice(offset, offset + limit)] *)
Definition paginatedBlocks (get : string -> option string)
           (blocks : list BlockUtils.BlockConfig) : list Entry :=
  let p := Pagination.parsePaginationParams (parseInt env) get in
  slice (Pagination.offset p) (plus (Pagination.offset p) (Pagination.limit p))
        (filteredBlocks get blocks).

(** [GET]; [get] is [url.searchParams.get] of the request. *)
Definition GET (get : string -> option string) : Response :=
  let p := Pagination.parsePaginationParams (parseInt env) get in
  match getAllBlocks env with
  | inl _ => badRequestResponse "Failed to list blocks" None
  | inr blocks =>
      let capabilities :=
        map (fun entry => transformBlockToCapability (fst entry) (snd entry))
            (paginatedBlocks get blocks) in
      SuccessEnvelope 200
        (obj [("blocks", Some (JArr capabilities));
              ("total", num (Z.of_nat (length (filteredBlocks get blocks))));
              ("limit", Some (integralJson (Pagination.limit p)));
              ("offset", Some (integralJson (Pagination.offset p)))])
  end.

End Handler.

End Blocks.

(* ===================================================================== *)
(** ** blocks/[type]/schema/route.ts *)
(* ===================================================================== *)

Module BlockSchema.

(** The two lookups of the block registry. *)
Record Env : Type := {
  getBlock : string -> option BlockUtils.BlockConfig;
  getBlockByToolName : string -> option BlockUtils.BlockConfig
}.

Section Handler.

Variable env : Env.

(** [GET]; [type] is the route parameter. *)
Definition GET (type : string) : Response :=
  match (match getBlock env type with
         | Some block => Some block
         | None => getBlockByToolName env type
         end) with
  | None =>
      errorResponse "INVALID_BLOCK_TYPE" "Unknown block type" 400
                    (Some (obj [("blockType", str type)])) None
  | Some block =>
      let credentialTypes := BlockUtils.getCredentialTypes block in
      let category := BlockUtils.mapBlockCategory block in
      SuccessEnvelope 200
        (obj [("type", str (BlockUtils.blockType block));
              ("name", str (BlockUtils.blockName block));
              ("description", str (BlockUtils.blockDescription block));
              ("category", str category);
              ("version", str "1.0.0");
              ("requiresCredentials", boolean (0 <? Z.of_nat (length credentialTypes)));
              ("credentialTypes",
               if 0 <? Z.of_nat (length credentialTypes)
               then Some (JArr (map JStr credentialTypes)) else None);
              ("inputSchema", Some (BlockUtils.buildInputSchema block));
              ("outputSchema", Some (BlockUtils.buildOutputSchema block))])
  end.

End Handler.

End BlockSchema.

(* ===================================================================== *)
(** ** users/[canvasUserId]/route.ts *)
(* ===================================================================== *)

Module UserLookup.

Definition CANVAS_PROVIDER_ID : string := "canvas".

(** zod's [uuid()] check with the flattened field errors, and
    [Date.prototype.toISOString]. *)
Record Env : Type := {
  isUuid : string -> bool;
  fieldErrors : string -> json;
  toISOString : Z -> string
}.

(** [account inner join user on account.userId = user.id
     where accountId = canvasUserId and providerId = 'canvas' limit 1] *)
Fixpoint findAccountLink (canvasUserId : string) (us : list User) (accts : list Account)
  : option (Account * User) :=
  match accts with
  | [] => None
  | a :: rest =>
      if (String.eqb (accountId a) canvasUserId
          && String.eqb (providerId a) CANVAS_PROVIDER_ID)%bool then
        match find (fun u => String.eqb (accountUserId a) (userId u)) us with
        | Some u => Some (a, u)
        | None => findAccountLink canvasUserId us rest
        end
      else findAccountLink canvasUserId us rest
  end.

Section Handler.

Variable env : Env.

(** [GET]; [canvasUserId] is the route parameter. *)
Definition GET (canvasUserId : string) (d : Db) : Response :=
  if negb (isUuid env canvasUserId) then
    badRequestResponse "Invalid canvas user id" (Some (fieldErrors env canvasUserId))
  else
    match findAccountLink canvasUserId (users d) (accounts d) with
    | None =>
        errorResponse "USER_NOT_PROVISIONED" "Canvas user not linked to Sim Studio" 404
                      None None
    | Some (linkAccount, linkUser) =>
        let userWorkspace :=
          find (fun w => String.eqb (ownerId w) (userId linkUser)) (workspaces d) in
        singleResponse
          (obj [("canvasUserId", str canvasUserId);
                ("simUserId", str (userId linkUser));
                ("simWorkspaceId",
                 Some (match userWorkspace with
                       | Some w => JStr (workspaceId w)
                       | None => JNull
                       end));
                ("email", str (userEmail linkUser));
                ("name", str (userName linkUser));
                ("linkedAt", str (toISOString env (accountCreatedAt linkAccount)))])
          None
    end.

End Handler.

End UserLookup.

(* ===================================================================== *)
(** ** The specification's wording of two conditions *)
(* ===================================================================== *)

Module Stated.

(** *** Splitting a local part on delimiters *)

(** The delimiters ['.'], ['_'] and ['-']. *)
Definition delimiter (c : ascii) : bool :=
  (Ascii.eqb c "." || Ascii.eqb c "_" || Ascii.eqb c "-")%bool.

Fixpoint noDelimiter (s : string) : bool :=
  match s with
  | EmptyString => true
  | String c r => (negb (delimiter c) && noDelimiter r)%bool
  end.

Fixpoint allDelimiters (s : string) : bool :=
  match s with
  | EmptyString => true
  | String c r => (delimiter c && allDelimiters r)%bool
  end.

Definition startsWithDelimiter (s : string) : bool :=
  match s with
  | EmptyString => false
  | String c _ => delimiter c
  end.

(** [SplitAtDelimiters s segs]: [s] is the segments [segs], each free of
    delimiters, with a non-empty run of delimiters between neighbours;
    the runs are maximal. *)
Inductive SplitAtDelimiters : string -> list string -> Prop :=
| split_last : forall seg,
    noDelimiter seg = true ->
    SplitAtDelimiters seg [seg]
| split_run : forall seg run rest segs,
    noDelimiter seg = true ->
    run <> EmptyString ->
    allDelimiters run = true ->
    startsWithDelimiter rest = false ->
    SplitAtDelimiters rest segs ->
    SplitAtDelimiters (seg ++ run ++ rest) (seg :: segs).

(** The local part of an address: what precedes its first [@]. *)
Fixpoint noAt (s : string) : bool :=
  match s with
  | EmptyString => true
  | String c r => (negb (Ascii.eqb c "@") && noAt r)%bool
  end.

Definition LocalPart (email localPart : string) : Prop :=
  noAt localPart = true
  /\ (email = localPart \/ exists domain, email = (localPart ++ "@" ++ domain)%string).

(** *** An in-flight asynchronous job *)

(** The six markers the specification enumerates. *)
Definition STATED_MARKERS : list string :=
  ["queued"; "running"; "processing"; "pending"; "in_progress"; "started"].

(** "its status/state field (case-insensitively) matches one of the six
    enumerated markers, or a job/task identifier co-occurs with a
    human-readable message matching the async-sounding pattern" *)
Definition statedAsync (output : json) : bool :=
  (match Execute.getString (prop output "status" ?? prop output "state") with
   | Some s => existsb (String.eqb (toLowerCase s)) STATED_MARKERS
   | None => false
   end
   || match Execute.jobIdOf output, Execute.messageOfOutput output with
      | Some _, Some m => Execute.ASYNC_MESSAGE_PATTERN_test m
      | _, _ => false
      end)%bool.

(** *** Title case *)

(** "each segment title-cased": its first character in upper case, the
    others in lower case. *)
Definition titleCase (segment : string) : string :=
  match segment with
  | EmptyString => EmptyString
  | String c rest => String (toUpperChar c) (toLowerCase rest)
  end.

(** *** The async-sounding pattern *)

(** The words of the pattern. *)
Definition ASYNC_WORDS : list string :=
  ["async"; "asynchronous"; "queued"; "processing"; "running"; "pending"; "in progress"].

Fixpoint endsWithWordChar (s : string) : bool :=
  match s with
  | EmptyString => false
  | String c EmptyString => isWordChar c
  | String _ rest => endsWithWordChar rest
  end.

Definition beginsWithWordChar (s : string) : bool :=
  match s with
  | EmptyString => false
  | String c _ => isWordChar c
  end.

(** [message] holds one of the words, letter case apart, as a whole
    word: neither preceded nor followed by a letter, a digit or an
    underscore. *)
Definition MatchesAsyncPattern (message : string) : Prop :=
  exists before word after : string,
    message = (before ++ word ++ after)%string
    /\ In (toLowerCase word) ASYNC_WORDS
    /\ endsWithWordChar before = false
    /\ beginsWithWordChar after = false.

End Stated.

(* ===================================================================== *)
(** ** Concrete surroundings used to run the handlers *)
(* ===================================================================== *)

Module Demo.

(** A stand-in for SHA-256 and a [JSON.parse] that always throws. *)
Definition hashKey (key : string) : string := "sha256:" ++ key.
Definition JSON_parse (_ : string) : option json := None.

(** The inactive key of auth.test.ts. *)
Definition inactiveKey : Auth.KeyRecord :=
  {| Auth.recId := "key-id";
     Auth.keyHash := hashKey "sim_svc_inactive";
     Auth.recKeyPrefix := "sim_svc_inactive";
     Auth.recServiceName := "canvas";
     Auth.permissions := JArr [JStr "blocks:execute"];
     Auth.recRateLimitPerMinute := None;
     Auth.recRateLimitPerDay := None;
     Auth.isActive := false;
     Auth.expiresAt := None;
     Auth.lastUsedAt := None;
     Auth.recMetadata := Some (JObj []) |}.

(** A request context as the middleware tests build it. *)
Definition serviceContext : CanvasRequestContext :=
  {| serviceName := "canvas"; keyId := "key-id"; keyPrefix := "sim_svc_";
     scopes := ["blocks:execute"]; rateLimitPerMinute := None;
     rateLimitPerDay := None; metadata := JObj [];
     canvasUserId := Some "11111111-1111-1111-1111-111111111111";
     canvasWorkspaceId := Some "22222222-2222-2222-2222-222222222222";
     requestId := Some "req-id"; idempotencyKey := Some "idem-key";
     ipAddress := Some "127.0.0.1"; userAgent := Some "vitest" |}.

(** A token-bucket storage whose per-day service bucket is broken: the
    state counts the calls, [consumeTokens] throws on keys ending in
    [":day"] and allows everything else. *)
Definition brokenDayStorage (key : string) (_ : Z) (_ : RateLimit.TokenBucketConfig)
  : M nat RateLimit.RateLimitCheckResult :=
  fun n =>
    if includes key ":day" then (S n, inl (ErrorObj "storage unavailable"))
    else (S n, inr {| RateLimit.allowed := true; RateLimit.retryAfterMs := None |}).

(** *** The execute handler *)

Definition decimal (z : Z) : string := NilZero.string_of_int (Z.to_int z).

(** The Gmail block of route.test.ts. *)
Definition gmail : Execute.BlockConfig :=
  {| Execute.configType := "gmail";
     Execute.toolsAccess := ["gmail_send"];
     Execute.toolSelector := None |}.

(** A tool engine that plays a script: each call settles the way the
    head of the script says; once the script is over, calls stay pending. *)
Definition scriptedTool (script : list Execute.Settlement) (_ : string) (_ : json)
           (_ : ExecutionContext) : list Execute.Settlement * Execute.Settlement :=
  match script with
  | [] => ([], Execute.Pending)
  | settlement :: rest => (rest, settlement)
  end.

Definition env : Execute.Env (list Execute.Settlement) :=
  {| Execute.uuids := fun n => ("uuid-" ++ decimal (Z.of_nat n))%string;
     Execute.toISOString := fun t => ("t" ++ decimal t)%string;
     Execute.numberToString := fun _ => "0";
     Execute.parseNumber := fun _ => None;
     Execute.fieldErrors := fun _ => JObj [];
     Execute.getBlock := fun t => if String.eqb t "gmail" then Some gmail else None;
     Execute.getBlockByToolName := fun _ => None;
     Execute.applyBlockTransforms := fun _ p => p;
     Execute.redactApiKeys := fun p => p;
     Execute.executeTool := scriptedTool |}.

(** A database in which the Canvas user of [serviceContext] is linked to
    a Sim user who owns a workspace. *)
Definition provisionedDb : Db :=
  {| users := [{| userId := "sim-user-id"; userName := "Existing User";
                  userEmail := "existing@example.com"; emailVerified := true;
                  userCreatedAt := 0 |}];
     accounts := [{| linkId := "link-id";
                     accountId := "11111111-1111-1111-1111-111111111111";
                     providerId := "canvas"; accountUserId := "sim-user-id";
                     scope := "{}"; accountCreatedAt := 0 |}];
     userStats := [];
     workspaces := [{| workspaceId := "workspace-id"; workspaceName := "Existing's Workspace";
                       ownerId := "sim-user-id"; billedAccountUserId := "sim-user-id";
                       allowPersonalApiKeys := true; workspaceCreatedAt := 0 |}];
     permissions := []; workflows := []; workflowStates := [];
     executionLogs := [] |}.

Definition startingWith (script : list Execute.Settlement) : State (list Execute.Settlement) :=
  {| db := provisionedDb; entropy := 0; clock := 0; world := script; calls := [] |}.

(** [{ blockType: 'gmail', params: { to: 'test@example.com' },
       context: { executionId }, options: { timeout, retryOnFailure } }] *)
Definition gmailRequest (executionId : option string) (timeoutMs : Z) (retry : bool)
  : Execute.ExecuteRequest :=
  {| Execute.reqBlockType := "gmail";
     Execute.params := Some (JObj [("to", JStr "test@example.com")]);
     Execute.inputs := None;
     Execute.reqBlockVersion := None;
     Execute.context :=
       Some {| Execute.reqWorkflowId := None; Execute.reqExecutionId := executionId;
               Execute.reqNodeId := None |};
     Execute.options :=
       Some {| Execute.timeout := Some timeoutMs;
               Execute.retryOnFailure := Some retry |} |}.

Definition failure (message : string) : Execute.ToolResult :=
  {| Execute.success := false; Execute.output := None; Execute.error := Some message |}.

Definition sent : Execute.ToolResult :=
  {| Execute.success := true;
     Execute.output := Some (JObj [("messageId", JStr "msg-1")]);
     Execute.error := None |}.

(** The execution context and inputs the handler builds for
    [gmailRequest (Some "exec-1")]. *)
Definition gmailContext : ExecutionContext :=
  Execute.buildCanvasExecutionContext "exec-1" "workspace-id" "sim-user-id" None.

(** A stored execution that ended in failure. *)
Definition failedLog : ExecutionLog :=
  {| logId := "log-1"; logWorkflowId := None; logWorkspaceId := "workspace-id";
     executionId := "exec-1"; level := "error"; trigger := "api";
     startedAt := 0; endedAt := Some 1000; totalDurationMs := Some 1000;
     executionData :=
       obj [("request", Some (obj [("blockType", str "gmail")]));
            ("response",
             Some (obj [("blockType", str "gmail"); ("output", Some (JObj []));
                        ("error", str "EXECUTION_TIMEOUT"); ("success", boolean false);
                        ("status", str "failed")]));
            ("status", str "failed")];
     blockType := "gmail"; blockVersion := None; callerId := "canvas";
     callerUserId := "11111111-1111-1111-1111-111111111111";
     callerWorkspaceId := None; callerWorkflowId := None; callerNodeId := None;
     apiCallsMade := None; creditsConsumed := None |}.

(** A request for execution ["exec-1"], timeout 1000 ms, no retry,
    against a tool that never settles. *)
Definition timedOutRun : State (list Execute.Settlement) * (thrown + Response) :=
  Execute.POST env serviceContext
               (Execute.Decoded (gmailRequest (Some "exec-1") 1000 false))
               (startingWith []).

(** One request with auto-retry whose first attempt reports a failure. *)
Definition retriedRequest : Execute.Request :=
  {| Execute.idleMs := 0;
     Execute.requestContext := serviceContext;
     Execute.requestBody := Execute.Decoded (gmailRequest (Some "exec-1") 30000 true) |}.

(** A request that names no execution id and relies on the
    idempotency key ["idem-key"] of [serviceContext]. *)
Definition keyedRequest : Execute.ExecuteRequest :=
  gmailRequest None 30000 false.

(** Scenario D of the specification: the tool answers with a job that
    is still running. *)
Definition jobStarted : Execute.ToolResult :=
  {| Execute.success := true;
     Execute.output :=
       Some (JObj [("status", JStr "running"); ("jobId", JStr "j1");
                   ("message", JStr "processing")]);
     Execute.error := None |}.

(** The execution stage of [gmailRequest (Some "exec-1")] for that tool. *)
Definition jobStage
  : Execute.Frame (W := list Execute.Settlement) * (thrown + Response) :=
  Execute.executeStage env serviceContext (gmailRequest (Some "exec-1") 30000 false) 0
    "11111111-1111-1111-1111-111111111111" "exec-1" "req-id" gmail "gmail_send"
    (JObj [("to", JStr "test@example.com")]) "sim-user-id" "workspace-id"
    (startingWith [Execute.Resolves 10 jobStarted],
     Execute.setExecutionId "exec-1" Execute.initialLocals).

Definition jobResponse : Response :=
  match snd jobStage with
  | inr response => response
  | inl _ => internalErrorResponse ""
  end.

(** The state after [timedOutRun], and the row it left for ["exec-1"]. *)
Definition afterTimeout : State (list Execute.Settlement) := fst timedOutRun.

Definition timedOutRow : ExecutionLog :=
  match Execute.findExistingExecution "exec-1" (db afterTimeout) with
  | Some row => row
  | None => failedLog
  end.

(** The state after a first keyed request that succeeded, and the row it
    left under the idempotency key. *)
Definition afterKeyed : State (list Execute.Settlement) :=
  fst (Execute.POST env serviceContext (Execute.Decoded keyedRequest)
                    (startingWith [Execute.Resolves 10 sent])).

Definition keyedRow : ExecutionLog :=
  match Execute.findExistingExecution "idem-key" (db afterKeyed) with
  | Some row => row
  | None => failedLog
  end.

(** *** The provisioning handler *)

Definition provisionEnv : Provision.Env :=
  {| Provision.uuids := fun n => ("uuid-" ++ decimal (Z.of_nat n))%string;
     Provision.toISOString := fun t => ("t" ++ decimal t)%string;
     Provision.JSON_stringify := fun _ => "{}";
     Provision.isUuid := fun s => Nat.eqb (String.length s) 36;
     Provision.isEmail := fun s => includes s "@";
     Provision.fieldErrors := fun _ => JObj [];
     Provision.defaultWorkflowState := JObj [];
     Provision.saveWorkflowFails := fun _ => false |}.

(** Scenario A of the specification. *)
Definition newUser : Provision.UserProvisioningRequest :=
  {| Provision.reqCanvasUserId := "11111111-1111-1111-1111-111111111111";
     Provision.reqEmail := "new@example.com";
     Provision.reqName := Some "New User";
     Provision.reqWorkspaceId := None;
     Provision.reqMetadata := None |}.

Definition freshStore : State unit :=
  {| db := emptyDb; entropy := 0; clock := 0; world := tt; calls := [] |}.

Definition firstProvisioning : State unit * (thrown + Response) :=
  Provision.POST provisionEnv serviceContext (Provision.Decoded newUser) freshStore.

Definition firstPayload : json :=
  match snd firstProvisioning with
  | inr (SuccessEnvelope _ payload) => payload
  | _ => JNull
  end.

(** *** The key table and the middleware *)

(** The valid key of auth.test.ts. *)
Definition validKey : Auth.KeyRecord :=
  {| Auth.recId := "key-valid";
     Auth.keyHash := hashKey "sim_svc_valid";
     Auth.recKeyPrefix := "sim_svc_valid";
     Auth.recServiceName := "canvas";
     Auth.permissions := JArr [JStr "blocks:execute"; JStr "users:provision"];
     Auth.recRateLimitPerMinute := Some 1000;
     Auth.recRateLimitPerDay := Some 100000;
     Auth.isActive := true;
     Auth.expiresAt := None;
     Auth.lastUsedAt := None;
     Auth.recMetadata := Some (JObj []) |}.

(** A key that was given a scope of its owner's invention. *)
Definition overreachingKey : Auth.KeyRecord :=
  {| Auth.recId := "key-2";
     Auth.keyHash := hashKey "sim_svc_overreaching";
     Auth.recKeyPrefix := "sim_svc_overreach";
     Auth.recServiceName := "canvas";
     Auth.permissions := JArr [JStr "blocks:execute"; JStr "admin:all"];
     Auth.recRateLimitPerMinute := None;
     Auth.recRateLimitPerDay := None;
     Auth.isActive := true;
     Auth.expiresAt := None;
     Auth.lastUsedAt := None;
     Auth.recMetadata := Some (JObj []) |}.

Definition keyTable : Auth.KeyTable :=
  Auth.Rows [inactiveKey; validKey; overreachingKey].

(** A request that presents [key] for the Canvas user of [serviceContext]. *)
Definition requestWith (key : string) : Middleware.Request :=
  {| Middleware.xServiceKey := Some key;
     Middleware.xCanvasUserId := Some "11111111-1111-1111-1111-111111111111";
     Middleware.xCanvasWorkspaceId := None;
     Middleware.xRequestId := Some "req-id";
     Middleware.xIdempotencyKey := None;
     Middleware.xForwardedFor := Some "127.0.0.1";
     Middleware.xRealIp := None;
     Middleware.userAgentHeader := Some "vitest";
     Middleware.requestIp := None |}.

(** The surroundings of the middleware, with the storage whose per-day
    bucket is broken and no allowlist. *)
Definition middlewareEnv : Middleware.Env nat :=
  {| Middleware.hashKey := hashKey;
     Middleware.JSON_parse := JSON_parse;
     Middleware.isUuid := fun s => Nat.eqb (String.length s) 36;
     Middleware.fieldErrors := fun _ => JObj [];
     Middleware.allowlistVariable := None;
     Middleware.consumeTokens := brokenDayStorage |}.

(** A storage that allows every call and counts them, and the
    surroundings of the middleware with it. *)
Definition allowingStorage (_ : string) (_ : Z) (_ : RateLimit.TokenBucketConfig)
  : M nat RateLimit.RateLimitCheckResult :=
  fun n => (S n, inr {| RateLimit.allowed := true; RateLimit.retryAfterMs := None |}).

Definition openEnv : Middleware.Env nat :=
  {| Middleware.hashKey := hashKey;
     Middleware.JSON_parse := JSON_parse;
     Middleware.isUuid := fun s => Nat.eqb (String.length s) 36;
     Middleware.fieldErrors := fun _ => JObj [];
     Middleware.allowlistVariable := Some "10.0.0.1, 127.0.0.1";
     Middleware.consumeTokens := allowingStorage |}.

(** The options of the execute route. *)
Definition executeOptions : Middleware.CanvasAuthOptions :=
  {| Middleware.optionScopes := Some ["blocks:execute"];
     Middleware.requireUserContext := Some true;
     Middleware.requireWorkspaceContext := None |}.

(** The valid key passing the gate of the execute route, and the
    context handed to the handler. *)
Definition admittedGate : (Auth.KeyTable * nat) * (thrown + Middleware.Verdict) :=
  Middleware.gate openEnv executeOptions (requestWith "sim_svc_valid") 5 (keyTable, 0%nat).

Definition admittedContext : CanvasRequestContext :=
  match snd admittedGate with
  | inr (Middleware.Passed requestContext) => requestContext
  | _ => serviceContext
  end.

(** What the authenticator makes of the valid key. *)
Definition validAuth : Auth.CanvasAuthResult * Auth.KeyTable :=
  Auth.authenticateCanvasRequest hashKey JSON_parse (Some "sim_svc_valid")
                                 (Some ["blocks:execute"]) 5 keyTable.

Definition validContext : CanvasRequestContext :=
  match fst validAuth with
  | Auth.Authenticated context => context
  | Auth.Rejected _ _ => serviceContext
  end.

(** What the authenticator makes of the overreaching key. *)
Definition overreachingAuth : Auth.CanvasAuthResult * Auth.KeyTable :=
  Auth.authenticateCanvasRequest hashKey JSON_parse (Some "sim_svc_overreaching")
                                 (Some ["blocks:execute"]) 5 keyTable.

Definition overreachingContext : CanvasRequestContext :=
  match fst overreachingAuth with
  | Auth.Authenticated context => context
  | Auth.Rejected _ _ => serviceContext
  end.

(** The valid key checked against a storage that breaks. *)
Definition brokenGate : (Auth.KeyTable * (nat * bool)) * (thrown + Middleware.Verdict) :=
  Middleware.gate (Middleware.observing middlewareEnv) executeOptions
                  (requestWith "sim_svc_valid") 5 (keyTable, (0%nat, false)).

(** A handler that answers 204 and counts its runs. *)
Definition countingHandler (_ : Middleware.Request) (_ : CanvasRequestContext)
  : M nat Response :=
  fun n => (S n, inr (SuccessEnvelope 204 JNull)).

(** A context whose key has both limits set to zero. *)
Definition unlimitedContext : CanvasRequestContext :=
  {| serviceName := "canvas"; keyId := "key-id"; keyPrefix := "sim_svc_";
     scopes := ["blocks:execute"]; rateLimitPerMinute := Some 0;
     rateLimitPerDay := Some 0; metadata := JObj [];
     canvasUserId := Some "11111111-1111-1111-1111-111111111111";
     canvasWorkspaceId := None; requestId := None; idempotencyKey := None;
     ipAddress := None; userAgent := None |}.

(** *** The block catalogue *)

(** [Number.parseInt(s, 10)] on strings whose digits give an integer
    that a double holds exactly. *)
Fixpoint digitsValue (seen : option Z) (s : string) : option Z :=
  match s with
  | String c r =>
      if isDigit c then
        digitsValue (Some (10 * match seen with Some v => v | None => 0 end
                           + Z.of_nat (code c - 48))) r
      else seen
  | EmptyString => seen
  end.

Definition parseInt (s : string) : Integral :=
  let digits (r : string) (sign : Z) : Integral :=
    match digitsValue None r with
    | Some v => Finite (sign * v)
    | None => NaN
    end in
  match trimStart s with
  | String "-" r => digits r (-1)
  | String "+" r => digits r 1
  | r => digits r 1
  end.




(** The blocks of blocks/route.test.ts. *)
Definition buildBlock (type name description authMode : string) : BlockUtils.BlockConfig :=
  {| BlockUtils.blockType := type;
     BlockUtils.blockName := name;
     BlockUtils.blockDescription := description;
     BlockUtils.hideFromToolbar := false;
     BlockUtils.subBlocks :=
       [{| BlockUtils.subBlockId := "to"; BlockUtils.required := Some (JBool true) |}];
     BlockUtils.toolsAccess := [(type ++ "_tool")%string];
     BlockUtils.inputs :=
       [("to", {| BlockUtils.paramType := "short_text";
                  BlockUtils.paramDescription := Some "Recipient";
                  BlockUtils.paramSchema := None |})];
     BlockUtils.outputs := [("messageId", BlockUtils.OutputType "string")];
     BlockUtils.authMode := Some authMode |}.

Definition gmailBlock : BlockUtils.BlockConfig :=
  buildBlock "gmail" "Gmail" "Send email via Gmail" "oauth".




(** *** Jobs and completed executions *)

(** The output of a tool whose job is 40 per cent done. *)
Definition jobOutput : json :=
  JObj [("status", JStr "running"); ("progress", JNum (inject_Z 40))].

Definition detectedJob : Execute.AsyncExecution :=
  match Execute.detectAsyncExecution (fun _ => None) (Some jobOutput) with
  | Some asyncExecution => asyncExecution
  | None => {| Execute.progress := None; Execute.currentStep := None;
               Execute.estimatedCompletionMs := None |}
  end.

Definition jobProgress : Q :=
  match Execute.progress detectedJob with
  | Some p => p
  | None => 0%Q
  end.


(** The keyed request answered by a tool that succeeds, and its payload. *)
Definition keyedRun : State (list Execute.Settlement) * (thrown + Response) :=
  Execute.POST env serviceContext (Execute.Decoded keyedRequest)
               (startingWith [Execute.Resolves 10 sent]).

Definition keyedPayload : json :=
  match snd keyedRun with
  | inr (SuccessEnvelope _ payload) => payload
  | _ => JNull
  end.


(** A request with auto-retry whose first attempt reports a failure and
    whose later attempts never settle. *)
Definition stalledRetry : Execute.ExecuteRequest := gmailRequest (Some "exec-1") 1000 true.

Definition stalledStart : State (list Execute.Settlement) :=
  startingWith [Execute.Resolves 10 (failure "boom")].

Definition stalledRun : State (list Execute.Settlement) * (thrown + Response) :=
  Execute.POST env serviceContext (Execute.Decoded stalledRetry) stalledStart.


(** The state in which the tool run of scenario D ends. *)
Definition jobToolState : State (list Execute.Settlement) :=
  fst (Execute.toolRun env serviceContext (gmailRequest (Some "exec-1") 30000 false)
         "11111111-1111-1111-1111-111111111111" "exec-1" "req-id" gmail "gmail_send"
         (JObj [("to", JStr "test@example.com")]) "sim-user-id" "workspace-id"
         (startingWith [Execute.Resolves 10 jobStarted])).

(** The state after the timed-out request for ["exec-1"] and a keyed
    request: it holds a row under ["exec-1"] and one under ["idem-key"]. *)
Definition afterBoth : State (list Execute.Settlement) :=
  fst (Execute.POST env serviceContext (Execute.Decoded keyedRequest) afterTimeout).

Definition keyedRowOfBoth : ExecutionLog :=
  match Execute.findExistingExecution "idem-key" (db afterBoth) with
  | Some row => row
  | None => failedLog
  end.

(** *** The user lookup *)

Definition lookupEnv : UserLookup.Env :=
  {| UserLookup.isUuid := fun s => Nat.eqb (String.length s) 36;
     UserLookup.fieldErrors := fun _ => JObj [];
     UserLookup.toISOString := fun t => ("t" ++ decimal t)%string |}.

End Demo.

(* ===================================================================== *)
(** * Properties *)
(* ===================================================================== *)

(** ** Authentication *)

Section AuthFacts.

Variable hashKey : string -> string.
Variable JSON_parse : string -> option json.

Lemma prefixed_key_present :
  forall key, startsWith key Auth.SERVICE_KEY_PREFIX = true -> present (Some key) = true.
Proof.
  intros key H. destruct key as [|c key]; [discriminate H | reflexivity].
Qed.

(** C4.  A stored key record that is inactive is answered with
    [INACTIVE_KEY] whatever scopes the endpoint requires and whatever the
    key grants or when it expires: the active check comes before the
    expiry and scope checks, so such a key is never reported as
    [INSUFFICIENT_SCOPE].  The key table is left untouched. *)
Theorem inactive_key_reported_as_inactive :
  forall (key : string) (requiredScopes : option (list string)) (now : Z)
         (rows : list Auth.KeyRecord) (keyRecord : Auth.KeyRecord),
    startsWith key Auth.SERVICE_KEY_PREFIX = true ->
    Auth.findKey (hashKey key) rows = Some keyRecord ->
    Auth.isActive keyRecord = false ->
    Auth.authenticateCanvasRequest hashKey JSON_parse (Some key) requiredScopes now
                                   (Auth.Rows rows)
    = (Auth.Rejected "Service API key is inactive" Auth.INACTIVE_KEY, Auth.Rows rows).
Proof.
  intros key requiredScopes now rows keyRecord Hprefix Hfind Hinactive.
  unfold Auth.authenticateCanvasRequest.
  rewrite (prefixed_key_present key Hprefix). cbn [negb].
  rewrite Hprefix. cbn [negb].
  rewrite Hfind, Hinactive. reflexivity.
Qed.

End AuthFacts.

(** The inactive key of the test suite, asked for a scope it does not
    grant, is reported inactive. *)
Lemma inactive_key_reported_as_inactive_witness :
  Auth.authenticateCanvasRequest Demo.hashKey Demo.JSON_parse (Some "sim_svc_inactive")
                                 (Some ["blocks:list"]) 1700000000000
                                 (Auth.Rows [Demo.inactiveKey])
  = (Auth.Rejected "Service API key is inactive" Auth.INACTIVE_KEY,
     Auth.Rows [Demo.inactiveKey]).
Proof.
  apply (inactive_key_reported_as_inactive Demo.hashKey Demo.JSON_parse
           "sim_svc_inactive" (Some ["blocks:list"]) 1700000000000
           [Demo.inactiveKey] Demo.inactiveKey);
    reflexivity.
Defined.

(** ** Rate limiting *)

Section RateLimitFacts.

Variable Storage : Type.
Variable consumeTokens :
  string -> Z -> RateLimit.TokenBucketConfig -> M Storage RateLimit.RateLimitCheckResult.

Lemma consume_observed :
  forall key limit interval s flag,
    match RateLimit.consume (RateLimit.observed consumeTokens) key limit interval
                            (s, flag) with
    | ((_, flag'), inl _) => flag' = true
    | ((_, flag'), inr _) => flag' = flag
    end.
Proof.
  intros key limit interval s flag.
  unfold RateLimit.consume. destruct (limit <=? 0); [reflexivity|].
  unfold bind, RateLimit.observed; cbn [fst snd].
  destruct (consumeTokens key 1 (RateLimit.buildConfig limit interval) s) as [s' [e|r]].
  - reflexivity.
  - destruct (RateLimit.allowed r); reflexivity.
Qed.

Lemma checkBuckets_observed :
  forall context s,
    match RateLimit.checkBuckets (RateLimit.observed consumeTokens) context (s, false) with
    | ((_, flag'), inl _) => flag' = true
    | ((_, flag'), inr _) => flag' = false
    end.
Proof.
  intros context s. unfold RateLimit.checkBuckets.
  set (serviceKey := ("svc:" ++ serviceName context ++ ":" ++ keyPrefix context)%string).
  set (perMinute := match rateLimitPerMinute context with Some n => n | None => 1000 end).
  set (perDay := match rateLimitPerDay context with Some n => n | None => 100000 end).
  set (storage := RateLimit.observed consumeTokens).
  unfold bind at 1.
  pose proof (consume_observed serviceKey perMinute RateLimit.MINUTE_MS s false) as H1.
  fold storage in H1.
  destruct (RateLimit.consume storage serviceKey perMinute RateLimit.MINUTE_MS (s, false))
    as [[s1 f1] [e|r1]]; [exact H1|]. subst f1.
  destruct (RateLimit.allowed r1); cbn [negb]; [|reflexivity].
  unfold bind at 1.
  pose proof (consume_observed (serviceKey ++ ":day")%string perDay RateLimit.DAY_MS
                               s1 false) as H2.
  fold storage in H2.
  destruct (RateLimit.consume storage (serviceKey ++ ":day")%string perDay
                              RateLimit.DAY_MS (s1, false))
    as [[s2 f2] [e|r2]]; [exact H2|]. subst f2.
  destruct (RateLimit.allowed r2); cbn [negb]; [|reflexivity].
  destruct (present (canvasUserId context)); [|reflexivity].
  destruct (canvasUserId context) as [u|]; [|reflexivity].
  set (userKey := (serviceKey ++ ":user:" ++ u)%string).
  unfold bind at 1.
  pose proof (consume_observed userKey perMinute RateLimit.MINUTE_MS s2 false) as H3.
  fold storage in H3.
  destruct (RateLimit.consume storage userKey perMinute RateLimit.MINUTE_MS (s2, false))
    as [[s3 f3] [e|r3]]; [exact H3|]. subst f3.
  destruct (RateLimit.allowed r3); cbn [negb]; [|reflexivity].
  unfold bind at 1.
  pose proof (consume_observed (userKey ++ ":day")%string perDay RateLimit.DAY_MS
                               s3 false) as H4.
  fold storage in H4.
  destruct (RateLimit.consume storage (userKey ++ ":day")%string perDay
                              RateLimit.DAY_MS (s3, false))
    as [[s4 f4] [e|r4]]; [exact H4|]. subst f4.
  destruct (RateLimit.allowed r4); reflexivity.
Qed.

(** C5.  The rate limiter fails closed: when one of the [consumeTokens]
    calls made for its bucket checks throws, [enforceCanvasRateLimit]
    answers not-allowed with a retry hint of exactly 60000 ms. *)
Theorem rate_limiter_fails_closed :
  forall (context : CanvasRequestContext) (s : Storage),
    RateLimit.storageThrew
      (RateLimit.enforceCanvasRateLimit (RateLimit.observed consumeTokens) context (s, false))
    = true ->
    snd (RateLimit.enforceCanvasRateLimit (RateLimit.observed consumeTokens) context (s, false))
    = inr RateLimit.failClosed.
Proof.
  intros context s.
  unfold RateLimit.storageThrew, RateLimit.enforceCanvasRateLimit, tryCatch.
  pose proof (checkBuckets_observed context s) as Hobs.
  destruct (RateLimit.checkBuckets (RateLimit.observed consumeTokens) context (s, false))
    as [[s1 f1] [e|r]]; cbn [fst snd ret].
  - reflexivity.
  - intros Hflag. congruence.
Qed.

End RateLimitFacts.

(** With a storage whose per-day bucket throws, the request is refused
    for one minute. *)
Lemma rate_limiter_fails_closed_witness :
  snd (RateLimit.enforceCanvasRateLimit (RateLimit.observed Demo.brokenDayStorage)
                                        Demo.serviceContext (0%nat, false))
  = inr RateLimit.failClosed.
Proof.
  apply (rate_limiter_fails_closed nat Demo.brokenDayStorage Demo.serviceContext 0%nat).
  reflexivity.
Defined.

(** ** Deriving a display name *)

Lemma splitHead_local_part :
  forall email, Stated.LocalPart email (splitHead "@" email).
Proof.
  induction email as [|c r [IHno IHeq]]; unfold Stated.LocalPart; cbn.
  - split; [reflexivity | left; reflexivity].
  - destruct (Ascii.eqb c "@") eqn:Hc; cbn.
    + apply Ascii.eqb_eq in Hc. subst c.
      split; [reflexivity | right; exists r; reflexivity].
    + rewrite Hc. cbn. split; [exact IHno|].
      destruct IHeq as [Heq | [domain Heq]].
      * left. rewrite <- Heq. reflexivity.
      * right. exists domain. rewrite Heq at 1. reflexivity.
Qed.

(** The delimiters of the documentation are those of the code. *)
Lemma delimiter_agrees :
  forall c, Provision.isDelimiter c = Stated.delimiter c.
Proof. reflexivity. Qed.

Lemma startsWithDelimiter_agrees :
  forall s, Provision.startsWithDelimiter s = Stated.startsWithDelimiter s.
Proof. intros [|c r]; reflexivity. Qed.

Lemma splitDelimiters_not_nil :
  forall s, Provision.splitDelimiters s <> [].
Proof.
  induction s as [|c r IH]; cbn; [discriminate|].
  destruct (Provision.isDelimiter c).
  - destruct (Provision.startsWithDelimiter r); [exact IH | discriminate].
  - destruct (Provision.splitDelimiters r); discriminate.
Qed.

Lemma noDelimiter_starts :
  forall s, Stated.noDelimiter s = true -> Stated.startsWithDelimiter s = false.
Proof.
  intros [|c r]; cbn; [reflexivity|].
  destruct (Stated.delimiter c); [discriminate | reflexivity].
Qed.

(** A string that starts with a delimiter splits into an empty first
    segment, a run and the rest. *)
Lemma split_leading_run :
  forall s segs,
    Stated.SplitAtDelimiters s segs ->
    Stated.startsWithDelimiter s = true ->
    exists run rest segs',
      s = (run ++ rest)%string /\ segs = EmptyString :: segs'
      /\ run <> EmptyString /\ Stated.allDelimiters run = true
      /\ Stated.startsWithDelimiter rest = false
      /\ Stated.SplitAtDelimiters rest segs'.
Proof.
  intros s segs Hsplit Hstart.
  destruct Hsplit as [seg Hseg | seg run rest segs' Hseg Hne Hall Hrest Hsplit].
  - rewrite (noDelimiter_starts seg Hseg) in Hstart. discriminate.
  - destruct seg as [|c seg].
    + exists run, rest, segs'. repeat split; assumption.
    + cbn in Hseg, Hstart. rewrite Hstart in Hseg. discriminate.
Qed.

Lemma splitDelimiters_splits :
  forall s, Stated.SplitAtDelimiters s (Provision.splitDelimiters s).
Proof.
  induction s as [|c r IH]; cbn.
  - apply Stated.split_last. reflexivity.
  - rewrite delimiter_agrees, startsWithDelimiter_agrees.
    destruct (Stated.delimiter c) eqn:Hc.
    + destruct (Stated.startsWithDelimiter r) eqn:Hr.
      * destruct (split_leading_run r _ IH Hr)
          as (run & rest & segs' & Hs & Hsegs & Hne & Hall & Hrest & Hsplit).
        rewrite Hsegs, Hs.
        apply (Stated.split_run EmptyString (String c run) rest segs'); auto.
        -- discriminate.
        -- cbn. rewrite Hc, Hall. reflexivity.
      * apply (Stated.split_run EmptyString (String c EmptyString) r); auto.
        -- discriminate.
        -- cbn. rewrite Hc. reflexivity.
    + destruct (Provision.splitDelimiters r) as [|seg segs] eqn:E.
      * exfalso. exact (splitDelimiters_not_nil r E).
      * inversion IH as [seg' Hseg | seg' run rest segs' Hseg Hne Hall Hrest Hsplit]; subst.
        -- apply Stated.split_last. cbn. rewrite Hc, Hseg. reflexivity.
        -- apply (Stated.split_run (String c seg) run rest segs); auto.
           cbn. rewrite Hc, Hseg. reflexivity.
Qed.

Lemma splitHead_noAt :
  forall l rest, Stated.noAt l = true ->
    splitHead "@" l = l /\ splitHead "@" (l ++ "@" ++ rest) = l.
Proof.
  induction l as [|c l IH]; intros rest Hno; cbn in *.
  - split; reflexivity.
  - destruct (Ascii.eqb c "@"); cbn in Hno; [discriminate|].
    destruct (IH rest Hno) as [H1 H2]. rewrite H1, H2. split; reflexivity.
Qed.

Lemma local_part_unique :
  forall email localPart,
    Stated.LocalPart email localPart -> localPart = splitHead "@" email.
Proof.
  intros email localPart [Hno [Heq | [domain Heq]]]; subst email; symmetry.
  - apply (splitHead_noAt localPart EmptyString Hno).
  - apply (splitHead_noAt localPart domain Hno).
Qed.

Lemma splitDelimiters_segment :
  forall seg, Stated.noDelimiter seg = true -> Provision.splitDelimiters seg = [seg].
Proof.
  induction seg as [|c seg IH]; cbn; intros Hseg; [reflexivity|].
  rewrite delimiter_agrees.
  destruct (Stated.delimiter c); cbn in Hseg; [discriminate|].
  rewrite (IH Hseg). reflexivity.
Qed.

Lemma splitDelimiters_run :
  forall run rest,
    run <> EmptyString -> Stated.allDelimiters run = true ->
    Stated.startsWithDelimiter rest = false ->
    Provision.splitDelimiters (run ++ rest) = EmptyString :: Provision.splitDelimiters rest.
Proof.
  induction run as [|c run IH]; intros rest Hne Hall Hrest; [congruence|].
  cbn in Hall. apply andb_prop in Hall. destruct Hall as [Hc Hall].
  cbn. rewrite delimiter_agrees, Hc.
  destruct run as [|c' run].
  - cbn. rewrite startsWithDelimiter_agrees, Hrest. reflexivity.
  - assert (Hstart : Provision.startsWithDelimiter (String c' run ++ rest) = true).
    { cbn in Hall. apply andb_prop in Hall. cbn. rewrite delimiter_agrees. tauto. }
    rewrite Hstart. apply IH; [discriminate | exact Hall | exact Hrest].
Qed.

Lemma splitDelimiters_segment_run :
  forall seg run rest,
    Stated.noDelimiter seg = true ->
    run <> EmptyString -> Stated.allDelimiters run = true ->
    Stated.startsWithDelimiter rest = false ->
    Provision.splitDelimiters (seg ++ run ++ rest) = seg :: Provision.splitDelimiters rest.
Proof.
  induction seg as [|c seg IH]; intros run rest Hseg Hne Hall Hrest.
  - cbn. apply splitDelimiters_run; assumption.
  - cbn in Hseg. cbn. rewrite delimiter_agrees.
    destruct (Stated.delimiter c); cbn in Hseg; [discriminate|].
    rewrite (IH run rest Hseg Hne Hall Hrest). reflexivity.
Qed.

Lemma split_unique :
  forall s segs, Stated.SplitAtDelimiters s segs -> segs = Provision.splitDelimiters s.
Proof.
  intros s segs Hsplit.
  induction Hsplit as [seg Hseg | seg run rest segs Hseg Hne Hall Hrest Hsplit IH].
  - symmetry. apply splitDelimiters_segment. exact Hseg.
  - rewrite splitDelimiters_segment_run by assumption. rewrite IH. reflexivity.
Qed.

(** C8, as amended.  When the request supplies no display name, the
    derived name is obtained from the local part of the email (what
    precedes its first [@]): the generic label ["Canvas User"] when the
    local part is empty, and otherwise the segments between the runs of
    ['.'], ['_'], ['-'], each with its first character upper-cased and
    its other characters kept as they are, joined by single spaces. *)
Theorem derived_name_from_local_part :
  forall (email localPart : string) (segments : list string),
    Stated.LocalPart email localPart ->
    Stated.SplitAtDelimiters localPart segments ->
    Provision.derivedName None email
    = if String.eqb localPart "" then "Canvas User"
      else join " " (map (fun segment =>
                            match segment with
                            | EmptyString => EmptyString
                            | String first others => String (toUpperChar first) others
                            end)
                         segments).
Proof.
  intros email localPart segments Hlocal Hsplit.
  apply local_part_unique in Hlocal. subst localPart.
  apply split_unique in Hsplit. subst segments.
  reflexivity.
Qed.

(** [jane_doe-SMITH@example.com] becomes ["Jane Doe SMITH"]. *)
Lemma derived_name_from_local_part_witness :
  Provision.derivedName None "jane_doe-SMITH@example.com" = "Jane Doe SMITH".
Proof.
  apply (derived_name_from_local_part "jane_doe-SMITH@example.com" "jane_doe-SMITH"
           ["jane"; "doe"; "SMITH"]).
  - split; [reflexivity | right; exists "example.com"; reflexivity].
  - apply (Stated.split_run "jane" "_" "doe-SMITH" ["doe"; "SMITH"]);
      try reflexivity; try discriminate.
    apply (Stated.split_run "doe" "-" "SMITH" ["SMITH"]);
      try reflexivity; try discriminate.
    apply Stated.split_last. reflexivity.
Defined.

(** C8, as stated, fails: the segments of [JANE.doe@x.com] are [JANE]
    and [doe], title-cased they read ["Jane Doe"], yet the derived name
    is ["JANE Doe"]: only the first character of a segment is touched. *)
Lemma upper_case_segment_is_kept :
  Stated.LocalPart "JANE.doe@x.com" "JANE.doe"
  /\ Stated.SplitAtDelimiters "JANE.doe" ["JANE"; "doe"]
  /\ join " " (map Stated.titleCase ["JANE"; "doe"]) = "Jane Doe"
  /\ Provision.derivedName None "JANE.doe@x.com" = "JANE Doe".
Proof.
  split; [split; [reflexivity | right; exists "x.com"; reflexivity]|].
  split.
  - apply (Stated.split_run "JANE" "." "doe" ["doe"]); try reflexivity; try discriminate.
    apply Stated.split_last. reflexivity.
  - split; reflexivity.
Qed.

(** ** Asynchronous-job detection *)

Lemma marker_listed :
  forall s, existsb (String.eqb s) Execute.ASYNC_STATUS_VALUES = true
            <-> In s Execute.ASYNC_STATUS_VALUES.
Proof.
  intros s. rewrite existsb_exists. split.
  - intros [x [Hin Heq]]. apply String.eqb_eq in Heq. subst x. exact Hin.
  - intros Hin. exists s. split; [exact Hin | apply String.eqb_refl].
Qed.

Lemma detect_on_object :
  forall parse o, Execute.isObject o = true ->
    Execute.detectAsyncExecution parse (Some o)
    = if (negb match Execute.statusOf o with
               | Some s => existsb (String.eqb (toLowerCase s)) Execute.ASYNC_STATUS_VALUES
               | None => false
               end
          && negb match Execute.jobIdOf o, Execute.messageOfOutput o with
                  | Some _, Some m => Execute.ASYNC_MESSAGE_PATTERN_test m
                  | _, _ => false
                  end)%bool
      then None
      else Some {| Execute.progress :=
                     option_map Execute.normalizeProgress
                       (Execute.getNumber parse
                          (prop o "progress" ?? prop o "percentage" ?? prop o "percent"));
                   Execute.currentStep :=
                     match Execute.messageOfOutput o with
                     | Some m => Some m
                     | None => option_map (fun s => ("Status: " ++ toLowerCase s)%string)
                                          (Execute.statusOf o)
                     end;
                   Execute.estimatedCompletionMs :=
                     Execute.getNumber parse
                       (prop o "estimatedCompletionMs" ?? prop o "etaMs" ?? prop o "eta_ms") |}.
Proof.
  intros parse o Hobj.
  destruct o; try discriminate Hobj; unfold Execute.detectAsyncExecution;
    cbn [truthy Execute.isObject andb negb];
    destruct (Execute.statusOf _); destruct (Execute.jobIdOf _);
    destruct (Execute.messageOfOutput _); reflexivity.
Qed.

Lemma detect_needs_object :
  forall parse output,
    Execute.detectAsyncExecution parse output <> None ->
    exists o, output = Some o /\ Execute.isObject o = true.
Proof.
  intros parse [o|] H; [|exfalso; apply H; reflexivity].
  exists o. split; [reflexivity|].
  destruct o; try reflexivity; exfalso; apply H; try reflexivity.
  - cbn. destruct b; reflexivity.
  - cbn. destruct (Qeq_bool q 0); reflexivity.
  - cbn. destruct (String.eqb s ""); reflexivity.
Qed.

(** The outputs that [detectAsyncExecution] classifies as in-flight. *)
Lemma detected_iff_marker_or_job :
  forall (parse : string -> option Q) (output : option json),
    Execute.detectAsyncExecution parse output <> None
    <-> exists o,
          output = Some o /\ Execute.isObject o = true
          /\ ((exists s, Execute.statusOf o = Some s
                         /\ In (toLowerCase s)
                               ["queued"; "running"; "processing"; "pending";
                                "in_progress"; "in-progress"; "started"])
              \/ (exists jobId message,
                     Execute.jobIdOf o = Some jobId
                     /\ Execute.messageOfOutput o = Some message
                     /\ Execute.ASYNC_MESSAGE_PATTERN_test message = true)).
Proof.
  intros parse output. split.
  - intros H. destruct (detect_needs_object parse output H) as [o [Ho Hobj]].
    subst output. exists o. split; [reflexivity|]. split; [exact Hobj|].
    rewrite (detect_on_object parse o Hobj) in H.
    destruct (Execute.statusOf o) as [s|] eqn:Hs.
    + destruct (existsb (String.eqb (toLowerCase s)) Execute.ASYNC_STATUS_VALUES) eqn:Hm.
      * left. exists s. split; [reflexivity|]. apply marker_listed. exact Hm.
      * cbn [negb andb] in H.
        destruct (Execute.jobIdOf o) as [j|]; [|exfalso; apply H; reflexivity].
        destruct (Execute.messageOfOutput o) as [m|]; [|exfalso; apply H; reflexivity].
        destruct (Execute.ASYNC_MESSAGE_PATTERN_test m) eqn:Ht;
          [|exfalso; apply H; reflexivity].
        right. exists j, m. repeat split. exact Ht.
    + cbn [negb andb] in H.
      destruct (Execute.jobIdOf o) as [j|]; [|exfalso; apply H; reflexivity].
      destruct (Execute.messageOfOutput o) as [m|]; [|exfalso; apply H; reflexivity].
      destruct (Execute.ASYNC_MESSAGE_PATTERN_test m) eqn:Ht;
        [|exfalso; apply H; reflexivity].
      right. exists j, m. repeat split. exact Ht.
  - intros [o [Ho [Hobj Hcases]]]. subst output.
    rewrite (detect_on_object parse o Hobj).
    destruct Hcases as [[s [Hs Hin]] | [j [m [Hj [Hm Ht]]]]].
    + rewrite Hs. apply marker_listed in Hin. rewrite Hin. cbn. discriminate.
    + rewrite Hj, Hm, Ht. rewrite andb_false_r. discriminate.
Qed.

(** *** The async-sounding pattern *)

(** [readWord w s] reads, letter case apart, the word [w] at the start
    of [s]. *)
Lemma readWord_spec :
  forall (w s rest : string),
    Execute.readWord w s = Some rest
    <-> exists word,
          s = (word ++ rest)%string /\ toLowerCase word = toLowerCase w.
Proof.
  induction w as [|a w IH]; intros s rest; cbn.
  - split.
    + intros H. injection H as <-. exists EmptyString. split; reflexivity.
    + intros (word & Hs & Hw). destruct word; [|discriminate Hw].
      subst s. reflexivity.
  - destruct s as [|b s].
    + split; [discriminate|]. intros (word & Hs & Hw).
      destruct word; discriminate.
    + destruct (Ascii.eqb_spec (toLowerChar a) (toLowerChar b)) as [Hab|Hab].
      * rewrite IH. split.
        -- intros (word & Hs & Hw). exists (String b word). cbn.
           rewrite Hs, Hw, Hab. split; reflexivity.
        -- intros (word & Hs & Hw). destruct word as [|c word]; [discriminate Hw|].
           cbn in Hs, Hw. injection Hs as <- Hs. injection Hw as _ Hw.
           exists word. split; assumption.
      * split; [discriminate|]. intros (word & Hs & Hw).
        destruct word as [|c word]; [discriminate Hw|].
        cbn in Hs, Hw. injection Hs as <- Hs. injection Hw as Hc _.
        congruence.
Qed.

Lemma async_words_lower :
  forall w, In w Execute.ASYNC_MESSAGE_WORDS -> toLowerCase w = w.
Proof.
  intros w Hin. unfold Execute.ASYNC_MESSAGE_WORDS in Hin.
  repeat (destruct Hin as [Hin|Hin]; [subst w; reflexivity|]). destruct Hin.
Qed.

(** One of the words starts here and ends at a word boundary. *)
Lemma wordHere_spec :
  forall s,
    Execute.wordHere s = true
    <-> exists word after,
          s = (word ++ after)%string
          /\ In (toLowerCase word) Stated.ASYNC_WORDS
          /\ Stated.beginsWithWordChar after = false.
Proof.
  intros s. unfold Execute.wordHere. rewrite existsb_exists. split.
  - intros (w & Hin & Hread).
    destruct (Execute.readWord w s) as [rest|] eqn:Hw; [|discriminate].
    apply readWord_spec in Hw. destruct Hw as (word & Hs & Hlower).
    exists word, rest. split; [exact Hs|]. split.
    + rewrite Hlower, (async_words_lower w Hin). exact Hin.
    + apply negb_true_iff in Hread. destruct rest; exact Hread.
  - intros (word & after & Hs & Hin & Hafter).
    exists (toLowerCase word). split; [exact Hin|].
    assert (Hread : Execute.readWord (toLowerCase word) s = Some after).
    { apply readWord_spec. exists word. split; [exact Hs|].
      symmetry. apply (async_words_lower _ Hin). }
    rewrite Hread. apply negb_true_iff. destruct after; exact Hafter.
Qed.

(** The search of the pattern finds a whole word. *)
Lemma searchPattern_spec :
  forall (s : string) (afterWord : bool),
    Execute.searchPattern afterWord s = true
    <-> exists before word after,
          s = (before ++ word ++ after)%string
          /\ In (toLowerCase word) Stated.ASYNC_WORDS
          /\ match before with
             | EmptyString => afterWord = false
             | _ => Stated.endsWithWordChar before = false
             end
          /\ Stated.beginsWithWordChar after = false.
Proof.
  induction s as [|c r IH]; intros afterWord.
  - cbn [Execute.searchPattern]. rewrite orb_false_r, andb_true_iff, negb_true_iff.
    rewrite wordHere_spec. split.
    + intros (Hafter & word & after & Hs & Hin & Hb).
      exists EmptyString, word, after. repeat split; assumption.
    + intros (before & word & after & Hs & Hin & Hbefore & Hb).
      destruct before as [|b before]; [|discriminate Hs].
      split; [exact Hbefore|]. exists word, after. repeat split; assumption.
  - cbn [Execute.searchPattern]. rewrite orb_true_iff, andb_true_iff, negb_true_iff.
    rewrite wordHere_spec, IH. split.
    + intros [(Hafter & word & after & Hs & Hin & Hb)
             | (before & word & after & Hs & Hin & Hbefore & Hb)].
      * exists EmptyString, word, after. repeat split; assumption.
      * exists (String c before), word, after. split; [cbn; rewrite Hs; reflexivity|].
        split; [exact Hin|]. split; [|exact Hb].
        destruct before; [cbn; exact Hbefore | exact Hbefore].
    + intros (before & word & after & Hs & Hin & Hbefore & Hb).
      destruct before as [|b before].
      * left. split; [exact Hbefore|]. exists word, after. repeat split; assumption.
      * right. cbn in Hs. injection Hs as <- Hs.
        exists before, word, after. split; [exact Hs|]. split; [exact Hin|].
        split; [|exact Hb]. destruct before; [cbn in Hbefore; exact Hbefore | exact Hbefore].
Qed.

(** [ASYNC_MESSAGE_PATTERN.test] accepts the messages that hold one of
    the words as a whole word. *)
Lemma pattern_test_spec :
  forall message,
    Execute.ASYNC_MESSAGE_PATTERN_test message = true <-> Stated.MatchesAsyncPattern message.
Proof.
  intros message. unfold Execute.ASYNC_MESSAGE_PATTERN_test, Stated.MatchesAsyncPattern.
  rewrite searchPattern_spec. split.
  - intros (before & word & after & Hs & Hin & Hbefore & Hb).
    exists before, word, after. split; [exact Hs|]. split; [exact Hin|].
    split; [|exact Hb]. destruct before; [reflexivity | exact Hbefore].
  - intros (before & word & after & Hs & Hin & Hbefore & Hb).
    exists before, word, after. split; [exact Hs|]. split; [exact Hin|].
    split; [|exact Hb]. destruct before; [reflexivity | exact Hbefore].
Qed.

(** [getString] keeps the strings that are not blank, trimmed. *)
Lemma getString_spec :
  forall (value : option json) (s : string),
    Execute.getString value = Some s
    <-> exists raw, value = Some (JStr raw) /\ trim raw <> "" /\ s = trim raw.
Proof.
  intros value s. unfold Execute.getString. split.
  - destruct value as [[ | | |raw| | ]|]; try discriminate.
    destruct (String.eqb_spec (trim raw) ""); [discriminate|].
    intros H. injection H as <-. exists raw. repeat split. assumption.
  - intros (raw & -> & Hne & ->).
    destruct (String.eqb_spec (trim raw) ""); [contradiction | reflexivity].
Qed.

(** The outputs classified as in-flight, with the fields that are read
    written out. *)
Lemma detected_fields :
  forall (parse : string -> option Q) (output : option json),
    Execute.detectAsyncExecution parse output <> None
    <-> exists fields,
          output = Some (JObj fields)
          /\ ((exists raw,
                  lookup "status" fields ?? lookup "state" fields
                  ?? lookup "jobStatus" fields ?? lookup "job_state" fields
                  = Some (JStr raw)
                  /\ trim raw <> ""
                  /\ In (toLowerCase (trim raw))
                        ["queued"; "running"; "processing"; "pending";
                         "in_progress"; "in-progress"; "started"])
              \/ (exists rawId rawMessage,
                     lookup "jobId" fields ?? lookup "job_id" fields
                     ?? lookup "taskId" fields ?? lookup "task_id" fields
                     = Some (JStr rawId)
                     /\ trim rawId <> ""
                     /\ lookup "currentStep" fields ?? lookup "message" fields
                        ?? lookup "statusMessage" fields ?? lookup "status_message" fields
                        = Some (JStr rawMessage)
                     /\ trim rawMessage <> ""
                     /\ Stated.MatchesAsyncPattern (trim rawMessage))).
Proof.
  intros parse output. rewrite detected_iff_marker_or_job. split.
  - intros (o & Ho & Hobj & Hcases).
    destruct o as [ | | | |items|fields]; try discriminate Hobj.
    + destruct Hcases as [(s & Hs & _) | (j & m & Hj & _)]; discriminate.
    + exists fields. split; [exact Ho|].
      destruct Hcases as [(s & Hs & Hin) | (j & m & Hj & Hm & Htest)].
      * left. apply getString_spec in Hs. destruct Hs as (raw & Hraw & Hne & ->).
        exists raw. repeat split; assumption.
      * right. apply getString_spec in Hj, Hm.
        destruct Hj as (rawId & HrawId & HneId & ->).
        destruct Hm as (rawMessage & HrawMessage & HneMessage & ->).
        exists rawId, rawMessage. apply pattern_test_spec in Htest.
        repeat split; assumption.
  - intros (fields & Ho & Hcases). exists (JObj fields).
    split; [exact Ho|]. split; [reflexivity|].
    destruct Hcases as [(raw & Hraw & Hne & Hin)
                       | (rawId & rawMessage & HrawId & HneId & HrawMessage & HneMessage
                          & Hmatch)].
    + left. exists (trim raw). split; [|exact Hin].
      apply getString_spec. exists raw. repeat split; assumption.
    + right. exists (trim rawId), (trim rawMessage).
      split; [apply getString_spec; exists rawId; repeat split; assumption|].
      split; [apply getString_spec; exists rawMessage; repeat split; assumption|].
      apply pattern_test_spec. exact Hmatch.
Qed.

(** C7, as stated, fails: the status ["in-progress"] is not one of the
    six enumerated markers and no job identifier or message is present,
    yet the output is classified as an in-flight job. *)
Lemma hyphenated_in_progress_is_detected :
  Stated.statedAsync (JObj [("status", JStr "in-progress")]) = false
  /\ Execute.detectAsyncExecution (fun _ => None)
                                  (Some (JObj [("status", JStr "in-progress")]))
     = Some {| Execute.progress := None;
               Execute.currentStep := Some "Status: in-progress";
               Execute.estimatedCompletionMs := None |}.
Proof.
  split; reflexivity.
Qed.

(** ** Replaying a stored execution *)

Lemma optProp_default_object :
  forall (v : option json) (k : string),
    optProp (v ?? Some (JObj [])) k = optProp v k.
Proof.
  intros [[ | | | | | ]|] k; reflexivity.
Qed.

Lemma lookup_status_third :
  forall (a c : json) (b : option json) (rest : list (string * option json)),
    prop (obj (("executionId", Some a) :: ("blockType", b) :: ("status", Some c) :: rest))
         "status"
    = Some c.
Proof.
  intros a c [b|] rest; reflexivity.
Qed.

(** ** One retry *)

Section RetryFacts.

Context {W : Type} (env : Execute.Env W).

Variable toolId : string.
Variable toolInputs : json.
Variable executionContext : ExecutionContext.
Variable timeoutMs : Z.

(** One attempt records one call and leaves the database alone. *)
Lemma executeWithTimeout_effect :
  forall s : State W,
    let run := Execute.executeWithTimeout env toolId toolInputs executionContext timeoutMs s in
    calls (fst run) = calls s ++ [(Execute.theCall toolId toolInputs executionContext)]
    /\ db (fst run) = db s
    /\ entropy (fst run) = entropy s.
Proof.
  intros s. unfold Execute.executeWithTimeout.
  destruct (Execute.executeTool env (world s) toolId toolInputs executionContext)
    as [w' [ms result | ms e | ]]; cbn.
  - destruct (ms <? timeoutMs); cbn; auto.
  - destruct (ms <? timeoutMs); cbn; auto.
  - auto.
Qed.

(** Without auto-retry exactly one attempt is made. *)
Lemma without_retry_one_attempt :
  forall s : State W,
    calls (fst (Execute.executeWithRetry env toolId toolInputs executionContext
                                         timeoutMs false s))
    = calls s ++ [(Execute.theCall toolId toolInputs executionContext)].
Proof.
  intros s. unfold Execute.executeWithRetry, tryCatch, bind. cbn [andb].
  pose proof (executeWithTimeout_effect s) as [Hc _].
  destruct (Execute.executeWithTimeout env toolId toolInputs executionContext timeoutMs s)
    as [s1 [e|result]]; exact Hc.
Qed.

(** With auto-retry, a first attempt that throws (an exception or a
    timeout) is followed by exactly one more attempt, whose outcome is the
    outcome of the whole. *)
Lemma retry_after_exception :
  forall (s s1 : State W) (e : thrown),
    Execute.executeWithTimeout env toolId toolInputs executionContext timeoutMs s
    = (s1, inl e) ->
    Execute.executeWithRetry env toolId toolInputs executionContext timeoutMs true s
    = Execute.executeWithTimeout env toolId toolInputs executionContext timeoutMs s1.
Proof.
  intros s s1 e H. unfold Execute.executeWithRetry, tryCatch, bind. rewrite H. reflexivity.
Qed.

(** The tool is invoked between one and three times, always with the
    same arguments, and the database is not touched. *)
Lemma executeWithRetry_effect :
  forall (retry : bool) (s : State W),
    let run := Execute.executeWithRetry env toolId toolInputs executionContext
                                        timeoutMs retry s in
    exists n : nat,
      (1 <= n <= 3)%nat
      /\ calls (fst run) = calls s ++ repeat (Execute.theCall toolId toolInputs executionContext) n
      /\ db (fst run) = db s
      /\ entropy (fst run) = entropy s.
Proof.
  intros retry s. unfold Execute.executeWithRetry, tryCatch, bind.
  pose proof (executeWithTimeout_effect s) as [Hc1 [Hd1 He1]].
  destruct (Execute.executeWithTimeout env toolId toolInputs executionContext timeoutMs s)
    as [s1 [e|result]]; cbn [fst] in Hc1, Hd1, He1.
  - destruct retry.
    + pose proof (executeWithTimeout_effect s1) as [Hc2 [Hd2 He2]].
      exists 2%nat. split; [lia|].
      rewrite Hc2, Hd2, He2, Hc1, Hd1, He1, <- app_assoc. auto.
    + exists 1%nat. cbn. split; [lia|]. auto.
  - destruct (retry && negb (Execute.success result))%bool.
    + pose proof (executeWithTimeout_effect s1) as [Hc2 [Hd2 He2]].
      destruct (Execute.executeWithTimeout env toolId toolInputs executionContext
                                           timeoutMs s1)
        as [s2 [e|result2]]; cbn [fst] in Hc2, Hd2, He2.
      * destruct retry.
        -- pose proof (executeWithTimeout_effect s2) as [Hc3 [Hd3 He3]].
           exists 3%nat. split; [lia|].
           rewrite Hc3, Hd3, He3, Hc2, Hd2, He2, Hc1, Hd1, He1, <- !app_assoc. auto.
        -- exists 2%nat. split; [lia|]. cbn [fst throw].
           rewrite Hc2, Hd2, He2, Hc1, Hd1, He1, <- app_assoc. auto.
      * exists 2%nat. split; [lia|]. cbn [fst].
        rewrite Hc2, Hd2, He2, Hc1, Hd1, He1, <- app_assoc. auto.
    + exists 1%nat. cbn. split; [lia|]. auto.
Qed.

(** Whatever the tool does, one call of [executeWithRetry] invokes it at
    least once and at most three times, each time with the same
    arguments. *)
Theorem retry_attempts_bounded :
  forall (retry : bool) (s : State W),
    exists n : nat,
      (1 <= n <= 3)%nat
      /\ calls (fst (Execute.executeWithRetry env toolId toolInputs executionContext
                                              timeoutMs retry s))
         = calls s ++ repeat (Execute.theCall toolId toolInputs executionContext) n.
Proof.
  intros retry s.
  destruct (executeWithRetry_effect retry s) as (n & Hn & Hcalls & _).
  exists n. split; [exact Hn | exact Hcalls].
Qed.

End RetryFacts.

(** A first attempt that throws is retried once: the second result is
    returned after two invocations. *)
Lemma retry_after_exception_witness :
  Execute.executeWithRetry Demo.env "gmail_send" (JObj []) Demo.gmailContext 30000 true
    (Demo.startingWith [Execute.RejectsWith 10 (ErrorObj "network");
                        Execute.Resolves 5 Demo.sent])
  = Execute.executeWithTimeout Demo.env "gmail_send" (JObj []) Demo.gmailContext 30000
      (fst (Execute.executeWithTimeout Demo.env "gmail_send" (JObj []) Demo.gmailContext
              30000
              (Demo.startingWith [Execute.RejectsWith 10 (ErrorObj "network");
                                  Execute.Resolves 5 Demo.sent]))).
Proof.
  apply (retry_after_exception Demo.env "gmail_send" (JObj []) Demo.gmailContext 30000
           (Demo.startingWith [Execute.RejectsWith 10 (ErrorObj "network");
                               Execute.Resolves 5 Demo.sent])
           _ (ErrorObj "network")).
  reflexivity.
Defined.

(** Case analysis on the run of [executeWithRetry] that a hypothesis
    mentions, with what [executeWithRetry_effect] says about it. *)
Tactic Notation "retry_cases" ident(s2) ident(e) ident(result) ident(Heffect) :=
  lazymatch goal with
  | H : context [Execute.executeWithRetry ?env ?t ?ti ?c ?tm ?rt ?s1] |- _ =>
      pose proof (executeWithRetry_effect env t ti c tm rt s1) as Heffect;
      cbv zeta in Heffect;
      destruct (Execute.executeWithRetry env t ti c tm rt s1) as [s2 [e|result]];
      cbn [fst snd] in Heffect
  end.

(** C6, at the failing input.  Auto-retry is requested, the first
    attempt reports a failure and the second one throws: the tool is
    invoked a third time, and the third result is returned. *)
Theorem retry_runs_a_third_attempt :
  length (calls (fst (Execute.executeWithRetry
                        Demo.env "gmail_send" (JObj []) Demo.gmailContext 30000 true
                        (Demo.startingWith
                           [Execute.Resolves 10 (Demo.failure "boom");
                            Execute.RejectsWith 10 (ErrorObj "network");
                            Execute.Resolves 5 Demo.sent]))))
  = 3%nat
  /\ snd (Execute.executeWithRetry
            Demo.env "gmail_send" (JObj []) Demo.gmailContext 30000 true
            (Demo.startingWith
               [Execute.Resolves 10 (Demo.failure "boom");
                Execute.RejectsWith 10 (ErrorObj "network");
                Execute.Resolves 5 Demo.sent]))
     = inr Demo.sent.
Proof.
  split; reflexivity.
Qed.

(** ** The execution log *)

Lemma find_app_none :
  forall (A : Type) (p : A -> bool) (l : list A) (x : A),
    find p l = None -> find p (l ++ [x]) = if p x then Some x else None.
Proof.
  induction l as [|a l IH]; intros x H; cbn in *; [reflexivity|].
  destruct (p a); [discriminate | apply IH; exact H].
Qed.

Lemma find_app_some :
  forall (A : Type) (p : A -> bool) (l : list A) (x a : A),
    find p l = Some a -> find p (l ++ [x]) = Some a.
Proof.
  induction l as [|b l IH]; intros x a H; cbn in *; [discriminate|].
  destruct (p b); [exact H | apply IH; exact H].
Qed.

(** A fresh execution id gets its row; the other ids keep theirs. *)
Lemma find_insertLog_fresh :
  forall (row : ExecutionLog) (d : Db),
    Execute.findExistingExecution (executionId row) d = None ->
    Execute.findExistingExecution (executionId row) (Execute.insertLog row d) = Some row
    /\ forall id, id <> executionId row ->
         Execute.findExistingExecution id (Execute.insertLog row d)
         = Execute.findExistingExecution id d.
Proof.
  intros row d Hnone. unfold Execute.insertLog. rewrite Hnone.
  unfold Execute.findExistingExecution in *. cbn. split.
  - rewrite (find_app_none _ _ _ row Hnone). rewrite String.eqb_refl. reflexivity.
  - intros id Hne.
    destruct (find (fun r => String.eqb (executionId r) id) (executionLogs d)) as [a|] eqn:E.
    + apply find_app_some. exact E.
    + rewrite (find_app_none _ _ _ row E).
      destruct (String.eqb (executionId row) id) eqn:Heq; [|reflexivity].
      apply String.eqb_eq in Heq. congruence.
Qed.

(** An update keyed by execution id rewrites that id's row and no other. *)
Lemma find_updateWhere :
  forall (f : ExecutionLog -> ExecutionLog) (id : string) (d : Db),
    (forall r, executionId (f r) = executionId r) ->
    Execute.findExistingExecution id (Execute.updateWhere id f d)
    = option_map f (Execute.findExistingExecution id d)
    /\ forall id', id' <> id ->
         Execute.findExistingExecution id' (Execute.updateWhere id f d)
         = Execute.findExistingExecution id' d.
Proof.
  intros f id d Hf. unfold Execute.findExistingExecution, Execute.updateWhere. cbn.
  induction (executionLogs d) as [|r l [IH1 IH2]]; cbn; [split; reflexivity|].
  split.
  - destruct (String.eqb (executionId r) id) eqn:Heq.
    + rewrite Hf, Heq. reflexivity.
    + rewrite Heq. exact IH1.
  - intros id' Hne.
    destruct (String.eqb (executionId r) id) eqn:Heq.
    + rewrite Hf. destruct (String.eqb (executionId r) id') eqn:Heq'.
      * apply String.eqb_eq in Heq, Heq'. congruence.
      * apply IH2. exact Hne.
    + destruct (String.eqb (executionId r) id'); [reflexivity | apply IH2; exact Hne].
Qed.

Lemma completeLog_id :
  forall completedAt durationMs lvl data c cr r,
    executionId (Execute.completeLog completedAt durationMs lvl data c cr r) = executionId r.
Proof. reflexivity. Qed.

Lemma progressLog_id :
  forall data c cr r, executionId (Execute.progressLog data c cr r) = executionId r.
Proof. reflexivity. Qed.

Section LogFacts.

Context {W : Type} (env : Execute.Env W).

Lemma logExecutionStart_effect :
  forall executionId workspaceId blockType blockVersion callerUserId callerWorkspaceId
         callerWorkflowId callerNodeId requestData (s : State W),
    Execute.findExistingExecution executionId (db s) = None ->
    exists (s1 : State W) (row : ExecutionLog),
      Execute.logExecutionStart env executionId workspaceId blockType blockVersion
        callerUserId callerWorkspaceId callerWorkflowId callerNodeId requestData s
      = (s1, inr tt)
      /\ sameTools s s1
      /\ (endedAt row = None /\ level row = "info")
      /\ Execute.findExistingExecution executionId (db s1) = Some row
      /\ forall id, id <> executionId ->
           Execute.findExistingExecution id (db s1)
           = Execute.findExistingExecution id (db s).
Proof.
  intros executionId workspaceId blockType blockVersion callerUserId callerWorkspaceId
         callerWorkflowId callerNodeId requestData s Hnone.
  unfold Execute.logExecutionStart, bind, now, gets, randomUUID, updateDb, modify, setDb.
  cbn [db entropy clock world calls].
  eexists. eexists. split; [reflexivity|].
  split; [repeat split|].
  cbn [db].
  match goal with
  | |- context [Execute.insertLog ?r (db s)] =>
      destruct (find_insertLog_fresh r (db s) Hnone) as [H1 H2]
  end.
  refine (conj _ (conj H1 H2)). split; reflexivity.
Qed.

Lemma logExecutionCompletion_effect :
  forall executionId durationMs ok out err usage requestData responseBlockType (s : State W),
    exists (s1 : State W) (data : json) (c : option json) (cr : option string),
      Execute.logExecutionCompletion env executionId durationMs ok out err usage
        requestData responseBlockType s
      = (s1, inr tt)
      /\ sameTools s s1
      /\ Execute.findExistingExecution executionId (db s1)
         = option_map
             (Execute.completeLog (clock s) durationMs (if ok then "info" else "error")
                                  data c cr)
             (Execute.findExistingExecution executionId (db s))
      /\ forall id, id <> executionId ->
           Execute.findExistingExecution id (db s1)
           = Execute.findExistingExecution id (db s).
Proof.
  intros executionId durationMs ok out err usage requestData responseBlockType s.
  unfold Execute.logExecutionCompletion, bind, now, gets, updateDb, modify, setDb.
  cbn [db entropy clock world calls].
  do 4 eexists. split; [reflexivity|].
  split; [repeat split|].
  apply find_updateWhere. intros r. apply completeLog_id.
Qed.

Lemma logExecutionRunning_effect :
  forall executionId durationMs out usage requestData responseBlockType async (s : State W),
    exists (s1 : State W) (data : json) (c : option json) (cr : option string),
      Execute.logExecutionRunning env executionId durationMs out usage requestData
        responseBlockType async s
      = (s1, inr tt)
      /\ sameTools s s1
      /\ Execute.findExistingExecution executionId (db s1)
         = option_map (Execute.progressLog data c cr)
                      (Execute.findExistingExecution executionId (db s))
      /\ forall id, id <> executionId ->
           Execute.findExistingExecution id (db s1)
           = Execute.findExistingExecution id (db s).
Proof.
  intros executionId durationMs out usage requestData responseBlockType async s.
  unfold Execute.logExecutionRunning, updateDb, modify, setDb.
  cbn [db entropy clock world calls].
  do 4 eexists. split; [reflexivity|].
  split; [repeat split|].
  apply find_updateWhere. intros r. apply progressLog_id.
Qed.

End LogFacts.

(** ** The handler, step by step *)

Section FrameFacts.

Context {W : Type} (env : Execute.Env W).

Lemma bind_assign :
  forall (A : Type) (g : Execute.Locals -> Execute.Locals)
         (k : unit -> M (Execute.Frame (W := W)) A) (s : State W) (l : Execute.Locals),
    bind (Execute.assign g) k (s, l) = k tt (s, g l).
Proof. reflexivity. Qed.

Lemma bind_lift :
  forall (A B : Type) (m : M (State W) A) (k : A -> M (Execute.Frame (W := W)) B)
         (s : State W) (l : Execute.Locals),
    bind (Execute.lift m) k (s, l)
    = match m s with
      | (s', inr a) => k a (s', l)
      | (s', inl e) => ((s', l), inl e)
      end.
Proof.
  intros A B m k s l. unfold bind, Execute.lift. cbn [fst snd].
  destruct (m s) as [s' [e|a]]; reflexivity.
Qed.

Lemma chooseExecutionId_effect :
  forall (context : option Execute.RequestContext) (key : option string) (s : State W),
    exists (s0 : State W) (id : string),
      Execute.chooseExecutionId env context key s = (s0, inr id)
      /\ db s0 = db s /\ calls s0 = calls s /\ world s0 = world s /\ clock s0 = clock s.
Proof.
  intros context key s. unfold Execute.chooseExecutionId.
  destruct (Execute.executionIdOf context) as [id|].
  - exists s, id. repeat split.
  - destruct key as [k|].
    + exists s, k. repeat split.
    + unfold randomUUID. eexists. eexists. split; [reflexivity|]. repeat split.
Qed.

End FrameFacts.

Section AdmissionFacts.

Context {W : Type} (env : Execute.Env W).

(** A request whose execution id is already stored is answered from the
    stored row. *)
Lemma admission_replay :
  forall (serviceContext : CanvasRequestContext) (data : Execute.ExecuteRequest)
         (s s0 : State W) (l : Execute.Locals) (uid id : string) (existing : ExecutionLog),
    Execute.validRequest data = true ->
    canvasUserId serviceContext = Some uid ->
    uid <> "" ->
    Execute.chooseExecutionId env (Execute.context data) (idempotencyKey serviceContext) s
    = (s0, inr id) ->
    Execute.findExistingExecution id (db s0) = Some existing ->
    Execute.admission env serviceContext data (s, l)
    = ((s0, Execute.setExecutionId id l),
       inr (Execute.Reply (Execute.buildExecutionStatusResponse env existing id))).
Proof.
  intros serviceContext data s s0 l uid id existing Hvalid Huid Hne Hchoose Hfind.
  unfold Execute.admission. rewrite Hvalid, Huid. cbn [negb].
  apply String.eqb_neq in Hne. rewrite Hne.
  rewrite bind_lift, Hchoose, bind_assign, bind_lift.
  unfold gets. rewrite Hfind. reflexivity.
Qed.

(** Admission never invokes the tool nor writes to the database, and it
    admits only an execution id that is not stored yet. *)
Lemma admission_effect :
  forall (serviceContext : CanvasRequestContext) (data : Execute.ExecuteRequest)
         (s : State W) (l : Execute.Locals) (f' : Execute.Frame)
         (a : thrown + Execute.Admission),
    Execute.admission env serviceContext data (s, l) = (f', a) ->
    calls (fst f') = calls s /\ db (fst f') = db s
    /\ world (fst f') = world s /\ clock (fst f') = clock s
    /\ Execute.requestPayload (snd f') = Execute.requestPayload l
    /\ Execute.responseBlockType (snd f') = Execute.responseBlockType l
    /\ Execute.logStarted (snd f') = Execute.logStarted l
    /\ match a with
       | inr (Execute.Admit uid id rid bc tool hp su ws) =>
           Execute.findExistingExecution id (db s) = None
           /\ Execute.executionIdVar (snd f') = id
           /\ fst (Execute.chooseExecutionId env (Execute.context data)
                                             (idempotencyKey serviceContext) s)
              = fst f'
           /\ snd (Execute.chooseExecutionId env (Execute.context data)
                                             (idempotencyKey serviceContext) s)
              = inr id
       | _ => True
       end.
Proof.
  intros serviceContext data s l f' a H.
  unfold Execute.admission in H.
  destruct (Execute.validRequest data); cbn [negb] in H;
    [|inversion H; subst; cbn; tauto].
  destruct (canvasUserId serviceContext) as [uid|]; [|inversion H; subst; cbn; tauto].
  destruct (String.eqb uid ""); [inversion H; subst; cbn; tauto|].
  rewrite bind_lift in H.
  destruct (chooseExecutionId_effect env (Execute.context data)
              (idempotencyKey serviceContext) s)
    as (s0 & id & Hchoose & Hdb & Hcalls & Hworld & Hclock).
  rewrite Hchoose in *. rewrite bind_assign, bind_lift in H. unfold gets in H.
  destruct (Execute.findExistingExecution id (db s0)) as [existing|] eqn:Hfind;
    [inversion H; subst; cbn; tauto|].
  destruct (Execute.resolveBlock env (Execute.reqBlockType data)) as [[bc preset]|];
    [|inversion H; subst; cbn; tauto].
  assert (Hrest :
    forall toolId : option string,
      (if negb (present toolId)
       then ret (Execute.Reply
                   (errorResponse "INVALID_BLOCK_TYPE" "Unable to resolve tool for block type"
                      400 (Some (obj [("blockType", str (Execute.reqBlockType data))])) None))
       else
         simUser <- Execute.lift (gets (fun s => Execute.findLinkedSimUser uid (db s))) ;;
         match simUser with
         | None =>
             ret (Execute.Reply
                    (errorResponse "USER_NOT_PROVISIONED"
                       "Canvas user not linked to Sim Studio. Call /users/provision first."
                       404 None None))
         | Some simUserId =>
             simWorkspace <-
               Execute.lift (gets (fun s => Execute.findUserWorkspace simUserId (db s))) ;;
             match simWorkspace with
             | None => ret (Execute.Reply (internalErrorResponse "User workspace not found"))
             | Some simWorkspaceId =>
                 ret (Execute.Admit uid id
                        match requestId serviceContext with
                        | Some r => r
                        | None => id
                        end bc
                        match toolId with Some t => t | None => "" end
                        (Execute.applyBlockTransforms env bc
                           (Execute.orNull
                              (Execute.params data ?? Execute.inputs data ?? Some (JObj []))))
                        simUserId simWorkspaceId)
             end
         end) (s0, Execute.setExecutionId id l) = (f', a) ->
      calls (fst f') = calls s /\ db (fst f') = db s
      /\ world (fst f') = world s /\ clock (fst f') = clock s
      /\ Execute.requestPayload (snd f') = Execute.requestPayload l
      /\ Execute.responseBlockType (snd f') = Execute.responseBlockType l
      /\ Execute.logStarted (snd f') = Execute.logStarted l
      /\ match a with
         | inr (Execute.Admit uid id' rid bc tool hp su ws) =>
             Execute.findExistingExecution id' (db s) = None
             /\ Execute.executionIdVar (snd f') = id'
             /\ s0 = fst f'
             /\ @inr thrown string id = inr id'
         | _ => True
         end).
  { intros toolId Hk.
    destruct (negb (present toolId)); [inversion Hk; subst; cbn; tauto|].
    rewrite bind_lift in Hk. unfold gets in Hk.
    destruct (Execute.findLinkedSimUser uid (db s0)) as [simUserId|];
      [|inversion Hk; subst; cbn; tauto].
    rewrite bind_lift in Hk.
    destruct (Execute.findUserWorkspace simUserId (db s0)) as [simWorkspaceId|];
      [|inversion Hk; subst; cbn; tauto].
    inversion Hk; subst. cbn. rewrite <- Hdb. tauto. }
  cbn [fst snd].
  destruct preset as [t|].
  - unfold bind at 1 in H. unfold ret at 1 in H. apply Hrest in H. exact H.
  - destruct (Execute.resolveToolId bc _) as [e|t].
    + inversion H; subst; cbn; tauto.
    + unfold bind at 1 in H. unfold ret at 1 in H. apply Hrest in H. exact H.
Qed.

End AdmissionFacts.

Section StageFacts.

Context {W : Type} (env : Execute.Env W).

(** The execution stage: the running row is written, the tool is run
    through [executeWithRetry], and the outcome is logged unless the run
    throws; a row left with level ['error'] comes with an error answer. *)
Lemma executeStage_effect :
  forall (serviceContext : CanvasRequestContext) (data : Execute.ExecuteRequest)
         (startTime : Z) (uid id rid : string) (bc : Execute.BlockConfig)
         (tool : string) (hp : json) (su ws : string)
         (s : State W) (l : Execute.Locals) (f' : Execute.Frame)
         (r : thrown + Response),
    Execute.findExistingExecution id (db s) = None ->
    Execute.executeStage env serviceContext data startTime uid id rid bc tool hp su ws (s, l)
    = (f', r) ->
    exists (toolInputs payload : json) (s1 : State W) (row : ExecutionLog),
      (calls s1 = calls s /\ world s1 = world s)
      /\ endedAt row = None
      /\ Execute.findExistingExecution id (db s1) = Some row
      /\ (forall id', id' <> id ->
            Execute.findExistingExecution id' (db s1)
            = Execute.findExistingExecution id' (db s))
      /\ match Execute.executeWithRetry env tool toolInputs
                 (Execute.buildCanvasExecutionContext id ws su
                    (Execute.workflowIdOf (Execute.context data)))
                 (Execute.timeoutOf data) (Execute.retryOf data) s1 with
         | (s2, inl e) =>
             r = inl e
             /\ f' = (s2, Execute.setLogStarted (Execute.configType bc)
                            (Execute.setRequestPayload payload l))
         | (s2, inr result) =>
             calls (fst f') = calls s2
             /\ (exists row' response,
                    Execute.findExistingExecution id (db (fst f')) = Some row'
                    /\ r = inr response
                    /\ (level row' = "error" -> isSuccess response = false)
                    /\ ((Execute.success result = true
                         /\ Execute.detectAsyncExecution (Execute.parseNumber env)
                                                         (Execute.output result) <> None)
                        <-> (statusOf response = 202 /\ endedAt row' = None)))
             /\ (forall id', id' <> id ->
                   Execute.findExistingExecution id' (db (fst f'))
                   = Execute.findExistingExecution id' (db s2))
         end.
Proof.
  intros serviceContext data startTime uid id rid bc tool hp su ws s l f' r Hnone Hrun.
  unfold Execute.executeStage in Hrun. cbv zeta in Hrun.
  rewrite bind_assign, bind_lift in Hrun.
  match type of Hrun with
  | context [Execute.logExecutionStart env ?a ?b ?c ?d ?e ?f ?g ?h ?i s] =>
      destruct (logExecutionStart_effect env a b c d e f g h i s Hnone)
        as (s1 & row & Hstart & (Hcalls1 & Hworld1 & _) & [Hended Hlevel]
            & Hfind1 & Hother1);
      rewrite Hstart in Hrun
  end.
  rewrite bind_assign, bind_lift in Hrun.
  match type of Hrun with
  | context [Execute.executeWithRetry env tool ?ti _ _ _ s1] =>
      match type of Hrun with
      | context [Execute.setRequestPayload ?p l] => exists ti, p, s1, row
      end
  end.
  split; [split; [exact Hcalls1 | exact Hworld1]|].
  split; [exact Hended|]. split; [exact Hfind1|].
  split; [exact Hother1|].
  match goal with
  | |- match Execute.executeWithRetry env ?t ?ti ?c ?tm ?rt s1 with _ => _ end =>
      pose proof (executeWithRetry_effect env t ti c tm rt s1) as Heffect;
      cbv zeta in Heffect;
      destruct (Execute.executeWithRetry env t ti c tm rt s1) as [s2 [e|result]] eqn:Hretry
  end.
  - inversion Hrun; subst. split; reflexivity.
  - destruct Heffect as (n & _ & _ & Hdb2 & _). cbn [fst] in Hdb2.
    rewrite bind_lift in Hrun. unfold now, gets in Hrun.
    destruct (if Execute.success result
              then Execute.detectAsyncExecution (Execute.parseNumber env)
                                                (Execute.output result)
              else None) as [asyncExecution|] eqn:Hasync.
    + rewrite bind_lift in Hrun.
      match type of Hrun with
      | context [Execute.logExecutionRunning env ?a ?b ?c ?d ?e ?f ?g s2] =>
          destruct (logExecutionRunning_effect env a b c d e f g s2)
            as (s3 & dat & c3 & cr3 & Hlog & [Hcalls3 _] & Hfind3 & Hother3);
          rewrite Hlog in Hrun
      end.
      inversion Hrun; subst. cbn [fst].
      split; [exact Hcalls3|]. split; [|exact Hother3].
      rewrite Hfind3, Hdb2, Hfind1. cbn [option_map].
      eexists. eexists. split; [reflexivity|]. split; [reflexivity|].
      cbn [level endedAt Execute.progressLog]. split.
      * rewrite Hlevel. discriminate.
      * split; [intros _; split; [reflexivity | exact Hended]|].
        intros _. destruct (Execute.success result); [|discriminate Hasync].
        split; [reflexivity | rewrite Hasync; discriminate].
    + rewrite bind_lift in Hrun.
      match type of Hrun with
      | context [Execute.logExecutionCompletion env ?a ?b ?c ?d ?e ?f ?g ?h s2] =>
          destruct (logExecutionCompletion_effect env a b c d e f g h s2)
            as (s3 & dat & c3 & cr3 & Hlog & [Hcalls3 _] & Hfind3 & Hother3);
          rewrite Hlog in Hrun
      end.
      destruct (Execute.success result) eqn:Hsuccess; cbn [negb] in Hrun;
        inversion Hrun; subst; cbn [fst];
        (split; [exact Hcalls3|]); (split; [|exact Hother3]);
        rewrite Hfind3, Hdb2, Hfind1; cbn [option_map];
        eexists; eexists; (split; [reflexivity|]); (split; [reflexivity|]);
        cbn [level endedAt Execute.completeLog].
      * split; [discriminate|].
        split; [intros [_ Hdetected]; contradiction | intros [Hstatus _]; discriminate].
      * split; [intros _; reflexivity|].
        split; [intros [Hyes _]; discriminate | intros [_ Hrunning]; discriminate].
Qed.

End StageFacts.

(** ** The tool run of an admitted request *)

Section RunFacts.

Context {W : Type} (env : Execute.Env W).

(** The tool run of [executeStage]: the running row is written, then
    the tool is called from the state that leaves. *)
Lemma toolRun_started :
  forall (serviceContext : CanvasRequestContext) (data : Execute.ExecuteRequest)
         (uid id rid : string) (bc : Execute.BlockConfig) (tool : string) (hp : json)
         (su ws : string) (s : State W),
    Execute.findExistingExecution id (db s) = None ->
    exists (s1 : State W) (row : ExecutionLog),
      Execute.logExecutionStart env id ws (Execute.configType bc)
        (Execute.reqBlockVersion data) uid (canvasWorkspaceId serviceContext)
        (Execute.workflowIdOf (Execute.context data))
        (Execute.nodeIdOf (Execute.context data))
        (Execute.requestPayloadOf env serviceContext data uid rid tool hp) s
      = (s1, inr tt)
      /\ sameTools s s1
      /\ (endedAt row = None /\ level row = "info")
      /\ Execute.findExistingExecution id (db s1) = Some row
      /\ Execute.toolRun env serviceContext data uid id rid bc tool hp su ws s
         = Execute.executeWithRetry env tool
             (Execute.toolInputsOf serviceContext data id hp su ws)
             (Execute.buildCanvasExecutionContext id ws su
                (Execute.workflowIdOf (Execute.context data)))
             (Execute.timeoutOf data) (Execute.retryOf data) s1.
Proof.
  intros serviceContext data uid id rid bc tool hp su ws s Hnone.
  destruct (logExecutionStart_effect env id ws (Execute.configType bc)
              (Execute.reqBlockVersion data) uid (canvasWorkspaceId serviceContext)
              (Execute.workflowIdOf (Execute.context data))
              (Execute.nodeIdOf (Execute.context data))
              (Execute.requestPayloadOf env serviceContext data uid rid tool hp) s Hnone)
    as (s1 & row & Hstart & Hsame & Hrow & Hfind & _).
  exists s1, row. split; [exact Hstart|]. split; [exact Hsame|]. split; [exact Hrow|].
  split; [exact Hfind|].
  unfold Execute.toolRun. unfold bind at 1. rewrite Hstart. reflexivity.
Qed.

(** When the tool run throws, [executeStage] throws the same error, with
    the request payload and the block type recorded for the [catch]
    block. *)
Lemma executeStage_thrown :
  forall (serviceContext : CanvasRequestContext) (data : Execute.ExecuteRequest)
         (startTime : Z) (uid id rid : string) (bc : Execute.BlockConfig)
         (tool : string) (hp : json) (su ws : string)
         (s s2 : State W) (l : Execute.Locals) (e : thrown),
    Execute.findExistingExecution id (db s) = None ->
    Execute.toolRun env serviceContext data uid id rid bc tool hp su ws s = (s2, inl e) ->
    Execute.executeStage env serviceContext data startTime uid id rid bc tool hp su ws (s, l)
    = ((s2, Execute.setLogStarted (Execute.configType bc)
              (Execute.setRequestPayload
                 (Execute.requestPayloadOf env serviceContext data uid rid tool hp) l)),
       inl e)
    /\ exists row : ExecutionLog,
        Execute.findExistingExecution id (db s2) = Some row /\ endedAt row = None.
Proof.
  intros serviceContext data startTime uid id rid bc tool hp su ws s s2 l e Hnone Htool.
  destruct (toolRun_started serviceContext data uid id rid bc tool hp su ws s Hnone)
    as (s1 & row & Hstart & _ & [Hended _] & Hfind & Hrun).
  rewrite Hrun in Htool.
  pose proof (executeWithRetry_effect env tool
                (Execute.toolInputsOf serviceContext data id hp su ws)
                (Execute.buildCanvasExecutionContext id ws su
                   (Execute.workflowIdOf (Execute.context data)))
                (Execute.timeoutOf data) (Execute.retryOf data) s1) as Heffect.
  cbv zeta in Heffect. rewrite Htool in Heffect. cbn [fst] in Heffect.
  destruct Heffect as (n & _ & _ & Hdb2 & _).
  split.
  - unfold Execute.executeStage. cbv zeta.
    rewrite bind_assign, bind_lift.
    unfold Execute.requestPayloadOf in Hstart. rewrite Hstart.
    rewrite bind_assign, bind_lift.
    unfold Execute.toolInputsOf in Htool. rewrite Htool. reflexivity.
  - exists row. rewrite Hdb2. split; [exact Hfind | exact Hended].
Qed.

(** When the tool run returns a result, [executeStage] answers: with
    202 and the row left running exactly when the result is a success
    whose output is classified as an in-flight job, and otherwise with
    the row completed. *)
Lemma executeStage_answer :
  forall (serviceContext : CanvasRequestContext) (data : Execute.ExecuteRequest)
         (startTime : Z) (uid id rid : string) (bc : Execute.BlockConfig)
         (tool : string) (hp : json) (su ws : string)
         (s s2 : State W) (l : Execute.Locals) (result : Execute.ToolResult),
    Execute.findExistingExecution id (db s) = None ->
    Execute.toolRun env serviceContext data uid id rid bc tool hp su ws s = (s2, inr result) ->
    exists (f' : Execute.Frame) (response : Response) (row : ExecutionLog),
      Execute.executeStage env serviceContext data startTime uid id rid bc tool hp su ws
                           (s, l)
      = (f', inr response)
      /\ Execute.findExistingExecution id (db (fst f')) = Some row
      /\ ((Execute.success result = true
           /\ Execute.detectAsyncExecution (Execute.parseNumber env)
                                           (Execute.output result) <> None)
          <-> (statusOf response = 202 /\ endedAt row = None))
      /\ (statusOf response <> 202 -> endedAt row = Some (clock s2)).
Proof.
  intros serviceContext data startTime uid id rid bc tool hp su ws s s2 l result
         Hnone Htool.
  destruct (toolRun_started serviceContext data uid id rid bc tool hp su ws s Hnone)
    as (s1 & row & Hstart & _ & [Hended Hlevel] & Hfind1 & Hrun).
  rewrite Hrun in Htool.
  pose proof (executeWithRetry_effect env tool
                (Execute.toolInputsOf serviceContext data id hp su ws)
                (Execute.buildCanvasExecutionContext id ws su
                   (Execute.workflowIdOf (Execute.context data)))
                (Execute.timeoutOf data) (Execute.retryOf data) s1) as Heffect.
  cbv zeta in Heffect. rewrite Htool in Heffect. cbn [fst] in Heffect.
  destruct Heffect as (n & _ & _ & Hdb2 & _).
  unfold Execute.executeStage. cbv zeta.
  rewrite bind_assign, bind_lift.
  unfold Execute.requestPayloadOf in Hstart. rewrite Hstart.
  rewrite bind_assign, bind_lift.
  unfold Execute.toolInputsOf in Htool. rewrite Htool.
  rewrite bind_lift. unfold now, gets.
  destruct (if Execute.success result
            then Execute.detectAsyncExecution (Execute.parseNumber env)
                                              (Execute.output result)
            else None) as [asyncExecution|] eqn:Hasync.
  - rewrite bind_lift.
    match goal with
    | |- context [Execute.logExecutionRunning env ?a ?b ?c ?d ?e ?f ?g s2] =>
        destruct (logExecutionRunning_effect env a b c d e f g s2)
          as (s3 & dat & c3 & cr3 & Hlog & _ & Hfind3 & _);
        rewrite Hlog
    end.
    eexists. eexists. eexists. split; [reflexivity|]. cbn [fst].
    rewrite Hfind3, Hdb2, Hfind1. cbn [option_map].
    split; [reflexivity|].
    cbn [endedAt Execute.progressLog statusOf singleResponse]. split.
    + split; [intros _; split; [reflexivity | exact Hended]|].
      intros _. destruct (Execute.success result); [|discriminate Hasync].
      split; [reflexivity | rewrite Hasync; discriminate].
    + intros Hstatus. contradiction Hstatus. reflexivity.
  - rewrite bind_lift.
    match goal with
    | |- context [Execute.logExecutionCompletion env ?a ?b ?c ?d ?e ?f ?g ?h s2] =>
        destruct (logExecutionCompletion_effect env a b c d e f g h s2)
          as (s3 & dat & c3 & cr3 & Hlog & _ & Hfind3 & _);
        rewrite Hlog
    end.
    destruct (Execute.success result) eqn:Hsuccess; cbn [negb];
      (eexists; eexists; eexists; split; [reflexivity|]); cbn [fst];
      rewrite Hfind3, Hdb2, Hfind1; cbn [option_map];
      (split; [reflexivity|]);
      cbn [endedAt Execute.completeLog].
    + split; [|intros _; reflexivity].
      split; [intros [_ Hdetected]; contradiction | intros [_ Hrunning]; discriminate].
    + split; [|intros _; reflexivity].
      split; [intros [Hyes _]; discriminate | intros [_ Hrunning]; discriminate].
Qed.

End RunFacts.

Section AsyncFacts.

Context {W : Type} (env : Execute.Env W).

(** C7, as amended.  An action output is classified as an in-flight
    asynchronous job exactly when it is an object and either the first
    non-null of its [status], [state], [jobStatus], [job_state] fields is
    a string that, trimmed and lower-cased, is one of the seven markers
    queued, running, processing, pending, in_progress, in-progress,
    started, or a job/task identifier (the first non-null of [jobId],
    [job_id], [taskId], [task_id], a string that is not blank) comes with
    a message (the first non-null of [currentStep], [message],
    [statusMessage], [status_message], a string that is not blank) which,
    trimmed, holds one of the words async, asynchronous, queued,
    processing, running, pending, "in progress" as a whole word, letter
    case apart.  An admitted execution whose tool run returns a result is
    answered as still running (status 202, its row left without end
    timestamp) exactly when that result is a success whose output is so
    classified; otherwise its row is completed. *)
Theorem async_detection_characterised :
  (forall (parse : string -> option Q) (output : option json),
      Execute.detectAsyncExecution parse output <> None
      <-> exists fields,
            output = Some (JObj fields)
            /\ ((exists raw,
                    lookup "status" fields ?? lookup "state" fields
                    ?? lookup "jobStatus" fields ?? lookup "job_state" fields
                    = Some (JStr raw)
                    /\ trim raw <> ""
                    /\ In (toLowerCase (trim raw))
                          ["queued"; "running"; "processing"; "pending";
                           "in_progress"; "in-progress"; "started"])
                \/ (exists rawId rawMessage,
                       lookup "jobId" fields ?? lookup "job_id" fields
                       ?? lookup "taskId" fields ?? lookup "task_id" fields
                       = Some (JStr rawId)
                       /\ trim rawId <> ""
                       /\ lookup "currentStep" fields ?? lookup "message" fields
                          ?? lookup "statusMessage" fields ?? lookup "status_message" fields
                          = Some (JStr rawMessage)
                       /\ trim rawMessage <> ""
                       /\ Stated.MatchesAsyncPattern (trim rawMessage))))
  /\ (forall (serviceContext : CanvasRequestContext) (data : Execute.ExecuteRequest)
             (s : State W) (f1 : Execute.Frame) (uid id rid : string)
             (bc : Execute.BlockConfig) (tool : string) (hp : json) (su ws : string)
             (s2 : State W) (result : Execute.ToolResult),
         Execute.admission env serviceContext data (s, Execute.initialLocals)
         = (f1, inr (Execute.Admit uid id rid bc tool hp su ws)) ->
         Execute.toolRun env serviceContext data uid id rid bc tool hp su ws (fst f1)
         = (s2, inr result) ->
         exists (s' : State W) (response : Response) (row : ExecutionLog),
           Execute.POST env serviceContext (Execute.Decoded data) s = (s', inr response)
           /\ Execute.findExistingExecution id (db s') = Some row
           /\ ((Execute.success result = true
                /\ Execute.detectAsyncExecution (Execute.parseNumber env)
                                                (Execute.output result) <> None)
               <-> (statusOf response = 202 /\ endedAt row = None))
           /\ (statusOf response <> 202 -> endedAt row <> None)).
Proof.
  split; [exact detected_fields|].
  intros serviceContext data s [s1 l1] uid id rid bc tool hp su ws s2 result Hadm Htool.
  destruct (admission_effect env _ _ _ _ _ _ Hadm)
    as (_ & Hdb1 & _ & _ & _ & _ & _ & Hnone & _).
  cbn [fst snd] in *.
  assert (Hnone1 : Execute.findExistingExecution id (db s1) = None)
    by (rewrite Hdb1; exact Hnone).
  destruct (executeStage_answer env serviceContext data (clock s) uid id rid bc tool hp
              su ws s1 s2 l1 result Hnone1 Htool)
    as (f' & response & row & Hstage & Hfind & Hiff & Hdone).
  exists (fst f'), response, row.
  split.
  - unfold Execute.POST, tryCatch. cbn [Execute.tryBlock]. unfold bind at 1.
    rewrite Hadm, Hstage. reflexivity.
  - split; [exact Hfind|]. split; [exact Hiff|].
    intros Hstatus. rewrite (Hdone Hstatus). discriminate.
Qed.

End AsyncFacts.

(** Scenario D: the tool answers a job that is still running; the
    request is answered with 202 and its row stays without end
    timestamp. *)
Lemma async_detection_characterised_witness :
  exists (s' : State (list Execute.Settlement)) (response : Response) (row : ExecutionLog),
    Execute.POST Demo.env Demo.serviceContext
                 (Execute.Decoded (Demo.gmailRequest (Some "exec-1") 30000 false))
                 (Demo.startingWith [Execute.Resolves 10 Demo.jobStarted])
    = (s', inr response)
    /\ Execute.findExistingExecution "exec-1" (db s') = Some row
    /\ ((Execute.success Demo.jobStarted = true
         /\ Execute.detectAsyncExecution (Execute.parseNumber Demo.env)
                                         (Execute.output Demo.jobStarted) <> None)
        <-> (statusOf response = 202 /\ endedAt row = None))
    /\ (statusOf response <> 202 -> endedAt row <> None).
Proof.
  apply (proj2 (async_detection_characterised Demo.env) Demo.serviceContext
           (Demo.gmailRequest (Some "exec-1") 30000 false)
           (Demo.startingWith [Execute.Resolves 10 Demo.jobStarted])
           (Demo.startingWith [Execute.Resolves 10 Demo.jobStarted],
            Execute.setExecutionId "exec-1" Execute.initialLocals)
           "11111111-1111-1111-1111-111111111111" "exec-1" "req-id" Demo.gmail
           "gmail_send" (JObj [("to", JStr "test@example.com")])
           "sim-user-id" "workspace-id"
           Demo.jobToolState Demo.jobStarted);
    reflexivity.
Defined.

Section CatchFacts.

Context {W : Type} (env : Execute.Env W).

Lemma failureResponse_shape :
  forall (e : thrown) (executionId : string) (durationMs : Z),
    isSuccess (Execute.failureResponse e executionId durationMs) = false
    /\ statusOf (Execute.failureResponse e executionId durationMs)
       = (if Execute.isTimeout e then 504 else 500)
    /\ codeOf (Execute.failureResponse e executionId durationMs)
       = Some (if Execute.isTimeout e then "TIMEOUT" else "EXECUTION_FAILED").
Proof.
  intros [message|] executionId durationMs; cbn.
  - destruct (String.eqb message "EXECUTION_TIMEOUT"); repeat split.
  - repeat split.
Qed.

(** The [catch] block: it answers with an error envelope (504 for a
    timeout, 500 otherwise), never invokes the tool, keeps every stored
    execution id, and, when the running row was written and the execution
    id and block type are not empty, marks that row failed. *)
Lemma catchBlock_effect :
  forall (startTime : Z) (e : thrown) (s : State W) (l : Execute.Locals),
    exists s' : State W,
      Execute.catchBlock env startTime e (s, l)
      = ((s', l),
         inr (Execute.failureResponse e (Execute.executionIdVar l) (clock s - startTime)))
      /\ calls s' = calls s
      /\ clock s' = clock s
      /\ (forall id,
             Execute.findExistingExecution id (db s) <> None ->
             Execute.findExistingExecution id (db s') <> None)
      /\ (Execute.mayLogFailure l = true ->
          exists data c cr,
            Execute.findExistingExecution (Execute.executionIdVar l) (db s')
            = option_map
                (Execute.completeLog (clock s) (clock s - startTime) "error" data c cr)
                (Execute.findExistingExecution (Execute.executionIdVar l) (db s))).
Proof.
  intros startTime e s l.
  unfold Execute.catchBlock. rewrite bind_lift. unfold now, gets at 1.
  unfold bind at 1. unfold gets at 1. cbn [snd].
  destruct (Execute.mayLogFailure l).
  - rewrite bind_lift.
    match goal with
    | |- context [Execute.logExecutionCompletion env ?a ?b ?c ?d ?f ?g ?h ?i s] =>
        destruct (logExecutionCompletion_effect env a b c d f g h i s)
          as (s3 & dat & c3 & cr3 & Hlog & (Hcalls3 & _ & Hclock3) & Hfind3 & Hother3);
        rewrite Hlog
    end.
    exists s3. split; [reflexivity|]. split; [exact Hcalls3|]. split; [exact Hclock3|].
    split.
    + intros id Hsome.
      destruct (String.eqb id (Execute.executionIdVar l)) eqn:Heq.
      * apply String.eqb_eq in Heq. subst id. rewrite Hfind3.
        destruct (Execute.findExistingExecution (Execute.executionIdVar l) (db s));
          [discriminate | contradiction].
      * apply String.eqb_neq in Heq. rewrite (Hother3 id Heq). exact Hsome.
    + intros _. exists dat, c3, cr3. exact Hfind3.
  - exists s. split; [reflexivity|]. repeat split; auto. intros; discriminate.
Qed.


End CatchFacts.

Section PostFacts.

Context {W : Type} (env : Execute.Env W).

Lemma Forall_repeat :
  forall (A : Type) (P : A -> Prop) (x : A) (n : nat), P x -> Forall P (repeat x n).
Proof.
  intros A P x n Hx. induction n; cbn; constructor; assumption.
Qed.

(** What answering one request does to the tool log and to the stored
    execution ids: the new invocations all carry one execution id, that
    id was not stored before and is stored afterwards, and no stored id is
    lost. *)
Lemma POST_run_effect :
  forall (serviceContext : CanvasRequestContext) (body : Execute.Body)
         (s s' : State W) (r : thrown + Response),
    Execute.POST env serviceContext body s = (s', r) ->
    exists (id : string) (new : list Call),
      calls s' = calls s ++ new
      /\ Forall (fun c => ctxExecutionId (callContext c) = id) new
      /\ (new <> [] ->
          Execute.findExistingExecution id (db s) = None
          /\ Execute.findExistingExecution id (db s') <> None
          /\ exists data,
               body = Execute.Decoded data
               /\ snd (Execute.chooseExecutionId env (Execute.context data)
                                                 (idempotencyKey serviceContext) s)
                  = inr id)
      /\ (forall id',
             Execute.findExistingExecution id' (db s) <> None ->
             Execute.findExistingExecution id' (db s') <> None).
Proof.
  intros serviceContext body s s' r Hpost.
  unfold Execute.POST, tryCatch in Hpost.
  destruct body as [e|data]; cbn [Execute.tryBlock] in Hpost.
  - unfold throw in Hpost.
    destruct (catchBlock_effect env (clock s) e s Execute.initialLocals)
      as (s3 & Hcatch & Hcalls & _ & Hkeep & _).
    rewrite Hcatch in Hpost. inversion Hpost; subst. cbn [fst].
    exists "", []. rewrite app_nil_r.
    split; [exact Hcalls|]. split; [constructor|]. split; [congruence | exact Hkeep].
  - unfold bind at 1 in Hpost.
    destruct (Execute.admission env serviceContext data (s, Execute.initialLocals))
      as [[s1 l1] [e|admitted]] eqn:Hadm;
      destruct (admission_effect env _ _ _ _ _ _ Hadm)
        as (Hcalls1 & Hdb1 & _ & _ & _ & _ & _ & Hadmit); cbn [fst snd] in *.
    + destruct (catchBlock_effect env (clock s) e s1 l1)
        as (s3 & Hcatch & Hcalls & _ & Hkeep & _).
      rewrite Hcatch in Hpost. inversion Hpost; subst. cbn [fst].
      exists "", []. rewrite app_nil_r.
      split; [congruence|]. split; [constructor|]. split; [congruence|].
      intros id' Hsome. apply Hkeep. rewrite Hdb1. exact Hsome.
    + destruct admitted as [response | uid id rid bc tool hp su ws].
      * unfold ret in Hpost. inversion Hpost; subst. cbn [fst].
        exists "", []. rewrite app_nil_r.
        split; [congruence|]. split; [constructor|]. split; [congruence|].
        intros id' Hsome. rewrite Hdb1. exact Hsome.
      * destruct Hadmit as (Hnone & _ & _ & Hchosen).
        destruct (Execute.executeStage env serviceContext data (clock s) uid id rid bc
                                       tool hp su ws (s1, l1))
          as [f2 r2] eqn:Hstage.
        assert (Hnone1 : Execute.findExistingExecution id (db s1) = None)
          by (rewrite Hdb1; exact Hnone).
        destruct (executeStage_effect env _ _ _ _ _ _ _ _ _ _ _ _ _ _ _ Hnone1 Hstage)
          as (toolInputs & payload & s1' & row & [Hcalls1' _] & _ & Hfind1 & Hother1 & Hrun).
        retry_cases s2 e result Heffect.
        -- destruct Hrun as [Hr Hf2]. subst r2 f2.
           destruct Heffect as (n & Hn & Hcalls2 & Hdb2 & _).
           match type of Hpost with
           | context [Execute.catchBlock env ?t e (s2, ?l)] =>
               destruct (catchBlock_effect env t e s2 l)
                 as (s3 & Hcatch & Hcalls & _ & Hkeep & _)
           end.
           rewrite Hcatch in Hpost. inversion Hpost; subst. cbn [fst].
           exists id. eexists.
           split; [rewrite Hcalls, Hcalls2, Hcalls1', Hcalls1; reflexivity|].
           split; [apply Forall_repeat; reflexivity|].
           split.
           ++ intros _. split; [exact Hnone|]. split.
              ** apply Hkeep. rewrite Hdb2, Hfind1. discriminate.
              ** exists data. split; [reflexivity | exact Hchosen].
           ++ intros id' Hsome. apply Hkeep. rewrite Hdb2.
              destruct (String.eqb id' id) eqn:Heq.
              ** apply String.eqb_eq in Heq. subst id'. rewrite Hfind1. discriminate.
              ** apply String.eqb_neq in Heq. rewrite (Hother1 id' Heq), Hdb1. exact Hsome.
        -- destruct Hrun as (Hcalls3 & (row' & response & Hfind3 & Hr & _) & Hother3).
           subst r2.
           destruct Heffect as (n & Hn & Hcalls2 & Hdb2 & _).
           inversion Hpost; subst.
           exists id. eexists.
           split; [rewrite Hcalls3, Hcalls2, Hcalls1', Hcalls1; reflexivity|].
           split; [apply Forall_repeat; reflexivity|].
           split.
           ++ intros _. split; [exact Hnone|]. split.
              ** rewrite Hfind3. discriminate.
              ** exists data. split; [reflexivity | exact Hchosen].
           ++ intros id' Hsome.
              destruct (String.eqb id' id) eqn:Heq.
              ** apply String.eqb_eq in Heq. subst id'. rewrite Hfind3. discriminate.
              ** apply String.eqb_neq in Heq.
                 rewrite (Hother3 id' Heq), Hdb2, (Hother1 id' Heq), Hdb1. exact Hsome.
Qed.

End PostFacts.

(** ** Replay, timeouts and the at-most-one-request guarantee *)

Section GuaranteeFacts.

Context {W : Type} (env : Execute.Env W).

(** A valid request whose execution id is stored is answered from the
    stored row, and only the identifier stream may have moved. *)
Lemma POST_replay :
  forall (serviceContext : CanvasRequestContext) (data : Execute.ExecuteRequest)
         (s : State W) (uid id : string) (existing : ExecutionLog),
    Execute.validRequest data = true ->
    canvasUserId serviceContext = Some uid ->
    uid <> "" ->
    snd (Execute.chooseExecutionId env (Execute.context data)
                                   (idempotencyKey serviceContext) s) = inr id ->
    Execute.findExistingExecution id (db s) = Some existing ->
    Execute.POST env serviceContext (Execute.Decoded data) s
    = (fst (Execute.chooseExecutionId env (Execute.context data)
                                      (idempotencyKey serviceContext) s),
       inr (Execute.buildExecutionStatusResponse env existing id)).
Proof.
  intros serviceContext data s uid id existing Hvalid Huid Hne Hid Hfind.
  destruct (chooseExecutionId_effect env (Execute.context data)
              (idempotencyKey serviceContext) s)
    as (s0 & id0 & Hchoose & Hdb & _).
  rewrite Hchoose in *. cbn [fst snd] in *. inversion Hid; subst id0.
  unfold Execute.POST, tryCatch. cbn [Execute.tryBlock]. unfold bind at 1.
  rewrite (admission_replay env serviceContext data s s0 Execute.initialLocals uid id
             existing Hvalid Huid Hne Hchoose)
    by (rewrite Hdb; exact Hfind).
  reflexivity.
Qed.

Lemma executeWithTimeout_late :
  forall (tool : string) (toolInputs : json) (ctx : ExecutionContext) (timeoutMs : Z)
         (s : State W),
    Execute.settlesAfter timeoutMs (snd (Execute.executeTool env (world s) tool toolInputs ctx))
    = true ->
    snd (Execute.executeWithTimeout env tool toolInputs ctx timeoutMs s)
    = inl (ErrorObj "EXECUTION_TIMEOUT")
    /\ world (fst (Execute.executeWithTimeout env tool toolInputs ctx timeoutMs s))
       = fst (Execute.executeTool env (world s) tool toolInputs ctx).
Proof.
  intros tool toolInputs ctx timeoutMs s. unfold Execute.executeWithTimeout.
  destruct (Execute.executeTool env (world s) tool toolInputs ctx)
    as [w' [ms result | ms e | ]]; cbn [fst snd Execute.settlesAfter];
    try (destruct (ms <? timeoutMs); cbn; intros; split; congruence).
  intros _. split; reflexivity.
Qed.

(** When the calls do not settle before the timer, [executeWithRetry]
    throws the timeout, with or without auto-retry. *)
Lemma executeWithRetry_late :
  forall (tool : string) (toolInputs : json) (ctx : ExecutionContext) (timeoutMs : Z)
         (retry : bool) (s : State W),
    Execute.nextCallsLate env timeoutMs (world s) ->
    snd (Execute.executeWithRetry env tool toolInputs ctx timeoutMs retry s)
    = inl (ErrorObj "EXECUTION_TIMEOUT").
Proof.
  intros tool toolInputs ctx timeoutMs retry s Hlate.
  destruct (Hlate tool toolInputs ctx) as [Hfirst Hsecond].
  unfold Execute.executeWithRetry, tryCatch, bind.
  destruct (executeWithTimeout_late tool toolInputs ctx timeoutMs s Hfirst) as [H1 Hw].
  destruct (Execute.executeWithTimeout env tool toolInputs ctx timeoutMs s)
    as [s1 [e|result]]; cbn [fst snd] in H1, Hw; [|discriminate].
  inversion H1; subst e.
  destruct retry; [|reflexivity].
  apply executeWithTimeout_late. rewrite Hw. exact Hsecond.
Qed.


End GuaranteeFacts.



Section SequenceFacts.

Context {W : Type} (env : Execute.Env W).

Lemma skipn_exact :
  forall (A : Type) (l new : list A), skipn (length l) (l ++ new) = new.
Proof.
  induction l as [|a l IH]; intros new; cbn; [reflexivity | apply IH].
Qed.

Lemma handle_effect :
  forall (s : State W) (r : Execute.Request),
    exists (id : string) (new : list Call),
      Execute.newCalls s (Execute.handle env s r) = new
      /\ Forall (fun c => ctxExecutionId (callContext c) = id) new
      /\ (new <> [] ->
          Execute.findExistingExecution id (db s) = None
          /\ Execute.findExistingExecution id (db (Execute.handle env s r)) <> None)
      /\ (forall id',
             Execute.findExistingExecution id' (db s) <> None ->
             Execute.findExistingExecution id' (db (Execute.handle env s r)) <> None).
Proof.
  intros s r. unfold Execute.handle, Execute.newCalls.
  destruct (Execute.POST env (Execute.requestContext r) (Execute.requestBody r)
              {| db := db s; entropy := entropy s; clock := clock s + Execute.idleMs r;
                 world := world s; calls := calls s |})
    as [s' response] eqn:Hpost.
  destruct (POST_run_effect env _ _ _ _ _ Hpost) as (id & new & Hcalls & Hall & Hnew & Hkeep).
  cbn [db calls fst] in *.
  exists id, new. rewrite Hcalls, skipn_exact.
  split; [reflexivity|]. split; [exact Hall|]. split; [|exact Hkeep].
  intros Hne. destruct (Hnew Hne) as (H1 & H2 & _). split; assumption.
Qed.

(** A request does not invoke the tool for a stored execution id. *)
Lemma stored_not_invoked :
  forall (id : string) (s : State W) (r : Execute.Request),
    Execute.findExistingExecution id (db s) <> None ->
    Execute.invokes env id s r = false.
Proof.
  intros id s r Hstored. unfold Execute.invokes.
  destruct (handle_effect s r) as (id0 & new & Hnew & Hall & Hfresh & _).
  rewrite Hnew. destruct new as [|c new]; [reflexivity|].
  destruct Hfresh as [Hnone _]; [discriminate|].
  apply Bool.not_true_is_false. intros Hex.
  apply existsb_exists in Hex. destruct Hex as (c' & Hin & Hfor).
  rewrite Forall_forall in Hall. specialize (Hall c' Hin).
  unfold Execute.isFor in Hfor. apply String.eqb_eq in Hfor. congruence.
Qed.

(** A request that invokes the tool for an execution id leaves that id
    stored. *)
Lemma invoked_is_stored :
  forall (id : string) (s : State W) (r : Execute.Request),
    Execute.invokes env id s r = true ->
    Execute.findExistingExecution id (db (Execute.handle env s r)) <> None.
Proof.
  intros id s r Hinv. unfold Execute.invokes in Hinv.
  destruct (handle_effect s r) as (id0 & new & Hnew & Hall & Hfresh & _).
  rewrite Hnew in Hinv.
  apply existsb_exists in Hinv. destruct Hinv as (c & Hin & Hfor).
  rewrite Forall_forall in Hall. specialize (Hall c Hin).
  unfold Execute.isFor in Hfor. apply String.eqb_eq in Hfor.
  assert (Hne : new <> []) by (intros ->; contradiction).
  destruct (Hfresh Hne) as [_ Hstored]. congruence.
Qed.

Lemma stored_stays_stored :
  forall (id : string) (s : State W) (r : Execute.Request),
    Execute.findExistingExecution id (db s) <> None ->
    Execute.findExistingExecution id (db (Execute.handle env s r)) <> None.
Proof.
  intros id s r Hstored.
  destruct (handle_effect s r) as (_ & _ & _ & _ & _ & Hkeep). apply Hkeep. exact Hstored.
Qed.

Lemma stored_never_invoked :
  forall (id : string) (rs : list Execute.Request) (s : State W),
    Execute.findExistingExecution id (db s) <> None ->
    Execute.invokingRequests env id s rs = 0%nat.
Proof.
  intros id rs. induction rs as [|r rs IH]; intros s Hstored; cbn; [reflexivity|].
  rewrite (stored_not_invoked id s r Hstored).
  rewrite (IH _ (stored_stays_stored id s r Hstored)). reflexivity.
Qed.

(** In any sequence of requests at most one invokes the tool for a given
    execution id. *)
Lemma at_most_one_invoking_request :
  forall (id : string) (rs : list Execute.Request) (s : State W),
    (Execute.invokingRequests env id s rs <= 1)%nat.
Proof.
  intros id rs. induction rs as [|r rs IH]; intros s; cbn; [lia|].
  destruct (Execute.invokes env id s r) eqn:Hinv.
  - rewrite (stored_never_invoked id rs _ (invoked_is_stored id s r Hinv)). lia.
  - apply IH.
Qed.

Lemma replayed_payload :
  forall (existing : ExecutionLog) (id : string),
    (endedAt existing = None ->
     exists payload,
       Execute.buildExecutionStatusResponse env existing id = SuccessEnvelope 202 payload
       /\ prop payload "status" = Some (JStr "running"))
    /\ (forall ended,
           endedAt existing = Some ended ->
           exists payload,
             Execute.buildExecutionStatusResponse env existing id
             = SuccessEnvelope 200 payload
             /\ prop payload "status"
                = Some (JStr (if String.eqb (level existing) "error"
                              then "failed" else "completed"))
             /\ prop payload "output"
                = optProp (optProp (Some (executionData existing)) "response") "output"
                  ?? Some (JObj [])).
Proof.
  intros existing id. unfold Execute.buildExecutionStatusResponse. split.
  - intros Hnone. rewrite Hnone. eexists. split; [reflexivity|].
    apply lookup_status_third.
  - intros ended Hended. rewrite Hended. eexists. split; [reflexivity|].
    split; [apply lookup_status_third|].
    rewrite !optProp_default_object.
    destruct (optProp (optProp (Some (executionData existing)) "response") "blockType"
              ?? optProp (optProp (Some (executionData existing)) "request") "blockType"
              ?? str "unknown");
      destruct (optProp (optProp (Some (executionData existing)) "response") "output")
        as [[ | | | | | ]|];
      reflexivity.
Qed.

(** C1, as amended.  A valid execute request whose execution id matches
    a stored record is answered from that record and the action is not
    invoked: a record without end timestamp gives a ['running'] payload
    (status 202), a terminal record gives the stored output with status
    ['completed'] or ['failed'] according to its level (status 200);
    nothing is written.  Hence, in any sequence of requests, at most one
    request invokes the action for that execution id. *)
Theorem stored_execution_is_replayed :
  forall (serviceContext : CanvasRequestContext) (data : Execute.ExecuteRequest)
         (s : State W) (uid id : string) (existing : ExecutionLog),
    Execute.validRequest data = true ->
    canvasUserId serviceContext = Some uid ->
    uid <> "" ->
    snd (Execute.chooseExecutionId env (Execute.context data)
                                   (idempotencyKey serviceContext) s) = inr id ->
    Execute.findExistingExecution id (db s) = Some existing ->
    snd (Execute.POST env serviceContext (Execute.Decoded data) s)
    = inr (Execute.buildExecutionStatusResponse env existing id)
    /\ calls (fst (Execute.POST env serviceContext (Execute.Decoded data) s)) = calls s
    /\ db (fst (Execute.POST env serviceContext (Execute.Decoded data) s)) = db s
    /\ (endedAt existing = None ->
        exists payload,
          Execute.buildExecutionStatusResponse env existing id = SuccessEnvelope 202 payload
          /\ prop payload "status" = Some (JStr "running"))
    /\ (forall ended,
           endedAt existing = Some ended ->
           exists payload,
             Execute.buildExecutionStatusResponse env existing id
             = SuccessEnvelope 200 payload
             /\ prop payload "status"
                = Some (JStr (if String.eqb (level existing) "error"
                              then "failed" else "completed"))
             /\ prop payload "output"
                = optProp (optProp (Some (executionData existing)) "response") "output"
                  ?? Some (JObj []))
    /\ (forall (s0 : State W) (rs : list Execute.Request),
           (Execute.invokingRequests env id s0 rs <= 1)%nat).
Proof.
  intros serviceContext data s uid id existing Hvalid Huid Hne Hid Hfind.
  rewrite (POST_replay env serviceContext data s uid id existing Hvalid Huid Hne Hid Hfind).
  cbn [fst snd].
  destruct (chooseExecutionId_effect env (Execute.context data)
              (idempotencyKey serviceContext) s)
    as (s0 & id0 & Hchoose & Hdb & Hcalls & _).
  rewrite Hchoose. cbn [fst].
  split; [reflexivity|]. split; [exact Hcalls|]. split; [exact Hdb|].
  destruct (replayed_payload existing id) as [Hrunning Hterminal].
  split; [exact Hrunning|]. split; [exact Hterminal|].
  intros s1 rs. apply at_most_one_invoking_request.
Qed.

(** An admitted request leaves a row under its execution id. *)
Lemma admitted_is_stored :
  forall (serviceContext : CanvasRequestContext) (data : Execute.ExecuteRequest)
         (s : State W) (f1 : Execute.Frame) (uid id rid : string)
         (bc : Execute.BlockConfig) (tool : string) (hp : json) (su ws : string),
    Execute.admission env serviceContext data (s, Execute.initialLocals)
    = (f1, inr (Execute.Admit uid id rid bc tool hp su ws)) ->
    Execute.findExistingExecution
      id (db (fst (Execute.POST env serviceContext (Execute.Decoded data) s)))
    <> None.
Proof.
  intros serviceContext data s [s1 l1] uid id rid bc tool hp su ws Hadm.
  destruct (admission_effect env _ _ _ _ _ _ Hadm)
    as (_ & Hdb1 & _ & _ & _ & _ & _ & Hnone & _).
  cbn [fst snd] in *.
  assert (Hnone1 : Execute.findExistingExecution id (db s1) = None)
    by (rewrite Hdb1; exact Hnone).
  unfold Execute.POST, tryCatch. cbn [Execute.tryBlock]. unfold bind at 1. rewrite Hadm.
  destruct (Execute.toolRun env serviceContext data uid id rid bc tool hp su ws s1)
    as [s2 [e|result]] eqn:Htool.
  - destruct (executeStage_thrown env serviceContext data (clock s) uid id rid bc tool hp
                su ws s1 s2 l1 e Hnone1 Htool) as [Hstage (row & Hfind & _)].
    rewrite Hstage.
    match goal with
    | |- context [Execute.catchBlock env ?t e (s2, ?l)] =>
        destruct (catchBlock_effect env t e s2 l) as (s3 & Hcatch & _ & _ & Hkeep & _)
    end.
    rewrite Hcatch. cbn [fst]. apply Hkeep. rewrite Hfind. discriminate.
  - destruct (executeStage_answer env serviceContext data (clock s) uid id rid bc tool
                hp su ws s1 s2 l1 result Hnone1 Htool)
      as (f' & response & row & Hstage & Hfind & _).
    rewrite Hstage. cbn [fst]. rewrite Hfind. discriminate.
Qed.

(** C9.  The execution id is chosen by a fixed fallback chain: the
    caller's [context.executionId] if it is given, otherwise the
    idempotency key if it is given, otherwise a fresh UUID.  An admitted
    request is recorded under that id.  A later valid request is answered
    from the row stored under its [context.executionId], whatever its
    idempotency key; and a request that names no execution id is
    answered from the row stored under its idempotency key, so the key
    alone makes two requests share one record. *)
Theorem execution_id_fallback_chain :
  forall (serviceContext : CanvasRequestContext) (data : Execute.ExecuteRequest)
         (s : State W),
    (forall (f1 : Execute.Frame) (uid id rid : string) (bc : Execute.BlockConfig)
            (tool : string) (hp : json) (su ws : string),
        Execute.admission env serviceContext data (s, Execute.initialLocals)
        = (f1, inr (Execute.Admit uid id rid bc tool hp su ws)) ->
        (forall c x,
            Execute.context data = Some c -> Execute.reqExecutionId c = Some x -> id = x)
        /\ ((forall c, Execute.context data = Some c -> Execute.reqExecutionId c = None) ->
            (forall key, idempotencyKey serviceContext = Some key -> id = key)
            /\ (idempotencyKey serviceContext = None ->
                id = Execute.uuids env (entropy s)))
        /\ Execute.findExistingExecution id (db s) = None
        /\ Execute.findExistingExecution
             id (db (fst (Execute.POST env serviceContext (Execute.Decoded data) s)))
           <> None)
    /\ (forall (c : Execute.RequestContext) (id uid : string) (existing : ExecutionLog),
           Execute.validRequest data = true ->
           canvasUserId serviceContext = Some uid ->
           uid <> "" ->
           Execute.context data = Some c ->
           Execute.reqExecutionId c = Some id ->
           Execute.findExistingExecution id (db s) = Some existing ->
           Execute.POST env serviceContext (Execute.Decoded data) s
           = (s, inr (Execute.buildExecutionStatusResponse env existing id)))
    /\ (forall (key uid : string) (existing : ExecutionLog),
           Execute.validRequest data = true ->
           canvasUserId serviceContext = Some uid ->
           uid <> "" ->
           (forall c, Execute.context data = Some c -> Execute.reqExecutionId c = None) ->
           idempotencyKey serviceContext = Some key ->
           Execute.findExistingExecution key (db s) = Some existing ->
           Execute.POST env serviceContext (Execute.Decoded data) s
           = (s, inr (Execute.buildExecutionStatusResponse env existing key))).
Proof.
  intros serviceContext data s.
  assert (Hnamed :
            forall c x,
              Execute.context data = Some c -> Execute.reqExecutionId c = Some x ->
              Execute.chooseExecutionId env (Execute.context data)
                                        (idempotencyKey serviceContext) s
              = (s, inr x)).
  { intros c x Hc Hx. unfold Execute.chooseExecutionId, Execute.executionIdOf.
    rewrite Hc, Hx. reflexivity. }
  assert (Hunnamed :
            (forall c, Execute.context data = Some c -> Execute.reqExecutionId c = None) ->
            Execute.chooseExecutionId env (Execute.context data)
                                      (idempotencyKey serviceContext) s
            = match idempotencyKey serviceContext with
              | Some key => (s, inr key)
              | None => randomUUID (Execute.uuids env) s
              end).
  { intros Hnone. unfold Execute.chooseExecutionId, Execute.executionIdOf.
    destruct (Execute.context data) as [c|].
    - rewrite (Hnone c eq_refl). destruct (idempotencyKey serviceContext); reflexivity.
    - destruct (idempotencyKey serviceContext); reflexivity. }
  split; [|split].
  - intros f1 uid id rid bc tool hp su ws Hadm.
    destruct (admission_effect env _ _ _ _ _ _ Hadm)
      as (_ & _ & _ & _ & _ & _ & _ & Hnone & _ & _ & Hchosen).
    split.
    + intros c x Hc Hx. rewrite (Hnamed c x Hc Hx) in Hchosen.
      injection Hchosen as ->. reflexivity.
    + split; [|split; [exact Hnone | exact (admitted_is_stored _ _ _ _ _ _ _ _ _ _ _ _ Hadm)]].
      intros Hunset. rewrite (Hunnamed Hunset) in Hchosen. split.
      * intros key Hkey. rewrite Hkey in Hchosen. injection Hchosen as ->. reflexivity.
      * intros Hkey. rewrite Hkey in Hchosen. injection Hchosen as ->. reflexivity.
  - intros c id uid existing Hvalid Huid Hne Hc Hx Hfind.
    pose proof (Hnamed c id Hc Hx) as Hchoose.
    assert (Hid :
      snd (Execute.chooseExecutionId env (Execute.context data)
                                     (idempotencyKey serviceContext) s) = inr id)
      by (rewrite Hchoose; reflexivity).
    rewrite (POST_replay env serviceContext data s uid id existing
               Hvalid Huid Hne Hid Hfind).
    rewrite Hchoose. reflexivity.
  - intros key uid existing Hvalid Huid Hne Hunset Hkey Hfind.
    assert (Hchoose :
      Execute.chooseExecutionId env (Execute.context data) (idempotencyKey serviceContext) s
      = (s, inr key))
      by (rewrite (Hunnamed Hunset), Hkey; reflexivity).
    assert (Hid :
      snd (Execute.chooseExecutionId env (Execute.context data)
                                     (idempotencyKey serviceContext) s) = inr key)
      by (rewrite Hchoose; reflexivity).
    rewrite (POST_replay env serviceContext data s uid key existing
               Hvalid Huid Hne Hid Hfind).
    rewrite Hchoose. reflexivity.
Qed.

End SequenceFacts.

(** The request of [Demo.timedOutRun] sent again: it is answered from
    the stored row and the tool is not invoked. *)
Lemma stored_execution_is_replayed_witness :
  snd (Execute.POST Demo.env Demo.serviceContext
                    (Execute.Decoded (Demo.gmailRequest (Some "exec-1") 1000 false))
                    Demo.afterTimeout)
  = inr (Execute.buildExecutionStatusResponse Demo.env Demo.timedOutRow "exec-1")
  /\ calls (fst (Execute.POST Demo.env Demo.serviceContext
                              (Execute.Decoded (Demo.gmailRequest (Some "exec-1") 1000 false))
                              Demo.afterTimeout))
     = calls Demo.afterTimeout.
Proof.
  pose proof (stored_execution_is_replayed Demo.env Demo.serviceContext
                (Demo.gmailRequest (Some "exec-1") 1000 false) Demo.afterTimeout
                "11111111-1111-1111-1111-111111111111" "exec-1" Demo.timedOutRow) as H.
  destruct H as (Hreply & Hcalls & _);
    [reflexivity | reflexivity | discriminate | reflexivity | reflexivity |].
  split; [exact Hreply | exact Hcalls].
Defined.

(** C1, as stated, fails: a single request with auto-retry whose first
    attempt reports a failure invokes the action twice for its execution
    id. *)
Lemma retry_invokes_the_action_twice :
  Execute.invocations "exec-1"
    (Execute.serve Demo.env
       (Demo.startingWith [Execute.Resolves 10 (Demo.failure "boom");
                           Execute.Resolves 5 Demo.sent])
       [Demo.retriedRequest])
  = 2%nat.
Proof.
  reflexivity.
Qed.

(** The database holds a row under ["exec-1"] and one under the
    idempotency key ["idem-key"].  A request that names ["exec-1"] and
    carries the key is answered from the row of ["exec-1"]; a request
    that carries only the key is answered from the row of the key. *)
Lemma execution_id_fallback_chain_witness :
  Execute.POST Demo.env Demo.serviceContext
               (Execute.Decoded (Demo.gmailRequest (Some "exec-1") 1000 false))
               Demo.afterBoth
  = (Demo.afterBoth,
     inr (Execute.buildExecutionStatusResponse Demo.env Demo.timedOutRow "exec-1"))
  /\ Execute.POST Demo.env Demo.serviceContext (Execute.Decoded Demo.keyedRequest)
                  Demo.afterBoth
     = (Demo.afterBoth,
        inr (Execute.buildExecutionStatusResponse Demo.env Demo.keyedRowOfBoth "idem-key")).
Proof.
  split.
  - apply (proj1 (proj2 (execution_id_fallback_chain
                           Demo.env Demo.serviceContext
                           (Demo.gmailRequest (Some "exec-1") 1000 false) Demo.afterBoth))
             {| Execute.reqWorkflowId := None; Execute.reqExecutionId := Some "exec-1";
                Execute.reqNodeId := None |}
             "exec-1" "11111111-1111-1111-1111-111111111111" Demo.timedOutRow);
      try reflexivity.
    discriminate.
  - apply (proj2 (proj2 (execution_id_fallback_chain
                           Demo.env Demo.serviceContext Demo.keyedRequest Demo.afterBoth))
             "idem-key" "11111111-1111-1111-1111-111111111111" Demo.keyedRowOfBoth);
      try reflexivity.
    + discriminate.
    + intros c Hc. injection Hc as <-. reflexivity.
Defined.

(** ** The answer to a failed execution and its replay *)

Section ReplayFacts.

Context {W : Type} (env : Execute.Env W).



End ReplayFacts.


(** ** Provisioning *)

Section ProvisionFacts.

Context {W : Type} (env : Provision.Env).

Lemma find_app_last :
  forall (A : Type) (p : A -> bool) (l : list A) (x : A),
    p x = true -> exists y, find p (l ++ [x]) = Some y.
Proof.
  induction l as [|a l IH]; intros x Hx; cbn.
  - rewrite Hx. eexists. reflexivity.
  - destruct (p a); [eexists; reflexivity | apply IH; exact Hx].
Qed.

(** Linking to an account that exists: the new link is the one found. *)
Lemma firstLink_after_link :
  forall (cid : string) (us : list User) (accts : list Account) (a : Account) (u : User),
    Provision.firstLink cid us accts = None ->
    Provision.linksTo cid a = true ->
    In u us -> accountUserId a = userId u ->
    exists l, Provision.firstLink cid us (accts ++ [a]) = Some l
              /\ Provision.foundUserId l = accountUserId a.
Proof.
  intros cid us accts a u Hnone Hlinks Hin Hid.
  induction accts as [|b accts IH]; cbn in *.
  - rewrite Hlinks. unfold Provision.joinUser.
    destruct (find (fun u0 => String.eqb (accountUserId a) (userId u0)) us) as [u'|] eqn:E.
    + eexists. split; reflexivity.
    + apply (find_none _ _ E) in Hin. rewrite Hid, String.eqb_refl in Hin. discriminate.
  - destruct (Provision.linksTo cid b).
    + destruct (Provision.joinUser us b); [discriminate | apply IH; exact Hnone].
    + apply IH. exact Hnone.
Qed.

(** Creating the account and its link together: whichever link is found
    afterwards points at the new user. *)
Lemma firstLink_after_creation :
  forall (cid : string) (us : list User) (accts : list Account) (a : Account) (u : User),
    Provision.firstLink cid us accts = None ->
    Provision.linksTo cid a = true ->
    accountUserId a = userId u ->
    exists l, Provision.firstLink cid (us ++ [u]) (accts ++ [a]) = Some l
              /\ Provision.foundUserId l = userId u.
Proof.
  intros cid us accts a u Hnone Hlinks Hid.
  induction accts as [|b accts IH]; cbn in *.
  - rewrite Hlinks. unfold Provision.joinUser.
    destruct (find_app_last _ (fun u0 => String.eqb (accountUserId a) (userId u0)) us u)
      as [u' E]; [rewrite Hid; apply String.eqb_refl|].
    rewrite E. eexists. split; [reflexivity | exact Hid].
  - destruct (Provision.linksTo cid b).
    + unfold Provision.joinUser in *.
      destruct (find (fun u0 => String.eqb (accountUserId b) (userId u0)) us) eqn:E;
        [discriminate|].
      rewrite (find_app_none _ _ _ u E).
      destruct (String.eqb (accountUserId b) (userId u)) eqn:Hb.
      * apply String.eqb_eq in Hb. eexists. split; [reflexivity | exact Hb].
      * apply IH. exact Hnone.
    + apply IH. exact Hnone.
Qed.



(** After a successful provisioning call, the external id is linked to
    the internal user id the call returned. *)
Lemma POST_links :
  forall (context : CanvasRequestContext) (data : Provision.UserProvisioningRequest)
         (s s1 : State W) (status : Z) (payload : json),
    Provision.POST env context (Provision.Decoded data) s
    = (s1, inr (SuccessEnvelope status payload)) ->
    exists l,
      Provision.findExistingCanvasLink (Provision.reqCanvasUserId data) (db s1) = Some l
      /\ prop payload "simUserId" = Some (JStr (Provision.foundUserId l)).
Proof.
  intros context data s s1 status payload Hpost.
  unfold Provision.POST, tryCatch in Hpost.
  destruct (Provision.validRequest env data); cbn [negb] in Hpost;
    [|discriminate Hpost].
  unfold bind at 1 in Hpost. unfold gets at 1 in Hpost.
  destruct (Provision.findExistingCanvasLink (Provision.reqCanvasUserId data) (db s))
    as [l|] eqn:Hlink.
  - inversion Hpost; subst. exists l. split; [exact Hlink | reflexivity].
  - unfold bind at 1 in Hpost. unfold gets at 1 in Hpost.
    destruct (Provision.findUserByEmail (Provision.reqEmail data) (db s)) as [u|] eqn:Huser.
    + unfold Provision.createCanvasAccountLink, bind, randomUUID, now, gets, updateDb,
        modify, setDb, ret in Hpost.
      cbn [db entropy clock world calls fst snd] in Hpost.
      inversion Hpost; subst. clear Hpost. cbn [db].
      unfold Provision.findExistingCanvasLink in *. cbn [accounts users insertAccount].
      unfold Provision.findUserByEmail in Huser. apply find_some in Huser.
      destruct Huser as [Hin _].
      match goal with
      | |- context [accounts (db s) ++ [?a]] =>
          destruct (firstLink_after_link (Provision.reqCanvasUserId data) (users (db s))
                      (accounts (db s)) a u Hlink) as (l & Hl & Hid);
            [unfold Provision.linksTo; cbn; rewrite String.eqb_refl; reflexivity
            | exact Hin | reflexivity |]
      end.
      exists l. split; [exact Hl|]. rewrite Hid. reflexivity.
    + unfold Provision.createNewSimUser, bind, randomUUID, now, gets, updateDb,
        modify, setDb, ret in Hpost.
      cbn [db entropy clock world calls] in Hpost.
      unfold Provision.findExistingCanvasLink in *.
      match type of Hpost with
      | context [insertUser ?u (db s)] =>
          match type of Hpost with
          | context [insertAccount ?a _] =>
              destruct (firstLink_after_creation (Provision.reqCanvasUserId data)
                          (users (db s)) (accounts (db s)) a u Hlink)
                as (l & Hl & Hid);
                [unfold Provision.linksTo; cbn; rewrite String.eqb_refl; reflexivity
                | reflexivity |]
          end
      end.
      destruct (Provision.saveWorkflowFails env (Provision.uuids env (S (S (entropy s)))));
        inversion Hpost; subst; clear Hpost;
        (exists l; split; [exact Hl | rewrite Hid; reflexivity]).
Qed.


End ProvisionFacts.


(* ===================================================================== *)
(** * Further properties of the handlers and their helpers *)
(* ===================================================================== *)

(** ** Pagination and the block listing *)



(** What [parsePaginationParams] can return. *)
Lemma parsePaginationParams_shape :
  forall (parseInt : string -> Integral) (get : string -> option string),
    let p := Pagination.parsePaginationParams parseInt get in
    (exists l, Pagination.limit p = Finite l /\ 1 <= l <= Pagination.MAX_LIMIT)
    /\ (Pagination.offset p = PlusInfinity
        \/ exists o, Pagination.offset p = Finite o /\ 0 <= o).
Proof.
  intros parseInt get. unfold Pagination.parsePaginationParams.
  cbn [Pagination.limit Pagination.offset]. unfold Pagination.MAX_LIMIT. split.
  - destruct (Pagination.parsedOr parseInt (get "limit") Pagination.DEFAULT_LIMIT)
      as [|z| |]; cbn [isNaN lessThan orb].
    + exists 50. split; [reflexivity | lia].
    + destruct (Z.ltb_spec z 1); cbn [lessThan].
      * exists 50. split; [reflexivity | lia].
      * destruct (Z.ltb_spec 100 z).
        -- exists 100. split; [reflexivity | lia].
        -- exists z. split; [reflexivity | lia].
    + exists 100. split; [reflexivity | lia].
    + exists 50. split; [reflexivity | lia].
  - destruct (Pagination.parsedOr parseInt (get "offset") 0) as [|z| |];
      cbn [isNaN lessThan orb].
    + right. exists 0. split; [reflexivity | lia].
    + destruct (Z.ltb_spec z 0).
      * right. exists 0. split; [reflexivity | lia].
      * right. exists z. split; [reflexivity | lia].
    + left. reflexivity.
    + right. exists 0. split; [reflexivity | lia].
Qed.

(** X4.  Whatever the query string holds and whatever [Number.parseInt]
    makes of it, [parsePaginationParams] returns an integer limit between
    1 and 100 and an offset that is not negative.  A limit that parses
    to an integer below 1 becomes the default of 50, one above 100
    becomes 100; an offset that parses to a negative integer becomes 0. *)
Theorem pagination_params_within_bounds :
  forall (parseInt : string -> Integral) (get : string -> option string),
    (exists l : Z,
        Pagination.limit (Pagination.parsePaginationParams parseInt get) = Finite l
        /\ 1 <= l <= 100)
    /\ (Pagination.offset (Pagination.parsePaginationParams parseInt get) = PlusInfinity
        \/ exists o : Z,
            Pagination.offset (Pagination.parsePaginationParams parseInt get) = Finite o
            /\ 0 <= o)
    /\ (forall (v : string) (l : Z),
           get "limit" = Some v -> v <> "" -> parseInt v = Finite l ->
           Pagination.limit (Pagination.parsePaginationParams parseInt get)
           = Finite (if l <? 1 then 50 else Z.min l 100))
    /\ (forall (v : string) (o : Z),
           get "offset" = Some v -> v <> "" -> parseInt v = Finite o ->
           Pagination.offset (Pagination.parsePaginationParams parseInt get)
           = Finite (Z.max o 0)).
Proof.
  intros parseInt get.
  destruct (parsePaginationParams_shape parseInt get) as [(l & Hl & Hbound) Hoffset].
  unfold Pagination.MAX_LIMIT in Hbound.
  split; [exists l; split; [exact Hl | exact Hbound]|].
  split; [exact Hoffset|].
  unfold Pagination.parsePaginationParams, Pagination.parsedOr.
  cbn [Pagination.limit Pagination.offset].
  unfold Pagination.MAX_LIMIT, Pagination.DEFAULT_LIMIT. split.
  - intros v l' Hget Hv Hparse. rewrite Hget.
    destruct (String.eqb_spec v "") as [?|_]; [contradiction|].
    rewrite Hparse. cbn [isNaN lessThan orb].
    destruct (Z.ltb_spec l' 1) as [Hlow|Hhigh]; cbn [lessThan].
    + reflexivity.
    + destruct (Z.ltb_spec 100 l'); f_equal; lia.
  - intros v o Hget Hv Hparse. rewrite Hget.
    destruct (String.eqb_spec v "") as [?|_]; [contradiction|].
    rewrite Hparse. cbn [isNaN lessThan orb].
    destruct (Z.ltb_spec o 0); f_equal; lia.
Qed.


(** ** The helpers of blocks/utils.ts *)

Lemma category_names :
  forall entry : string * list string,
    In entry BlockUtils.RFC_CATEGORY_KEYWORDS ->
    In (fst entry) ["email"; "messaging"; "ai"; "database"; "crm"; "payments"; "storage"].
Proof.
  intros entry Hin. unfold BlockUtils.RFC_CATEGORY_KEYWORDS in Hin.
  repeat (destruct Hin as [Hin|Hin]; [subst entry; cbn; tauto|]).
  destruct Hin.
Qed.

(** [find] returns the first element that satisfies the test. *)
Lemma find_first :
  forall (A : Type) (p : A -> bool) (l : list A) (e : A),
    find p l = Some e
    <-> exists earlier later,
          l = earlier ++ e :: later
          /\ p e = true
          /\ forall x, In x earlier -> p x = false.
Proof.
  intros A p. induction l as [|a l IH]; intros e; cbn.
  - split; [discriminate|]. intros (earlier & later & Hl & _).
    destruct earlier; discriminate Hl.
  - destruct (p a) eqn:Ha.
    + split.
      * intros H. injection H as <-. exists [], l. repeat split; [exact Ha|].
        intros x [].
      * intros (earlier & later & Hl & He & Hearlier).
        destruct earlier as [|x earlier]; cbn in Hl; injection Hl as -> Hl.
        -- reflexivity.
        -- rewrite (Hearlier x (or_introl eq_refl)) in Ha. discriminate.
    + rewrite IH. split.
      * intros (earlier & later & Hl & He & Hearlier).
        exists (a :: earlier), later. split; [cbn; rewrite Hl; reflexivity|].
        split; [exact He|]. intros x [<-|Hx]; [exact Ha | exact (Hearlier x Hx)].
      * intros (earlier & later & Hl & He & Hearlier).
        destruct earlier as [|x earlier]; cbn in Hl; injection Hl as -> Hl.
        -- rewrite He in Ha. discriminate.
        -- exists earlier, later. split; [exact Hl|]. split; [exact He|].
           intros y Hy. apply Hearlier. right. exact Hy.
Qed.

(** No keyword of the list occurs in the text. *)
Lemma mentions_false :
  forall (space : string) (keywords : list string),
    BlockUtils.mentions space keywords = false
    <-> forall keyword, In keyword keywords -> includes space keyword = false.
Proof.
  intros space keywords. unfold BlockUtils.mentions. split.
  - intros Hnone keyword Hin.
    destruct (includes space keyword) eqn:Hinc; [|reflexivity].
    assert (Hsome : existsb (fun k => includes space k) keywords = true)
      by (apply existsb_exists; exists keyword; split; assumption).
    rewrite Hsome in Hnone. discriminate.
  - intros Hall. apply Bool.not_true_is_false. intros Hsome.
    apply existsb_exists in Hsome. destruct Hsome as (keyword & Hin & Hinc).
    rewrite (Hall keyword Hin) in Hinc. discriminate.
Qed.

(** X6.  [mapBlockCategory] searches the lower-cased text made of the
    type, the name, the description and the tool names of the block,
    joined by spaces.  It answers with the first category of the keyword
    table one of whose keywords occurs in that text, and with ["other"]
    exactly when no keyword of any category occurs in it; so the answer
    is one of the seven categories of the table or ["other"]. *)
Theorem block_category_is_known :
  forall (block : BlockUtils.BlockConfig) (space : string),
    space = toLowerCase (join " " (BlockUtils.blockType block
                                   :: BlockUtils.blockName block
                                   :: BlockUtils.blockDescription block
                                   :: BlockUtils.toolsAccess block)) ->
    In (BlockUtils.mapBlockCategory block)
       ["email"; "messaging"; "ai"; "database"; "crm"; "payments"; "storage"; "other"]
    /\ (BlockUtils.mapBlockCategory block = "other"
        <-> forall category keywords keyword,
              In (category, keywords) BlockUtils.RFC_CATEGORY_KEYWORDS ->
              In keyword keywords ->
              includes space keyword = false)
    /\ (forall category,
           category <> "other" ->
           (BlockUtils.mapBlockCategory block = category
            <-> exists earlier keywords later keyword,
                  BlockUtils.RFC_CATEGORY_KEYWORDS = earlier ++ (category, keywords) :: later
                  /\ In keyword keywords
                  /\ includes space keyword = true
                  /\ forall c ks k,
                       In (c, ks) earlier -> In k ks -> includes space k = false)).
Proof.
  intros block space Hspace.
  assert (Hsearch : BlockUtils.searchSpace block = space) by (symmetry; exact Hspace).
  clear Hspace. unfold BlockUtils.mapBlockCategory. rewrite Hsearch.
  destruct (find (fun entry => BlockUtils.mentions space (snd entry))
                 BlockUtils.RFC_CATEGORY_KEYWORDS) as [entry|] eqn:Hfind.
  - pose proof Hfind as Hfirst. apply find_first in Hfirst.
    destruct Hfirst as (earlier & later & Htable & Hentry & Hearlier).
    apply find_some in Hfind. destruct Hfind as [Hin Hmentions].
    pose proof (category_names entry Hin) as Hname.
    split; [cbn in Hname |- *; tauto|]. split.
    + split.
      * intros Hother. rewrite Hother in Hname. cbn in Hname.
        repeat (destruct Hname as [Hname|Hname]; [discriminate Hname|]). destruct Hname.
      * intros Hnone. destruct entry as [category keywords]. cbn [snd] in Hmentions.
        rewrite (proj2 (mentions_false space keywords)) in Hmentions; [discriminate|].
        intros keyword Hkeyword. exact (Hnone category keywords keyword Hin Hkeyword).
    + intros category _. split.
      * intros Hcategory. destruct entry as [category' keywords]. cbn [fst] in Hcategory.
        subst category'. cbn [snd] in Hentry.
        unfold BlockUtils.mentions in Hentry. apply existsb_exists in Hentry.
        destruct Hentry as (keyword & Hkeyword & Hinc).
        exists earlier, keywords, later, keyword.
        split; [exact Htable|]. split; [exact Hkeyword|]. split; [exact Hinc|].
        intros c ks k Hc Hk.
        exact (proj1 (mentions_false space ks) (Hearlier (c, ks) Hc) k Hk).
      * intros (earlier' & keywords & later' & keyword & Htable' & Hkeyword & Hinc
                & Hearlier').
        assert (Hfound : find (fun entry => BlockUtils.mentions space (snd entry))
                              BlockUtils.RFC_CATEGORY_KEYWORDS
                         = Some (category, keywords)).
        { apply find_first. exists earlier', later'. split; [exact Htable'|]. split.
          - cbn [snd]. unfold BlockUtils.mentions. apply existsb_exists.
            exists keyword. split; assumption.
          - intros [c ks] Hc. cbn [snd]. apply mentions_false.
            intros k Hk. exact (Hearlier' c ks k Hc Hk). }
        assert (Hsame : Some entry = Some (category, keywords)).
        { rewrite <- Hfound. symmetry. apply find_first.
          exists earlier, later. repeat split; assumption. }
        injection Hsame as ->. reflexivity.
  - split; [cbn; tauto|]. split.
    + split; [|reflexivity].
      intros _ category keywords keyword Hin Hkeyword.
      exact (proj1 (mentions_false space keywords)
                   (find_none _ _ Hfind (category, keywords) Hin) keyword Hkeyword).
    + intros category Hne. split; [intros Hother; congruence|].
      intros (earlier & keywords & later & keyword & Htable & Hkeyword & Hinc & _).
      assert (Hin : In (category, keywords) BlockUtils.RFC_CATEGORY_KEYWORDS)
        by (rewrite Htable; apply in_or_app; right; left; reflexivity).
      pose proof (find_none _ _ Hfind (category, keywords) Hin) as Hnone.
      cbn [snd] in Hnone.
      rewrite (proj1 (mentions_false space keywords) Hnone keyword Hkeyword) in Hinc.
      discriminate.
Qed.

(** The Gmail block of the examples is an [email] block: [gmail] occurs
    in its text and [email] is the first category of the table. *)
Lemma block_category_is_known_witness :
  BlockUtils.mapBlockCategory Demo.gmailBlock = "email".
Proof.
  destruct (block_category_is_known Demo.gmailBlock _ eq_refl) as (_ & _ & Hcategory).
  apply (Hcategory "email"); [discriminate|].
  exists [], ["gmail"; "outlook"; "sendgrid"; "mailgun"; "mailchimp"; "smtp"; "ses"; "email"].
  eexists. exists "gmail".
  split; [reflexivity|]. split; [left; reflexivity|]. split; [reflexivity|].
  intros c ks k [].
Defined.

(** X7.  [mapOutputType] keeps the six type names of its table, finds
    the inherited member for the name of a member of [Object.prototype]
    (so no type name is produced for it), and maps every other name to
    ["any"]. *)
Theorem output_type_is_known_or_inherited :
  forall type : string,
    (In type ["string"; "number"; "boolean"; "object"; "array"; "any"] ->
     BlockUtils.mapOutputType type = BlockUtils.Named type)
    /\ (In type ["constructor"; "__defineGetter__"; "__defineSetter__"; "hasOwnProperty";
                 "__lookupGetter__"; "__lookupSetter__"; "isPrototypeOf";
                 "propertyIsEnumerable"; "toString"; "valueOf"; "__proto__";
                 "toLocaleString"] ->
        BlockUtils.mapOutputType type = BlockUtils.Inherited type)
    /\ (~ In type ["string"; "number"; "boolean"; "object"; "array"; "any"] ->
        ~ In type ["constructor"; "__defineGetter__"; "__defineSetter__"; "hasOwnProperty";
                   "__lookupGetter__"; "__lookupSetter__"; "isPrototypeOf";
                   "propertyIsEnumerable"; "toString"; "valueOf"; "__proto__";
                   "toLocaleString"] ->
        BlockUtils.mapOutputType type = BlockUtils.Named "any").
Proof.
  intros type. split; [|split].
  - intros Hin. cbn in Hin.
    repeat (destruct Hin as [Hin|Hin]; [subst type; reflexivity|]). destruct Hin.
  - intros Hin. cbn in Hin.
    repeat (destruct Hin as [Hin|Hin]; [subst type; reflexivity|]). destruct Hin.
  - intros Hunknown Hown.
    unfold BlockUtils.mapOutputType, BlockUtils.tableLookup.
    assert (Hfind : find (fun entry => String.eqb (fst entry) type)
                         BlockUtils.OUTPUT_TYPE_MAP = None).
    { destruct (find (fun entry => String.eqb (fst entry) type)
                     BlockUtils.OUTPUT_TYPE_MAP) as [entry|] eqn:Hfound; [|reflexivity].
      apply find_some in Hfound. destruct Hfound as [Hin Heq].
      apply String.eqb_eq in Heq. subst type. contradiction Hunknown.
      unfold BlockUtils.OUTPUT_TYPE_MAP in Hin.
      repeat (destruct Hin as [Hin|Hin]; [subst entry; cbn; tauto|]). destruct Hin. }
    rewrite Hfind.
    assert (Hinherited : BlockUtils.inherited type = false).
    { apply Bool.not_true_is_false. intros Htrue. unfold BlockUtils.inherited in Htrue.
      apply existsb_exists in Htrue. destruct Htrue as (member & Hin & Heq).
      apply String.eqb_eq in Heq. subst member. exact (Hown Hin). }
    rewrite Hinherited. reflexivity.
Qed.

(** [number] is kept, [toString] finds the method of [Object.prototype],
    [text] becomes ["any"]. *)
Lemma output_type_is_known_or_inherited_witness :
  BlockUtils.mapOutputType "number" = BlockUtils.Named "number"
  /\ BlockUtils.mapOutputType "toString" = BlockUtils.Inherited "toString"
  /\ BlockUtils.mapOutputType "text" = BlockUtils.Named "any".
Proof.
  split; [|split].
  - apply (proj1 (output_type_is_known_or_inherited "number")). cbn. tauto.
  - apply (proj1 (proj2 (output_type_is_known_or_inherited "toString"))). cbn. tauto.
  - apply (proj2 (proj2 (output_type_is_known_or_inherited "text")));
      cbn; intuition discriminate.
Defined.

(** *** Required inputs *)

Lemma has_In :
  forall (set : list string) (x : string), BlockUtils.has set x = true <-> In x set.
Proof.
  intros set x. unfold BlockUtils.has. rewrite existsb_exists. split.
  - intros (y & Hin & Heq). apply String.eqb_eq in Heq. subst y. exact Hin.
  - intros Hin. exists x. split; [exact Hin | apply String.eqb_refl].
Qed.

Lemma add_spec :
  forall (set : list string) (x : string),
    NoDup set ->
    NoDup (BlockUtils.add set x)
    /\ forall y, In y (BlockUtils.add set x) <-> In y set \/ y = x.
Proof.
  intros set x Hnodup. unfold BlockUtils.add.
  destruct (BlockUtils.has set x) eqn:Hhas.
  - apply has_In in Hhas. split; [exact Hnodup|].
    intros y. split; [tauto|]. intros [H|H]; [exact H | subst y; exact Hhas].
  - assert (Hnot : ~ In x set).
    { intros Hin. apply has_In in Hin. rewrite Hin in Hhas. discriminate. }
    split.
    + apply NoDup_app; [exact Hnodup | constructor; [intros []|constructor] |].
      intros y Hy [Hx|[]]. subst y. exact (Hnot Hy).
    + intros y. rewrite in_app_iff. cbn. split.
      * intros [H|[H|[]]]; [left; exact H | right; symmetry; exact H].
      * intros [H|H]; [left; exact H | right; left; symmetry; exact H].
Qed.

(** The set of required inputs holds the ids of the sub-blocks whose
    [required] is [true], each once. *)
Lemma getRequiredInputs_spec :
  forall block : BlockUtils.BlockConfig,
    NoDup (BlockUtils.getRequiredInputs block)
    /\ forall x,
        In x (BlockUtils.getRequiredInputs block)
        <-> exists subBlock,
             In subBlock (BlockUtils.subBlocks block)
             /\ BlockUtils.subBlockId subBlock = x
             /\ BlockUtils.required subBlock = Some (JBool true).
Proof.
  intros block. unfold BlockUtils.getRequiredInputs.
  assert (Hgen : forall (subs : list BlockUtils.SubBlockConfig) (acc : list string),
             NoDup acc ->
             let result :=
               fold_left
                 (fun required subBlock =>
                    if BlockUtils.isAlwaysRequired subBlock
                    then BlockUtils.add required (BlockUtils.subBlockId subBlock)
                    else required) subs acc in
             NoDup result
             /\ forall x, In x result
                          <-> In x acc
                              \/ exists subBlock,
                                  In subBlock subs
                                  /\ BlockUtils.subBlockId subBlock = x
                                  /\ BlockUtils.required subBlock = Some (JBool true)).
  { induction subs as [|sb subs IH]; intros acc Hacc; cbn.
    - split; [exact Hacc|]. intros x. split; [tauto|].
      intros [H|(sb & [] & _)]. exact H.
    - assert (Hreq : BlockUtils.isAlwaysRequired sb = true
                     <-> BlockUtils.required sb = Some (JBool true)).
      { unfold BlockUtils.isAlwaysRequired.
        destruct (BlockUtils.required sb) as [[|[|]| | | |]|]; split; congruence. }
      destruct (BlockUtils.isAlwaysRequired sb) eqn:Hsb.
      + destruct (add_spec acc (BlockUtils.subBlockId sb) Hacc) as [Hnodup Hin].
        destruct (IH _ Hnodup) as [Hres Hmem]. split; [exact Hres|].
        intros x. rewrite Hmem, Hin. split.
        * intros [[H|H]|(sb' & Hin' & Hid & Hr)].
          -- left. exact H.
          -- right. exists sb. split; [left; reflexivity|].
             split; [symmetry; exact H | apply Hreq; reflexivity].
          -- right. exists sb'. split; [right; exact Hin' | split; assumption].
        * intros [H|(sb' & [Heq|Hin'] & Hid & Hr)].
          -- left. left. exact H.
          -- subst sb'. left. right. symmetry. exact Hid.
          -- right. exists sb'. split; [exact Hin' | split; assumption].
      + destruct (IH _ Hacc) as [Hres Hmem]. split; [exact Hres|].
        intros x. rewrite Hmem. split.
        * intros [H|(sb' & Hin' & Hid & Hr)]; [left; exact H|].
          right. exists sb'. split; [right; exact Hin' | split; assumption].
        * intros [H|(sb' & [Heq|Hin'] & Hid & Hr)]; [left; exact H | |].
          -- subst sb'. apply Hreq in Hr. congruence.
          -- right. exists sb'. split; [exact Hin' | split; assumption]. }
  destruct (Hgen (BlockUtils.subBlocks block) [] (NoDup_nil _)) as [Hnodup Hmem].
  split; [exact Hnodup|]. intros x. rewrite Hmem. split.
  - intros [[]|H]. exact H.
  - intros H. right. exact H.
Qed.

(** X8.  The [required] list of an input schema names the sub-blocks
    whose [required] is exactly [true], each once; when there is none
    the schema has no [required] property at all. *)
Theorem input_schema_lists_required_sub_blocks :
  forall block : BlockUtils.BlockConfig,
    match prop (BlockUtils.buildInputSchema block) "required" with
    | None =>
        forall subBlock,
          In subBlock (BlockUtils.subBlocks block) ->
          BlockUtils.required subBlock <> Some (JBool true)
    | Some value =>
        exists names,
          value = JArr (map JStr names)
          /\ names <> []
          /\ NoDup names
          /\ forall x,
              In x names
              <-> exists subBlock,
                   In subBlock (BlockUtils.subBlocks block)
                   /\ BlockUtils.subBlockId subBlock = x
                   /\ BlockUtils.required subBlock = Some (JBool true)
    end.
Proof.
  intros block. destruct (getRequiredInputs_spec block) as [Hnodup Hmem].
  unfold BlockUtils.buildInputSchema.
  destruct (BlockUtils.getRequiredInputs block) as [|x names] eqn:Hnames; cbn.
  - intros subBlock Hin Hreq.
    destruct (proj2 (Hmem (BlockUtils.subBlockId subBlock))).
    exists subBlock. split; [exact Hin | split; [reflexivity | exact Hreq]].
  - exists (x :: names). split; [reflexivity|]. split; [discriminate|].
    split; [exact Hnodup | exact Hmem].
Qed.

(** *** Property assignment *)

Lemma lookup_app_fresh :
  forall (k : string) (v : json) (fields : list (string * json)),
    existsb (fun entry => String.eqb (fst entry) k) fields = false ->
    lookup k (fields ++ [(k, v)]) = Some v.
Proof.
  intros k v fields. induction fields as [|[k0 v0] rest IH]; cbn; intros H.
  - rewrite String.eqb_refl. reflexivity.
  - apply orb_false_iff in H. destruct H as [Hk Hrest].
    rewrite String.eqb_sym, Hk. apply IH. exact Hrest.
Qed.

Lemma lookup_setProperty_same :
  forall (k : string) (v : json) (fields : list (string * json)),
    k <> "__proto__" ->
    lookup k (BlockUtils.setProperty k v fields) = Some v.
Proof.
  intros k v fields Hk. unfold BlockUtils.setProperty.
  apply String.eqb_neq in Hk. rewrite Hk.
  destruct (existsb (fun entry => String.eqb (fst entry) k) fields) eqn:Hex.
  - induction fields as [|[k0 v0] rest IH]; cbn in *; [discriminate|].
    destruct (String.eqb k0 k) eqn:Hk0; cbn.
    + rewrite String.eqb_refl. reflexivity.
    + rewrite String.eqb_sym, Hk0. apply IH. exact Hex.
  - apply lookup_app_fresh. exact Hex.
Qed.

Lemma lookup_setProperty_other :
  forall (k k' : string) (v : json) (fields : list (string * json)),
    k' <> k ->
    lookup k' (BlockUtils.setProperty k v fields) = lookup k' fields.
Proof.
  intros k k' v fields Hk. unfold BlockUtils.setProperty.
  apply String.eqb_neq in Hk.
  destruct (String.eqb k "__proto__"); [reflexivity|].
  destruct (existsb (fun entry => String.eqb (fst entry) k) fields).
  - induction fields as [|[k0 v0] rest IH]; cbn; [reflexivity|].
    destruct (String.eqb k0 k) eqn:Hk0; cbn.
    + apply String.eqb_eq in Hk0. subst k0. rewrite Hk. exact IH.
    + destruct (String.eqb k' k0); [reflexivity | exact IH].
  - induction fields as [|[k0 v0] rest IH]; cbn.
    + rewrite Hk. reflexivity.
    + destruct (String.eqb k' k0); [reflexivity | exact IH].
Qed.

(** A record built by assigning [f entry] to each key in turn: a key
    that occurs among the entries holds the value of one of them, any
    other key is left as it was. *)
Lemma assigned_properties :
  forall (X : Type) (f : string * X -> json) (keep : string * X -> bool)
         (entries : list (string * X)) (acc : list (string * json)) (k : string),
    let result :=
      fold_left (fun properties entry =>
                   if keep entry then BlockUtils.setProperty (fst entry) (f entry) properties
                   else properties)
                entries acc in
    k <> "__proto__" ->
    ((exists entry, In entry entries /\ fst entry = k /\ keep entry = true) ->
     exists entry, In entry entries /\ fst entry = k /\ keep entry = true
                   /\ lookup k result = Some (f entry))
    /\ ((forall entry, In entry entries -> fst entry = k -> keep entry = false) ->
        lookup k result = lookup k acc).
Proof.
  intros X f keep entries. induction entries as [|e entries IH]; intros acc k result Hk.
  - split; [intros (entry & [] & _) | reflexivity].
  - subst result. cbn [fold_left].
    set (acc' := if keep e then BlockUtils.setProperty (fst e) (f e) acc else acc).
    destruct (IH acc' k Hk) as [Hsome Hnone]. cbv zeta in Hsome, Hnone.
    split.
    + intros (entry & Hin & Hfst & Hkeep).
      destruct (String.eqb_spec (fst e) k) as [Heq|Hneq].
      * destruct (keep e) eqn:Hkeep_e.
        -- (* later entries may overwrite *)
           assert (Hdec : (exists entry', In entry' entries /\ fst entry' = k
                                          /\ keep entry' = true)
                          \/ forall entry', In entry' entries -> fst entry' = k ->
                                            keep entry' = false).
           { clear. induction entries as [|e' entries IH].
             - right. intros ? [].
             - destruct IH as [(x & Hx & Hf & Hk)|IH].
               + left. exists x. split; [right; exact Hx | split; assumption].
               + destruct (String.eqb_spec (fst e') k) as [Heq|Hneq].
                 * destruct (keep e') eqn:Hk.
                   -- left. exists e'. split; [left; reflexivity | split; assumption].
                   -- right. intros x [Hx|Hx] Hf; [subst x; exact Hk | exact (IH x Hx Hf)].
                 * right. intros x [Hx|Hx] Hf; [subst x; contradiction | exact (IH x Hx Hf)]. }
           destruct Hdec as [Hlater|Hlast].
           ++ destruct (Hsome Hlater) as (x & Hx & Hf & Hkx & Hl).
              exists x. split; [right; exact Hx | repeat split; assumption].
           ++ exists e. split; [left; reflexivity|]. split; [exact Heq|].
              split; [exact Hkeep_e|]. rewrite (Hnone Hlast). subst acc'.
              rewrite <- Heq. apply lookup_setProperty_same. rewrite Heq. exact Hk.
        -- destruct Hin as [Hin|Hin]; [subst entry; congruence|].
           destruct (Hsome (ex_intro _ entry (conj Hin (conj Hfst Hkeep))))
             as (x & Hx & Hf & Hkx & Hl).
           exists x. split; [right; exact Hx | repeat split; assumption].
      * destruct Hin as [Hin|Hin]; [subst entry; contradiction|].
        destruct (Hsome (ex_intro _ entry (conj Hin (conj Hfst Hkeep))))
          as (x & Hx & Hf & Hkx & Hl).
        exists x. split; [right; exact Hx | repeat split; assumption].
    + intros Hall. rewrite Hnone by (intros x Hx; apply Hall; right; exact Hx).
      subst acc'. destruct (keep e) eqn:Hkeep_e; [|reflexivity].
      apply lookup_setProperty_other. intros Heq.
      rewrite (Hall e (or_introl eq_refl) (eq_sym Heq)) in Hkeep_e. discriminate.
Qed.

(** X9.  In the parameter descriptor of a block, every declared input
    (other than [__proto__]) has an entry, and the entry says
    [required: true] exactly when a sub-block with the name of the input
    has [required] equal to [true]. *)
Theorem descriptor_marks_required_inputs :
  forall (block : BlockUtils.BlockConfig) (name : string) (config : BlockUtils.ParamConfig),
    In (name, config) (BlockUtils.inputs block) ->
    name <> "__proto__" ->
    exists descriptor,
      lookup name (BlockUtils.buildParamsDescriptor block) = Some descriptor
      /\ (prop descriptor "required" = Some (JBool true)
          \/ prop descriptor "required" = Some (JBool false))
      /\ (prop descriptor "required" = Some (JBool true)
          <-> exists subBlock,
               In subBlock (BlockUtils.subBlocks block)
               /\ BlockUtils.subBlockId subBlock = name
               /\ BlockUtils.required subBlock = Some (JBool true)).
Proof.
  intros block name config Hin Hname.
  destruct (getRequiredInputs_spec block) as [_ Hmem].
  unfold BlockUtils.buildParamsDescriptor.
  pose proof (assigned_properties BlockUtils.ParamConfig
                (fun entry =>
                   obj [("type",
                         BlockUtils.typeJson
                           (BlockUtils.mapParamType (BlockUtils.paramType (snd entry))));
                        ("required",
                         boolean (BlockUtils.has (BlockUtils.getRequiredInputs block)
                                                 (fst entry)));
                        ("description", optStr (BlockUtils.paramDescription (snd entry)))])
                (fun _ => true) (BlockUtils.inputs block) [] name Hname) as [Hsome _].
  cbv zeta in Hsome. cbv beta in Hsome.
  destruct Hsome as (entry & _ & Hfst & _ & Hlookup).
  { exists (name, config). split; [exact Hin | split; reflexivity]. }
  eexists. split; [exact Hlookup|]. rewrite Hfst.
  assert (Hflag : forall (t d : option json) (b : bool),
             prop (obj [("type", t); ("required", boolean b); ("description", d)])
                  "required"
             = Some (JBool b)).
  { intros [t|] [d|] b; reflexivity. }
  rewrite Hflag.
  destruct (BlockUtils.has (BlockUtils.getRequiredInputs block) name) eqn:Hhas.
  - split; [left; reflexivity|]. split; [|reflexivity].
    intros _. apply Hmem. apply has_In. exact Hhas.
  - split; [right; reflexivity|]. split; [discriminate|].
    intros Hex. apply Hmem in Hex. apply has_In in Hex. congruence.
Qed.

(** The input [to] of the Gmail block of the examples. *)
Lemma descriptor_marks_required_inputs_witness :
  exists descriptor,
    lookup "to" (BlockUtils.buildParamsDescriptor Demo.gmailBlock) = Some descriptor
    /\ (prop descriptor "required" = Some (JBool true)
        \/ prop descriptor "required" = Some (JBool false))
    /\ (prop descriptor "required" = Some (JBool true)
        <-> exists subBlock,
             In subBlock (BlockUtils.subBlocks Demo.gmailBlock)
             /\ BlockUtils.subBlockId subBlock = "to"
             /\ BlockUtils.required subBlock = Some (JBool true)).
Proof.
  apply (descriptor_marks_required_inputs
           Demo.gmailBlock "to"
           {| BlockUtils.paramType := "short_text";
              BlockUtils.paramDescription := Some "Recipient";
              BlockUtils.paramSchema := None |}).
  - left. reflexivity.
  - discriminate.
Defined.


(** *** Credentials *)

(** X11.  A listed capability requires credentials exactly when the
    authentication mode of the block is [oauth], [api_key] or
    [bot_token]; its one credential type is then the block type followed
    by [_] and the mode, and otherwise the capability has no
    [credentialTypes] at all. *)
Theorem capability_credentials_follow_auth_mode :
  forall (block : BlockUtils.BlockConfig) (category : string),
    (exists mode,
        BlockUtils.authMode block = Some mode
        /\ In mode ["oauth"; "api_key"; "bot_token"]
        /\ prop (Blocks.transformBlockToCapability block category) "requiresCredentials"
           = Some (JBool true)
        /\ prop (Blocks.transformBlockToCapability block category) "credentialTypes"
           = Some (JArr [JStr (BlockUtils.blockType block ++ "_" ++ mode)]))
    \/ ((forall mode, BlockUtils.authMode block = Some mode ->
                      ~ In mode ["oauth"; "api_key"; "bot_token"])
        /\ prop (Blocks.transformBlockToCapability block category) "requiresCredentials"
           = Some (JBool false)
        /\ prop (Blocks.transformBlockToCapability block category) "credentialTypes"
           = None).
Proof.
  intros block category.
  unfold Blocks.transformBlockToCapability, BlockUtils.getCredentialTypes.
  destruct (BlockUtils.authMode block) as [mode|] eqn:Hmode; cbn [present].
  - destruct (String.eqb_spec mode "") as [Hempty|_]; cbn [negb].
    + right. split; [|split; reflexivity].
      intros m Hm. inversion Hm; subst m. subst mode. cbn.
      intros [H|[H|[H|[]]]]; discriminate.
    + destruct (String.eqb_spec mode "oauth") as [Ho|Ho].
      * left. exists mode. subst mode. repeat split; cbn; tauto.
      * destruct (String.eqb_spec mode "api_key") as [Ha|Ha].
        -- left. exists mode. subst mode. repeat split; cbn; tauto.
        -- destruct (String.eqb_spec mode "bot_token") as [Hb|Hb].
           ++ left. exists mode. subst mode. repeat split; cbn; tauto.
           ++ right. split; [|split; reflexivity].
              intros m Hm. inversion Hm; subst m. cbn.
              intros [H|[H|[H|[]]]]; congruence.
  - right. split; [|split; reflexivity]. intros m Hm. discriminate.
Qed.

(** *** What the listing keeps *)


Section ListingFacts.

Variable env : Blocks.Env.

(** [Array.prototype.sort] rearranges the array it is given. *)
Hypothesis sort_permutes :
  forall (cmp : Blocks.Entry -> Blocks.Entry -> Z) (l : list Blocks.Entry),
    Permutation (Blocks.sort env Blocks.Entry cmp l) l.


End ListingFacts.




(** ** Authentication, further *)

Lemma forallb_false :
  forall (A : Type) (f : A -> bool) (l : list A),
    forallb f l = false -> exists x, In x l /\ f x = false.
Proof.
  intros A f. induction l as [|a l IH]; cbn; intros H; [discriminate|].
  destruct (f a) eqn:Ha.
  - destruct (IH H) as (x & Hin & Hx). exists x. split; [right; exact Hin | exact Hx].
  - exists a. split; [left; reflexivity | exact Ha].
Qed.

Lemma includesScope_In :
  forall (keyScopes : list string) (scope : string),
    Auth.includesScope keyScopes scope = true <-> In scope keyScopes.
Proof.
  intros keyScopes scope. unfold Auth.includesScope. rewrite existsb_exists. split.
  - intros (x & Hin & Heq). apply String.eqb_eq in Heq. subst x. exact Hin.
  - intros Hin. exists scope. split; [exact Hin | apply String.eqb_refl].
Qed.

Section AuthMoreFacts.

Variable hashKey : string -> string.
Variable JSON_parse : string -> option json.

(** A rejected request leaves the key table as it was. *)
Lemma rejected_keeps_the_table :
  forall providedKey requiredScopes now db error code db',
    Auth.authenticateCanvasRequest hashKey JSON_parse providedKey requiredScopes now db
    = (Auth.Rejected error code, db') ->
    db' = db.
Proof.
  intros providedKey requiredScopes now db error code db'.
  unfold Auth.authenticateCanvasRequest.
  destruct (negb (present providedKey)); [intros H; inversion H; reflexivity|].
  destruct (negb (startsWith _ Auth.SERVICE_KEY_PREFIX));
    [intros H; inversion H; reflexivity|].
  destruct db as [rows|e]; [|intros H; inversion H; reflexivity].
  destruct (Auth.findKey _ rows) as [r|]; [|intros H; inversion H; reflexivity].
  destruct (negb (Auth.isActive r)); [intros H; inversion H; reflexivity|].
  destruct (match Auth.expiresAt r with Some t => t <? now | None => false end);
    [intros H; inversion H; reflexivity|].
  destruct (negb (forallb _ _)); intros H; inversion H; reflexivity.
Qed.

(** X13.  The failure code of the authenticator tells what was wrong
    with the request, and the checks are made in a fixed order: a missing
    key, a key without the [sim_svc_] prefix (rejected before the
    database is consulted), a failing database, an unknown key, an
    inactive key, an expired key (its expiry lies strictly before the
    current time), a required scope the key does not grant.  No rejected
    request changes the key table. *)
Theorem failure_code_tells_the_cause :
  forall (providedKey : option string) (requiredScopes : option (list string)) (now : Z)
         (db db' : Auth.KeyTable) (error : string) (code : Auth.FailureCode),
    Auth.authenticateCanvasRequest hashKey JSON_parse providedKey requiredScopes now db
    = (Auth.Rejected error code, db') ->
    db' = db
    /\ match code with
       | Auth.MISSING_KEY => providedKey = None \/ providedKey = Some ""
       | Auth.INVALID_KEY =>
           exists key,
             providedKey = Some key /\ key <> ""
             /\ (startsWith key Auth.SERVICE_KEY_PREFIX = false
                 \/ (startsWith key Auth.SERVICE_KEY_PREFIX = true
                     /\ exists rows,
                         db = Auth.Rows rows /\ Auth.findKey (hashKey key) rows = None))
       | Auth.INTERNAL_ERROR =>
           exists key e,
             providedKey = Some key
             /\ startsWith key Auth.SERVICE_KEY_PREFIX = true
             /\ db = Auth.Failing e
       | Auth.INACTIVE_KEY =>
           exists key rows keyRecord,
             providedKey = Some key /\ db = Auth.Rows rows
             /\ Auth.findKey (hashKey key) rows = Some keyRecord
             /\ Auth.isActive keyRecord = false
       | Auth.EXPIRED_KEY =>
           exists key rows keyRecord t,
             providedKey = Some key /\ db = Auth.Rows rows
             /\ Auth.findKey (hashKey key) rows = Some keyRecord
             /\ Auth.isActive keyRecord = true
             /\ Auth.expiresAt keyRecord = Some t /\ t < now
       | Auth.INSUFFICIENT_SCOPE =>
           exists key rows keyRecord required scope,
             providedKey = Some key /\ db = Auth.Rows rows
             /\ Auth.findKey (hashKey key) rows = Some keyRecord
             /\ Auth.isActive keyRecord = true
             /\ (forall t, Auth.expiresAt keyRecord = Some t -> now <= t)
             /\ requiredScopes = Some required /\ In scope required
             /\ ~ In scope (Auth.parseScopes JSON_parse (Auth.permissions keyRecord))
       end.
Proof.
  intros providedKey requiredScopes now db db' error code Hauth.
  split; [exact (rejected_keeps_the_table _ _ _ _ _ _ _ Hauth)|].
  unfold Auth.authenticateCanvasRequest in Hauth.
  destruct providedKey as [key|]; cbn [present negb] in Hauth;
    [|injection Hauth as <- <- <-; left; reflexivity].
  destruct (String.eqb_spec key "") as [Hempty|Hkey]; cbn [negb] in Hauth;
    [injection Hauth as <- <- <-; right; subst key; reflexivity|].
  destruct (startsWith key Auth.SERVICE_KEY_PREFIX) eqn:Hprefix; cbn [negb] in Hauth.
  2:{ injection Hauth as <- <- <-. exists key.
      split; [reflexivity | split; [exact Hkey | left; exact Hprefix]]. }
  destruct db as [rows|e];
    [|injection Hauth as <- <- <-; exists key, e; repeat split; assumption].
  destruct (Auth.findKey (hashKey key) rows) as [r|] eqn:Hfind.
  2:{ injection Hauth as <- <- <-. exists key. split; [reflexivity|]. split; [exact Hkey|].
      right. split; [exact Hprefix|]. exists rows. split; [reflexivity | exact Hfind]. }
  destruct (Auth.isActive r) eqn:Hactive; cbn [negb] in Hauth;
    [|injection Hauth as <- <- <-; exists key, rows, r; repeat split; assumption].
  destruct (Auth.expiresAt r) as [t|] eqn:Hexpires.
  - destruct (Z.ltb_spec t now) as [Hlt|Hge].
    + injection Hauth as <- <- <-. exists key, rows, r, t. repeat split; assumption.
    + destruct (forallb (Auth.includesScope (Auth.parseScopes JSON_parse (Auth.permissions r)))
                        (match requiredScopes with Some l => l | None => [] end))
        eqn:Hscopes; cbn [negb] in Hauth; [discriminate Hauth|].
      injection Hauth as <- <- <-.
      destruct requiredScopes as [required|]; [|discriminate Hscopes].
      destruct (forallb_false _ _ _ Hscopes) as (scope & Hin & Hmissing).
      exists key, rows, r, required, scope.
      repeat split; try assumption; try reflexivity.
      * intros t' Ht'. rewrite Hexpires in Ht'. injection Ht' as <-. exact Hge.
      * intros Hhas. apply includesScope_In in Hhas. congruence.
  - destruct (forallb (Auth.includesScope (Auth.parseScopes JSON_parse (Auth.permissions r)))
                      (match requiredScopes with Some l => l | None => [] end))
      eqn:Hscopes; cbn [negb] in Hauth; [discriminate Hauth|].
    injection Hauth as <- <- <-.
    destruct requiredScopes as [required|]; [|discriminate Hscopes].
    destruct (forallb_false _ _ _ Hscopes) as (scope & Hin & Hmissing).
    exists key, rows, r, required, scope.
    repeat split; try assumption; try reflexivity.
    + intros t' Ht'. rewrite Hexpires in Ht'. discriminate Ht'.
    + intros Hhas. apply includesScope_In in Hhas. congruence.
Qed.

(** What an accepted request has shown. *)
Lemma authenticated_facts :
  forall providedKey requiredScopes now db context db',
    Auth.authenticateCanvasRequest hashKey JSON_parse providedKey requiredScopes now db
    = (Auth.Authenticated context, db') ->
    exists key rows keyRecord,
      providedKey = Some key
      /\ startsWith key Auth.SERVICE_KEY_PREFIX = true
      /\ db = Auth.Rows rows
      /\ Auth.findKey (hashKey key) rows = Some keyRecord
      /\ Auth.isActive keyRecord = true
      /\ (forall t, Auth.expiresAt keyRecord = Some t -> now <= t)
      /\ forallb (Auth.includesScope (Auth.parseScopes JSON_parse
                                        (Auth.permissions keyRecord)))
                 (match requiredScopes with Some l => l | None => [] end) = true
      /\ context
         = {| serviceName := Auth.recServiceName keyRecord;
              keyId := Auth.recId keyRecord;
              keyPrefix := Auth.recKeyPrefix keyRecord;
              scopes := Auth.parseScopes JSON_parse (Auth.permissions keyRecord);
              rateLimitPerMinute := Auth.recRateLimitPerMinute keyRecord;
              rateLimitPerDay := Auth.recRateLimitPerDay keyRecord;
              metadata := match Auth.recMetadata keyRecord with
                          | Some m => m
                          | None => JObj []
                          end;
              canvasUserId := None; canvasWorkspaceId := None;
              requestId := None; idempotencyKey := None;
              ipAddress := None; userAgent := None |}
      /\ db' = Auth.Rows (Auth.updateLastUsed now (Auth.recId keyRecord) rows).
Proof.
  intros providedKey requiredScopes now db context db' Hauth.
  unfold Auth.authenticateCanvasRequest in Hauth.
  destruct providedKey as [key|]; cbn [present negb] in Hauth; [|discriminate Hauth].
  destruct (String.eqb key ""); cbn [negb] in Hauth; [discriminate Hauth|].
  destruct (startsWith key Auth.SERVICE_KEY_PREFIX) eqn:Hprefix; cbn [negb] in Hauth;
    [|discriminate Hauth].
  destruct db as [rows|e]; [|discriminate Hauth].
  destruct (Auth.findKey (hashKey key) rows) as [r|] eqn:Hfind; [|discriminate Hauth].
  destruct (Auth.isActive r) eqn:Hactive; cbn [negb] in Hauth; [|discriminate Hauth].
  assert (Hfresh : forall t, Auth.expiresAt r = Some t -> now <= t).
  { intros t Ht. rewrite Ht in Hauth.
    destruct (Z.ltb_spec t now); [discriminate Hauth | assumption]. }
  destruct (match Auth.expiresAt r with Some t => t <? now | None => false end);
    [discriminate Hauth|].
  destruct (forallb (Auth.includesScope (Auth.parseScopes JSON_parse (Auth.permissions r)))
                    (match requiredScopes with Some l => l | None => [] end))
    eqn:Hscopes; cbn [negb] in Hauth; [|discriminate Hauth].
  inversion Hauth. exists key, rows, r. repeat split; try assumption; reflexivity.
Qed.

(** X14.  An accepted request has presented a key with the [sim_svc_]
    prefix whose hash is stored for the service [canvas]; that key is
    active and not yet expired, the scopes of the context are the scopes
    parsed from its record and include every required scope
    ([hasAllScopes] holds), and the only change to the key table is the
    last-use time of the rows with the id of that key. *)
Theorem accepted_key_is_active_and_holds_the_scopes :
  forall (providedKey : option string) (requiredScopes : option (list string)) (now : Z)
         (db db' : Auth.KeyTable) (context : CanvasRequestContext),
    Auth.authenticateCanvasRequest hashKey JSON_parse providedKey requiredScopes now db
    = (Auth.Authenticated context, db') ->
    exists key rows keyRecord,
      providedKey = Some key
      /\ startsWith key Auth.SERVICE_KEY_PREFIX = true
      /\ db = Auth.Rows rows
      /\ In keyRecord rows
      /\ Auth.keyHash keyRecord = hashKey key
      /\ Auth.recServiceName keyRecord = "canvas"
      /\ Auth.isActive keyRecord = true
      /\ (forall t, Auth.expiresAt keyRecord = Some t -> now <= t)
      /\ scopes context = Auth.parseScopes JSON_parse (Auth.permissions keyRecord)
      /\ (forall required, requiredScopes = Some required ->
                           Auth.hasAllScopes context required = true)
      /\ exists rows',
          db' = Auth.Rows rows'
          /\ Forall2 (fun before after =>
                        after = before
                        \/ (Auth.recId before = keyId context
                            /\ after = Auth.setLastUsed now before))
                     rows rows'.
Proof.
  intros providedKey requiredScopes now db db' context Hauth.
  destruct (authenticated_facts _ _ _ _ _ _ Hauth)
    as (key & rows & r & Hkey & Hprefix & Hdb & Hfind & Hactive & Hfresh & Hscopes
        & Hcontext & Hdb').
  exists key, rows, r.
  unfold Auth.findKey in Hfind. apply find_some in Hfind.
  destruct Hfind as [Hin Hmatch]. apply andb_true_iff in Hmatch.
  destruct Hmatch as [Hhash Hservice].
  apply String.eqb_eq in Hhash. apply String.eqb_eq in Hservice.
  repeat (split; [first [assumption | reflexivity | idtac]|]).
  - rewrite Hcontext. reflexivity.
  - intros required Hrequired. subst requiredScopes.
    unfold Auth.hasAllScopes. rewrite Hcontext. exact Hscopes.
  - exists (Auth.updateLastUsed now (Auth.recId r) rows). split; [exact Hdb'|].
    rewrite Hcontext. cbn [keyId]. unfold Auth.updateLastUsed.
    clear. induction rows as [|row rows IH]; cbn; constructor; [|exact IH].
    destruct (String.eqb_spec (Auth.recId row) (Auth.recId r)) as [Heq|Hneq].
    + right. split; [exact Heq | reflexivity].
    + left. reflexivity.
Qed.

End AuthMoreFacts.

(** The valid key of the examples, asked for a scope it does not grant. *)
Lemma failure_code_tells_the_cause_witness :
  Demo.keyTable = Demo.keyTable
  /\ exists key rows keyRecord required scope,
      Some "sim_svc_valid" = Some key /\ Demo.keyTable = Auth.Rows rows
      /\ Auth.findKey (Demo.hashKey key) rows = Some keyRecord
      /\ Auth.isActive keyRecord = true
      /\ (forall t, Auth.expiresAt keyRecord = Some t -> 5 <= t)
      /\ Some ["blocks:execute"; "blocks:list"] = Some required /\ In scope required
      /\ ~ In scope (Auth.parseScopes Demo.JSON_parse (Auth.permissions keyRecord)).
Proof.
  apply (failure_code_tells_the_cause
           Demo.hashKey Demo.JSON_parse (Some "sim_svc_valid")
           (Some ["blocks:execute"; "blocks:list"]) 5 Demo.keyTable Demo.keyTable
           "Insufficient permissions. Required scopes: blocks:execute, blocks:list"
           Auth.INSUFFICIENT_SCOPE).
  reflexivity.
Defined.

(** The valid key of the examples, asked for [blocks:execute]. *)
Lemma accepted_key_is_active_and_holds_the_scopes_witness :
  exists key rows keyRecord,
    Some "sim_svc_valid" = Some key
    /\ startsWith key Auth.SERVICE_KEY_PREFIX = true
    /\ Demo.keyTable = Auth.Rows rows
    /\ In keyRecord rows
    /\ Auth.keyHash keyRecord = Demo.hashKey key
    /\ Auth.recServiceName keyRecord = "canvas"
    /\ Auth.isActive keyRecord = true
    /\ (forall t, Auth.expiresAt keyRecord = Some t -> 5 <= t)
    /\ scopes Demo.validContext
       = Auth.parseScopes Demo.JSON_parse (Auth.permissions keyRecord)
    /\ (forall required, Some ["blocks:execute"] = Some required ->
                         Auth.hasAllScopes Demo.validContext required = true)
    /\ exists rows',
        snd Demo.validAuth = Auth.Rows rows'
        /\ Forall2 (fun before after =>
                      after = before
                      \/ (Auth.recId before = keyId Demo.validContext
                          /\ after = Auth.setLastUsed 5 before))
                   rows rows'.
Proof.
  apply (accepted_key_is_active_and_holds_the_scopes
           Demo.hashKey Demo.JSON_parse (Some "sim_svc_valid") (Some ["blocks:execute"]) 5
           Demo.keyTable (snd Demo.validAuth) Demo.validContext).
  reflexivity.
Defined.

(** ** The middleware *)

Section MiddlewareFacts.

Context {Storage : Type} (env : Middleware.Env Storage).

(** X15.  A request the authenticator rejects is answered by the
    middleware itself: with status 401, or 403 for an insufficient scope,
    or 500 for an internal error.  The handler is not run, the key table
    and the handler's store are left as they were, and no token of the
    rate limiter is consumed. *)
Theorem rejected_request_is_answered_by_the_middleware :
  forall (H : Type) (handler : Middleware.Request -> CanvasRequestContext -> M H Response)
         (requiredScopes : Middleware.RequiredScopes) (request : Middleware.Request)
         (now : Z) (keys keys' : Auth.KeyTable) (storage : Storage) (h : H)
         (error : string) (code : Auth.FailureCode),
    Auth.authenticateCanvasRequest
      (Middleware.hashKey env) (Middleware.JSON_parse env)
      (Middleware.xServiceKey request)
      (Middleware.optionScopes (Middleware.optionsOf requiredScopes)) now keys
    = (Auth.Rejected error code, keys') ->
    exists response,
      Middleware.withCanvasAuth env handler requiredScopes request now ((keys, storage), h)
      = (((keys, storage), h), inr (plain response))
      /\ isSuccess response = false
      /\ statusOf response
         = match code with
           | Auth.INSUFFICIENT_SCOPE => 403
           | Auth.INTERNAL_ERROR => 500
           | _ => 401
           end.
Proof.
  intros H handler requiredScopes request now keys keys' storage h error code Hauth.
  pose proof (rejected_keeps_the_table _ _ _ _ _ _ _ _ _ Hauth) as Hkeys. subst keys'.
  exists (Middleware.mapAuthErrorToResponse
            code error (Middleware.optionScopes (Middleware.optionsOf requiredScopes))).
  split.
  - unfold Middleware.withCanvasAuth, Middleware.gate. cbn [fst snd].
    rewrite Hauth. reflexivity.
  - unfold Middleware.mapAuthErrorToResponse.
    destruct code; try (split; reflexivity).
    destruct (Middleware.optionScopes (Middleware.optionsOf requiredScopes));
      split; reflexivity.
Qed.

(** X16.  The handler is run only for a request that has cleared every
    check: the key was accepted for the required scopes, the request
    context passed its schema, the address is allowed, the Canvas user
    and workspace ids are present when the route requires them, and the
    rate limiter allowed the call. *)
Theorem passed_request_has_cleared_every_check :
  forall (options : Middleware.CanvasAuthOptions) (request : Middleware.Request) (now : Z)
         (st st' : Auth.KeyTable * Storage) (requestContext : CanvasRequestContext),
    Middleware.gate env options request now st = (st', inr (Middleware.Passed requestContext)) ->
    exists context,
      Auth.authenticateCanvasRequest
        (Middleware.hashKey env) (Middleware.JSON_parse env)
        (Middleware.xServiceKey request) (Middleware.optionScopes options) now (fst st)
      = (Auth.Authenticated context, fst st')
      /\ requestContext = Middleware.buildRequestContext request context
      /\ (forall required, Middleware.optionScopes options = Some required ->
                           Auth.hasAllScopes requestContext required = true)
      /\ Middleware.validContext env requestContext = true
      /\ Middleware.isIpAllowed env (ipAddress requestContext) = true
      /\ (Middleware.requireUserContext options = Some true ->
          present (canvasUserId requestContext) = true)
      /\ (Middleware.requireWorkspaceContext options = Some true ->
          present (canvasWorkspaceId requestContext) = true)
      /\ exists result,
          RateLimit.enforceCanvasRateLimit (Middleware.consumeTokens env) requestContext
                                           (snd st)
          = (snd st', inr result)
          /\ RateLimit.allowed result = true.
Proof.
  intros options request now st st' requestContext Hgate.
  unfold Middleware.gate in Hgate.
  destruct (Auth.authenticateCanvasRequest
              (Middleware.hashKey env) (Middleware.JSON_parse env)
              (Middleware.xServiceKey request) (Middleware.optionScopes options) now (fst st))
    as [[context|error code] keys] eqn:Hauth; [|discriminate Hgate].
  destruct (Middleware.validContext env (Middleware.buildRequestContext request context))
    eqn:Hvalid; cbn [negb] in Hgate; [|discriminate Hgate].
  destruct (Middleware.isIpAllowed
              env (ipAddress (Middleware.buildRequestContext request context)))
    eqn:Hip; cbn [negb] in Hgate; [|discriminate Hgate].
  destruct (Middleware.isTrue (Middleware.requireUserContext options)
            && negb (present (canvasUserId (Middleware.buildRequestContext request context))))%bool
    eqn:Huser; [discriminate Hgate|].
  destruct (Middleware.isTrue (Middleware.requireWorkspaceContext options)
            && negb (present (canvasWorkspaceId
                                (Middleware.buildRequestContext request context))))%bool
    eqn:Hworkspace; [discriminate Hgate|].
  destruct (RateLimit.enforceCanvasRateLimit
              (Middleware.consumeTokens env)
              (Middleware.buildRequestContext request context) (snd st))
    as [storage [e|result]] eqn:Hlimit; [discriminate Hgate|].
  destruct (RateLimit.allowed result) eqn:Hallowed; cbn [negb] in Hgate;
    [|discriminate Hgate].
  injection Hgate as <- <-. cbn [fst snd].
  exists context. split; [reflexivity|]. split; [reflexivity|].
  split.
  { intros required Hrequired.
    destruct (authenticated_facts _ _ _ _ _ _ _ _ Hauth)
      as (key & rows & r & _ & _ & _ & _ & _ & _ & Hscopes & Hcontext & _).
    rewrite Hrequired in Hscopes. unfold Auth.hasAllScopes.
    cbn [Middleware.buildRequestContext scopes]. rewrite Hcontext. exact Hscopes. }
  split; [exact Hvalid|]. split; [exact Hip|].
  split.
  { intros Hrequire. rewrite Hrequire in Huser. cbn [Middleware.isTrue andb] in Huser.
    apply negb_false_iff in Huser. exact Huser. }
  split.
  { intros Hrequire. rewrite Hrequire in Hworkspace.
    cbn [Middleware.isTrue andb] in Hworkspace.
    apply negb_false_iff in Hworkspace. exact Hworkspace. }
  exists result. split; [exact Hlimit | exact Hallowed].
Qed.

(** X17.  A key whose record grants a scope outside the six scopes of
    [canvasScopeSchema] is of no use: after the authenticator has
    accepted it (and recorded its use), the request context fails its
    schema and the middleware answers 400 "Invalid request headers"
    without consulting the rate limiter or running the handler. *)
Theorem key_with_unknown_scope_is_refused :
  forall (options : Middleware.CanvasAuthOptions) (request : Middleware.Request) (now : Z)
         (st : Auth.KeyTable * Storage) (context : CanvasRequestContext)
         (keys' : Auth.KeyTable) (scope : string),
    Auth.authenticateCanvasRequest
      (Middleware.hashKey env) (Middleware.JSON_parse env)
      (Middleware.xServiceKey request) (Middleware.optionScopes options) now (fst st)
    = (Auth.Authenticated context, keys') ->
    In scope (scopes context) ->
    ~ In scope Middleware.CANVAS_SCOPES ->
    Middleware.gate env options request now st
    = ((keys', snd st),
       inr (Middleware.Blocked
              (plain (ErrorEnvelope 400 "Invalid request headers" (Some "INVALID_PARAMS")
                        (Some (Middleware.fieldErrors
                                 env (Middleware.buildRequestContext request context)))
                        None)))).
Proof.
  intros options request now st context keys' scope Hauth Hin Hunknown.
  unfold Middleware.gate. rewrite Hauth.
  assert (Hinvalid : Middleware.validContext
                       env (Middleware.buildRequestContext request context) = false).
  { unfold Middleware.validContext. cbn [Middleware.buildRequestContext scopes].
    assert (Hscopes : forallb (fun scope0 =>
                                 existsb (String.eqb scope0) Middleware.CANVAS_SCOPES)
                              (scopes context) = false).
    { destruct (forallb _ (scopes context)) eqn:Hall; [|reflexivity].
      rewrite forallb_forall in Hall. specialize (Hall scope Hin).
      apply existsb_exists in Hall. destruct Hall as (x & Hx & Heq).
      apply String.eqb_eq in Heq. subst x. contradiction. }
    rewrite Hscopes. reflexivity. }
  rewrite Hinvalid. reflexivity.
Qed.

(** X18.  The middleware fails closed with the rate limiter: when a
    [consumeTokens] call of the storage adapter throws while a request is
    checked, the request is answered 429 [RATE_LIMITED] with
    [retryAfter: 60] and the header [Retry-After: 60], and the handler is
    not run. *)
Theorem storage_failure_is_answered_429 :
  forall (options : Middleware.CanvasAuthOptions) (request : Middleware.Request) (now : Z)
         (keys : Auth.KeyTable) (s : Storage)
         (st' : Auth.KeyTable * (Storage * bool)) (verdict : thrown + Middleware.Verdict),
    Middleware.gate (Middleware.observing env) options request now (keys, (s, false))
    = (st', verdict) ->
    snd (snd st') = true ->
    verdict
    = inr (Middleware.Blocked
             {| envelope := ErrorEnvelope 429 "Rate limit exceeded" (Some "RATE_LIMITED")
                                          None (Some 60);
                retryAfterHeader := Some "60" |}).
Proof.
  intros options request now keys s st' verdict Hgate Hflag.
  unfold Middleware.gate in Hgate. cbn [fst snd] in Hgate.
  destruct (Auth.authenticateCanvasRequest _ _ _ _ now keys)
    as [[context|error code] keys'];
    [|injection Hgate as <- <-; discriminate Hflag].
  destruct (negb (Middleware.validContext _ _));
    [injection Hgate as <- <-; discriminate Hflag|].
  destruct (negb (Middleware.isIpAllowed _ _));
    [injection Hgate as <- <-; discriminate Hflag|].
  destruct (Middleware.isTrue (Middleware.requireUserContext options) && _)%bool;
    [injection Hgate as <- <-; discriminate Hflag|].
  destruct (Middleware.isTrue (Middleware.requireWorkspaceContext options) && _)%bool;
    [injection Hgate as <- <-; discriminate Hflag|].
  cbn [Middleware.consumeTokens Middleware.observing] in Hgate.
  unfold RateLimit.enforceCanvasRateLimit, tryCatch in Hgate.
  pose proof (checkBuckets_observed Storage (Middleware.consumeTokens env)
                (Middleware.buildRequestContext request context) s) as Hobserved.
  destruct (RateLimit.checkBuckets (RateLimit.observed (Middleware.consumeTokens env))
              (Middleware.buildRequestContext request context) (s, false))
    as [[s1 f1] [e|result]].
  - cbn in Hgate. injection Hgate as <- <-. reflexivity.
  - subst f1. cbn [ret] in Hgate.
    destruct (negb (RateLimit.allowed result));
      injection Hgate as <- <-; discriminate Hflag.
Qed.

(** The entries of the allowlist: the trimmed pieces of the variable
    that are not empty. *)
Lemma parseAllowlist_In :
  forall (value : option string) (address : string),
    In address (Middleware.parseAllowlist value)
    <-> address <> ""
        /\ exists v piece,
            value = Some v /\ In piece (split "," v) /\ trim piece = address.
Proof.
  intros value address. unfold Middleware.parseAllowlist.
  destruct value as [v|]; cbn [present].
  - destruct (String.eqb_spec v "") as [Hempty|Hv]; cbn [negb].
    + subst v. split; [intros []|].
      intros (Hne & v & piece & Hv & Hin & Htrim). injection Hv as <-.
      cbn in Hin. destruct Hin as [<-|[]]. cbn in Htrim. congruence.
    + rewrite filter_In, in_map_iff. split.
      * intros ((piece & Htrim & Hin) & Hne).
        apply negb_true_iff in Hne. apply String.eqb_neq in Hne.
        split; [exact Hne|]. exists v, piece. repeat split; assumption.
      * intros (Hne & v' & piece & Hv' & Hin & Htrim). injection Hv' as <-.
        split; [exists piece; split; assumption|].
        apply negb_true_iff. apply String.eqb_neq. exact Hne.
  - split; [intros []|]. intros (_ & v & piece & Hv & _). discriminate Hv.
Qed.

(** X19.  An address is allowed exactly when the allowlist variable has
    no usable entry (it is unset, or each of its comma-separated pieces
    is blank), or when the address is not empty and equals one of the
    pieces with the surrounding white space removed.  With a usable
    entry, a request without address is refused. *)
Theorem address_is_allowed_iff_listed :
  forall ipAddress : option string,
    Middleware.isIpAllowed env ipAddress = true
    <-> (forall v piece,
            Middleware.allowlistVariable env = Some v -> In piece (split "," v) ->
            trim piece = "")
        \/ (exists v piece address,
               Middleware.allowlistVariable env = Some v
               /\ In piece (split "," v)
               /\ ipAddress = Some address
               /\ address <> ""
               /\ trim piece = address).
Proof.
  intros ipAddress. unfold Middleware.isIpAllowed, Middleware.CANVAS_IP_ALLOWLIST.
  pose proof (parseAllowlist_In (Middleware.allowlistVariable env)) as Hentries.
  destruct (Middleware.parseAllowlist (Middleware.allowlistVariable env))
    as [|entry entries] eqn:Hlist.
  - split; [|reflexivity]. intros _. left. intros v piece Hv Hin.
    destruct (String.eqb_spec (trim piece) "") as [Hblank|Hne]; [exact Hblank|].
    destruct (proj2 (Hentries (trim piece))).
    split; [exact Hne|]. exists v, piece. repeat split; assumption.
  - assert (Husable : ~ forall v piece,
                          Middleware.allowlistVariable env = Some v ->
                          In piece (split "," v) -> trim piece = "").
    { intros Hblank.
      destruct (proj1 (Hentries entry) (or_introl eq_refl))
        as (Hne & v & piece & Hv & Hin & Htrim).
      apply Hne. rewrite <- Htrim. exact (Hblank v piece Hv Hin). }
    destruct ipAddress as [address|]; cbn [present].
    + destruct (String.eqb_spec address "") as [Hempty|Haddress]; cbn [negb].
      * split; [discriminate|]. intros [Hblank|(v & piece & a & _ & _ & Ha & Hne & _)].
        -- contradiction.
        -- injection Ha as <-. contradiction.
      * rewrite existsb_exists. split.
        -- intros (x & Hin & Heq). apply String.eqb_eq in Heq. subst x.
           apply Hentries in Hin. destruct Hin as (_ & v & piece & Hv & Hin & Htrim).
           right. exists v, piece, address. repeat split; assumption.
        -- intros [Hblank|(v & piece & a & Hv & Hin & Ha & Hne & Htrim)];
             [contradiction|].
           injection Ha as <-. exists address. split; [|apply String.eqb_refl].
           apply Hentries. split; [exact Hne|]. exists v, piece. repeat split; assumption.
    + split; [discriminate|].
      intros [Hblank|(v & piece & a & _ & _ & Ha & _)]; [contradiction | discriminate Ha].
Qed.

End MiddlewareFacts.

(** The inactive key in front of the counting handler: 401, and the
    handler has not run. *)
Lemma rejected_request_is_answered_by_the_middleware_witness :
  exists response,
    Middleware.withCanvasAuth Demo.middlewareEnv Demo.countingHandler
                              (Middleware.AuthOptions Demo.executeOptions)
                              (Demo.requestWith "sim_svc_inactive") 5
                              ((Demo.keyTable, 0%nat), 0%nat)
    = (((Demo.keyTable, 0%nat), 0%nat), inr (plain response))
    /\ isSuccess response = false
    /\ statusOf response = 401.
Proof.
  apply (rejected_request_is_answered_by_the_middleware
           Demo.middlewareEnv nat Demo.countingHandler
           (Middleware.AuthOptions Demo.executeOptions)
           (Demo.requestWith "sim_svc_inactive") 5 Demo.keyTable Demo.keyTable
           0%nat 0%nat "Service API key is inactive" Auth.INACTIVE_KEY).
  reflexivity.
Defined.

(** The valid key passing the gate of the execute route. *)
Lemma passed_request_has_cleared_every_check_witness :
  exists context,
    Auth.authenticateCanvasRequest
      (Middleware.hashKey Demo.openEnv) (Middleware.JSON_parse Demo.openEnv)
      (Middleware.xServiceKey (Demo.requestWith "sim_svc_valid"))
      (Middleware.optionScopes Demo.executeOptions) 5 (fst (Demo.keyTable, 0%nat))
    = (Auth.Authenticated context, fst (fst Demo.admittedGate))
    /\ Demo.admittedContext
       = Middleware.buildRequestContext (Demo.requestWith "sim_svc_valid") context
    /\ (forall required, Middleware.optionScopes Demo.executeOptions = Some required ->
                         Auth.hasAllScopes Demo.admittedContext required = true)
    /\ Middleware.validContext Demo.openEnv Demo.admittedContext = true
    /\ Middleware.isIpAllowed Demo.openEnv (ipAddress Demo.admittedContext) = true
    /\ (Middleware.requireUserContext Demo.executeOptions = Some true ->
        present (canvasUserId Demo.admittedContext) = true)
    /\ (Middleware.requireWorkspaceContext Demo.executeOptions = Some true ->
        present (canvasWorkspaceId Demo.admittedContext) = true)
    /\ exists result,
        RateLimit.enforceCanvasRateLimit (Middleware.consumeTokens Demo.openEnv)
                                         Demo.admittedContext (snd (Demo.keyTable, 0%nat))
        = (snd (fst Demo.admittedGate), inr result)
        /\ RateLimit.allowed result = true.
Proof.
  apply (passed_request_has_cleared_every_check
           Demo.openEnv Demo.executeOptions (Demo.requestWith "sim_svc_valid") 5
           (Demo.keyTable, 0%nat) (fst Demo.admittedGate) Demo.admittedContext).
  reflexivity.
Defined.

(** The key that grants [admin:all] is answered 400. *)
Lemma key_with_unknown_scope_is_refused_witness :
  Middleware.gate Demo.middlewareEnv Demo.executeOptions
                  (Demo.requestWith "sim_svc_overreaching") 5 (Demo.keyTable, 0%nat)
  = ((snd Demo.overreachingAuth, 0%nat),
     inr (Middleware.Blocked
            (plain (ErrorEnvelope 400 "Invalid request headers" (Some "INVALID_PARAMS")
                      (Some (JObj [])) None)))).
Proof.
  apply (key_with_unknown_scope_is_refused
           Demo.middlewareEnv Demo.executeOptions (Demo.requestWith "sim_svc_overreaching") 5
           (Demo.keyTable, 0%nat) Demo.overreachingContext (snd Demo.overreachingAuth)
           "admin:all").
  - reflexivity.
  - right. left. reflexivity.
  - cbn. intuition discriminate.
Defined.

(** The valid key checked against the storage whose per-day bucket throws. *)
Lemma storage_failure_is_answered_429_witness :
  snd Demo.brokenGate
  = inr (Middleware.Blocked
           {| envelope := ErrorEnvelope 429 "Rate limit exceeded" (Some "RATE_LIMITED")
                                        None (Some 60);
              retryAfterHeader := Some "60" |}).
Proof.
  apply (storage_failure_is_answered_429
           Demo.middlewareEnv Demo.executeOptions (Demo.requestWith "sim_svc_valid") 5
           Demo.keyTable 0%nat (fst Demo.brokenGate) (snd Demo.brokenGate)).
  - reflexivity.
  - reflexivity.
Defined.


(** ** The rate limiter, further *)

Section RateLimitMoreFacts.

Variable Storage : Type.
Variable consumeTokens :
  string -> Z -> RateLimit.TokenBucketConfig -> M Storage RateLimit.RateLimitCheckResult.

(** A bucket check that allows the call carries no retry hint. *)
Lemma consume_shape :
  forall key limit interval s s' result,
    RateLimit.consume consumeTokens key limit interval s = (s', inr result) ->
    RateLimit.allowed result = true -> RateLimit.retryAfterMs result = None.
Proof.
  intros key limit interval s s' result. unfold RateLimit.consume.
  destruct (limit <=? 0).
  - intros H _. injection H as _ <-. reflexivity.
  - unfold bind.
    destruct (consumeTokens key 1 (RateLimit.buildConfig limit interval) s)
      as [s1 [e|r]]; [discriminate|].
    destruct (RateLimit.allowed r); intros H Hallowed; injection H as _ <-;
      [reflexivity | discriminate Hallowed].
Qed.

Lemma checkBuckets_shape :
  forall context s s' result,
    RateLimit.checkBuckets consumeTokens context s = (s', inr result) ->
    RateLimit.allowed result = true -> RateLimit.retryAfterMs result = None.
Proof.
  intros context s s' result. unfold RateLimit.checkBuckets.
  set (serviceKey := ("svc:" ++ serviceName context ++ ":" ++ keyPrefix context)%string).
  set (perMinute := match rateLimitPerMinute context with Some n => n | None => 1000 end).
  set (perDay := match rateLimitPerDay context with Some n => n | None => 100000 end).
  unfold bind at 1.
  destruct (RateLimit.consume consumeTokens serviceKey perMinute RateLimit.MINUTE_MS s)
    as [s1 [e|r1]] eqn:H1; [discriminate|].
  destruct (RateLimit.allowed r1) eqn:Ha1; cbn [negb].
  2:{ intros H Hallowed. injection H as _ <-. congruence. }
  unfold bind at 1.
  destruct (RateLimit.consume consumeTokens (serviceKey ++ ":day")%string perDay
                              RateLimit.DAY_MS s1)
    as [s2 [e|r2]] eqn:H2; [discriminate|].
  destruct (RateLimit.allowed r2) eqn:Ha2; cbn [negb].
  2:{ intros H Hallowed. injection H as _ <-. congruence. }
  destruct (present (canvasUserId context));
    [|intros H _; injection H as _ <-; reflexivity].
  destruct (canvasUserId context) as [u|];
    [|intros H _; injection H as _ <-; reflexivity].
  set (userKey := (serviceKey ++ ":user:" ++ u)%string).
  unfold bind at 1.
  destruct (RateLimit.consume consumeTokens userKey perMinute RateLimit.MINUTE_MS s2)
    as [s3 [e|r3]] eqn:H3; [discriminate|].
  destruct (RateLimit.allowed r3) eqn:Ha3; cbn [negb].
  2:{ intros H Hallowed. injection H as _ <-. congruence. }
  unfold bind at 1.
  destruct (RateLimit.consume consumeTokens (userKey ++ ":day")%string perDay
                              RateLimit.DAY_MS s3)
    as [s4 [e|r4]] eqn:H4; [discriminate|].
  destruct (RateLimit.allowed r4) eqn:Ha4; cbn [negb].
  2:{ intros H Hallowed. injection H as _ <-. congruence. }
  intros H _. injection H as _ <-. reflexivity.
Qed.

(** X21.  [enforceCanvasRateLimit] never throws, whatever the storage
    adapter does, and its answer is well formed: an answer that allows
    the call carries no retry hint. *)
Theorem rate_limiter_always_answers :
  forall (context : CanvasRequestContext) (s : Storage),
  exists (s' : Storage) (result : RateLimit.RateLimitCheckResult),
    RateLimit.enforceCanvasRateLimit consumeTokens context s = (s', inr result)
    /\ (RateLimit.allowed result = true -> RateLimit.retryAfterMs result = None).
Proof.
  intros context s. unfold RateLimit.enforceCanvasRateLimit, tryCatch.
  destruct (RateLimit.checkBuckets consumeTokens context s) as [s1 [e|result]] eqn:Hcheck.
  - eexists. eexists. split; [reflexivity|]. cbn. discriminate.
  - exists s1, result. split; [reflexivity|].
    exact (checkBuckets_shape context s s1 result Hcheck).
Qed.

(** X22.  A limit that is zero or negative switches its bucket off
    instead of blocking: with both limits of the key at most zero every
    call is allowed and the storage adapter is not consulted at all. *)
Theorem non_positive_limits_switch_the_limiter_off :
  forall (context : CanvasRequestContext) (s : Storage) (perMinute perDay : Z),
    rateLimitPerMinute context = Some perMinute -> perMinute <= 0 ->
    rateLimitPerDay context = Some perDay -> perDay <= 0 ->
    RateLimit.enforceCanvasRateLimit consumeTokens context s
    = (s, inr {| RateLimit.allowed := true; RateLimit.retryAfterMs := None |}).
Proof.
  intros context s perMinute perDay Hminute Hm Hday Hd.
  unfold RateLimit.enforceCanvasRateLimit, tryCatch, RateLimit.checkBuckets.
  rewrite Hminute, Hday. unfold RateLimit.consume.
  destruct (Z.leb_spec perMinute 0) as [_|?]; [|lia].
  destruct (Z.leb_spec perDay 0) as [_|?]; [|lia].
  unfold bind, ret. cbn [negb RateLimit.allowed].
  destruct (present (canvasUserId context)); [|reflexivity].
  destruct (canvasUserId context); reflexivity.
Qed.

End RateLimitMoreFacts.

(** A key with both limits at zero, in front of the broken storage. *)
Lemma non_positive_limits_switch_the_limiter_off_witness :
  RateLimit.enforceCanvasRateLimit Demo.brokenDayStorage Demo.unlimitedContext 0%nat
  = (0%nat, inr {| RateLimit.allowed := true; RateLimit.retryAfterMs := None |}).
Proof.
  apply (non_positive_limits_switch_the_limiter_off
           nat Demo.brokenDayStorage Demo.unlimitedContext 0%nat 0 0).
  - reflexivity.
  - lia.
  - reflexivity.
  - lia.
Defined.

(** ** The execute handler, further *)

Lemma normalizeProgress_range :
  forall value : Q,
    (0 <= Execute.normalizeProgress value)%Q /\ (Execute.normalizeProgress value <= 1)%Q.
Proof.
  intros value. unfold Execute.normalizeProgress.
  destruct (Qle_bool value 0) eqn:H0; [split; [apply Qle_refl | discriminate]|].
  assert (Hpos : (0 < value)%Q).
  { apply Qnot_le_lt. intros Hle. apply Qle_bool_iff in Hle. congruence. }
  destruct (Qle_bool value 1) eqn:H1.
  - apply Qle_bool_iff in H1. split; [apply Qlt_le_weak; exact Hpos | exact H1].
  - destruct (Qle_bool value (inject_Z 100)) eqn:H100; [|split; [discriminate | apply Qle_refl]].
    apply Qle_bool_iff in H100. split.
    + apply Qle_shift_div_l; [reflexivity|].
      rewrite Qmult_0_l. apply Qlt_le_weak. exact Hpos.
    + apply Qle_shift_div_r; [reflexivity|]. rewrite Qmult_1_l. exact H100.
Qed.

(** X23.  The progress reported for a job that is still running is a
    fraction between 0 and 1, whatever number or numeric string the tool
    put in [progress], [percentage] or [percent]. *)
Theorem reported_progress_is_a_fraction :
  forall (parse : string -> option Q) (output : option json)
         (asyncExecution : Execute.AsyncExecution) (p : Q),
    Execute.detectAsyncExecution parse output = Some asyncExecution ->
    Execute.progress asyncExecution = Some p ->
    (0 <= p)%Q /\ (p <= 1)%Q.
Proof.
  intros parse output asyncExecution p Hdetect Hprogress.
  unfold Execute.detectAsyncExecution in Hdetect.
  destruct output as [out|]; [|discriminate Hdetect].
  assert (Hshape :
            forall value : option Q,
              Execute.progress asyncExecution = option_map Execute.normalizeProgress value ->
              (0 <= p)%Q /\ (p <= 1)%Q).
  { intros [q|] Hvalue; rewrite Hvalue in Hprogress; [|discriminate Hprogress].
    injection Hprogress as <-. apply normalizeProgress_range. }
  destruct out; try discriminate Hdetect; cbv zeta in Hdetect;
    repeat match type of Hdetect with
           | (if ?c then None else _) = Some _ => destruct c; [discriminate Hdetect|]
           end;
    injection Hdetect as Hrecord;
    first [ rewrite <- Hrecord in Hprogress; discriminate Hprogress
          | eapply Hshape; rewrite <- Hrecord; reflexivity ].
Qed.

(** A job that reports [progress: 40] is 0.4 done. *)
Lemma reported_progress_is_a_fraction_witness :
  (0 <= Demo.jobProgress)%Q /\ (Demo.jobProgress <= 1)%Q.
Proof.
  apply (reported_progress_is_a_fraction
           (fun _ => None) (Some Demo.jobOutput) Demo.detectedJob Demo.jobProgress).
  - reflexivity.
  - reflexivity.
Defined.

Section StatusFacts.

Context {W : Type} (env : Execute.Env W).


(** The execution stage answers 200 only for a completed execution; its
    payload carries the output of the tool result, its record the
    redacted output. *)
Lemma executeStage_completed :
  forall (serviceContext : CanvasRequestContext) (data : Execute.ExecuteRequest)
         (startTime : Z) (uid id rid : string) (bc : Execute.BlockConfig)
         (tool : string) (hp : json) (su ws : string)
         (s s2 : State W) (l : Execute.Locals) (result : Execute.ToolResult)
         (f' : Execute.Frame) (payload : json),
    Execute.findExistingExecution id (db s) = None ->
    Execute.toolRun env serviceContext data uid id rid bc tool hp su ws s = (s2, inr result) ->
    Execute.executeStage env serviceContext data startTime uid id rid bc tool hp su ws (s, l)
    = (f', inr (SuccessEnvelope 200 payload)) ->
    Execute.success result = true
    /\ prop payload "status" = Some (JStr "completed")
    /\ prop payload "output" = (Execute.output result ?? Some (JObj []))
    /\ exists payload' : json,
        Status.GET env id (db (fst f')) = SuccessEnvelope 200 payload'
        /\ prop payload' "status" = Some (JStr "completed")
        /\ prop payload' "output"
           = (Some (Execute.redactApiKeys env
                      (Execute.orNull (Execute.output result ?? Some (JObj []))))
              ?? Some (JObj [])).
Proof.
  intros serviceContext data startTime uid id rid bc tool hp su ws s s2 l result f' payload
         Hnone Htool Hrun.
  destruct (toolRun_started env serviceContext data uid id rid bc tool hp su ws s Hnone)
    as (s1 & row & Hstart & _ & _ & Hfind1 & Hrunning).
  rewrite Hrunning in Htool.
  pose proof (executeWithRetry_effect env tool
                (Execute.toolInputsOf serviceContext data id hp su ws)
                (Execute.buildCanvasExecutionContext id ws su
                   (Execute.workflowIdOf (Execute.context data)))
                (Execute.timeoutOf data) (Execute.retryOf data) s1) as Heffect.
  cbv zeta in Heffect. rewrite Htool in Heffect. cbn [fst] in Heffect.
  destruct Heffect as (n & _ & _ & Hdb2 & _).
  unfold Execute.executeStage in Hrun. cbv zeta in Hrun.
  rewrite bind_assign, bind_lift in Hrun.
  unfold Execute.requestPayloadOf in Hstart. rewrite Hstart in Hrun.
  rewrite bind_assign, bind_lift in Hrun.
  unfold Execute.toolInputsOf in Htool. rewrite Htool in Hrun.
  rewrite bind_lift in Hrun. unfold now, gets in Hrun.
  destruct (if Execute.success result
            then Execute.detectAsyncExecution (Execute.parseNumber env)
                                              (Execute.output result)
            else None) as [asyncExecution|].
  - rewrite bind_lift in Hrun.
    match type of Hrun with
    | context [Execute.logExecutionRunning env ?a ?b ?c ?d ?e ?f ?g s2] =>
        destruct (logExecutionRunning_effect env a b c d e f g s2)
          as (s3 & dat & c3 & cr3 & Hlog & _);
        rewrite Hlog in Hrun
    end.
    discriminate Hrun.
  - rewrite bind_lift in Hrun.
    unfold Execute.logExecutionCompletion, bind, now, gets, updateDb, modify, setDb
      in Hrun.
    cbn [db entropy clock world calls] in Hrun.
    destruct (Execute.success result); cbn [negb] in Hrun; [|discriminate Hrun].
    unfold ret in Hrun. injection Hrun as <- <-. cbn [fst db].
    split; [reflexivity|].
    split; [apply lookup_status_third|].
    split; [destruct (Execute.output result) as [[ | | | | | ]|]; reflexivity|].
    unfold Status.GET.
    match goal with
    | |- context [Execute.updateWhere id ?f (db s2)] =>
        rewrite (proj1 (find_updateWhere f id (db s2)
                          (fun r => completeLog_id _ _ _ _ _ _ r)))
    end.
    rewrite Hdb2, Hfind1. cbn [option_map Execute.completeLog endedAt level executionData
                                          startedAt totalDurationMs].
    eexists. split; [reflexivity|]. split; [apply lookup_status_third|].
    destruct (Execute.redactApiKeys env
                (Execute.orNull (Execute.output result ?? Some (JObj []))))
      as [ | | | | | ]; reflexivity.
Qed.

(** X25.  When an admitted execution is answered 200, its tool run has
    returned a successful result; the answer has status ["completed"]
    and carries the output of that result as it is (an empty object if
    there is none), while the record keeps the redacted output: asking
    the status endpoint afterwards gives status ["completed"] and the
    output after [redactApiKeys] (an empty object if that is null). *)
Theorem stored_output_is_the_redacted_output :
  forall (serviceContext : CanvasRequestContext) (data : Execute.ExecuteRequest)
         (s : State W) (f1 : Execute.Frame) (uid id rid : string)
         (bc : Execute.BlockConfig) (tool : string) (hp : json) (su ws : string)
         (s' : State W) (payload : json),
    Execute.admission env serviceContext data (s, Execute.initialLocals)
    = (f1, inr (Execute.Admit uid id rid bc tool hp su ws)) ->
    Execute.POST env serviceContext (Execute.Decoded data) s
    = (s', inr (SuccessEnvelope 200 payload)) ->
    exists (s2 : State W) (result : Execute.ToolResult),
      Execute.toolRun env serviceContext data uid id rid bc tool hp su ws (fst f1)
      = (s2, inr result)
      /\ Execute.success result = true
      /\ prop payload "status" = Some (JStr "completed")
      /\ prop payload "output" = (Execute.output result ?? Some (JObj []))
      /\ exists payload' : json,
          Status.GET env id (db s') = SuccessEnvelope 200 payload'
          /\ prop payload' "status" = Some (JStr "completed")
          /\ prop payload' "output"
             = (Some (Execute.redactApiKeys env
                        (Execute.orNull (Execute.output result ?? Some (JObj []))))
                ?? Some (JObj [])).
Proof.
  intros serviceContext data s [s1 l1] uid id rid bc tool hp su ws s' payload Hadm Hpost.
  destruct (admission_effect env _ _ _ _ _ _ Hadm)
    as (_ & Hdb1 & _ & _ & _ & _ & _ & Hnone & _).
  cbn [fst snd] in *.
  assert (Hnone1 : Execute.findExistingExecution id (db s1) = None)
    by (rewrite Hdb1; exact Hnone).
  unfold Execute.POST, tryCatch in Hpost. cbn [Execute.tryBlock] in Hpost.
  unfold bind at 1 in Hpost. rewrite Hadm in Hpost.
  destruct (Execute.toolRun env serviceContext data uid id rid bc tool hp su ws s1)
    as [s2 [e|result]] eqn:Htool.
  - destruct (executeStage_thrown env serviceContext data (clock s) uid id rid bc tool hp
                su ws s1 s2 l1 e Hnone1 Htool) as [Hstage _].
    rewrite Hstage in Hpost.
    match type of Hpost with
    | context [Execute.catchBlock env ?t e (s2, ?l)] =>
        destruct (catchBlock_effect env t e s2 l) as (s3 & Hcatch & _)
    end.
    rewrite Hcatch in Hpost. injection Hpost as _ Hresponse.
    match type of Hresponse with
    | Execute.failureResponse ?e ?i ?d = _ =>
        pose proof (failureResponse_shape e i d) as [Hfailure _]
    end.
    rewrite Hresponse in Hfailure. discriminate Hfailure.
  - destruct (Execute.executeStage env serviceContext data (clock s) uid id rid bc
                                   tool hp su ws (s1, l1))
      as [f2 [e|response]] eqn:Hstage.
    + destruct (executeStage_answer env serviceContext data (clock s) uid id rid bc tool
                  hp su ws s1 s2 l1 result Hnone1 Htool)
        as (f' & response & row & Hanswer & _).
      rewrite Hstage in Hanswer. discriminate Hanswer.
    + injection Hpost as <- ->.
      exists s2, result. split; [reflexivity|].
      exact (executeStage_completed _ _ _ _ _ _ _ _ _ _ _ _ _ _ _ _ _ Hnone1 Htool Hstage).
Qed.

End StatusFacts.


(** The keyed request answered by a tool that succeeds. *)
Lemma stored_output_is_the_redacted_output_witness :
  exists (s2 : State (list Execute.Settlement)) (result : Execute.ToolResult),
    Execute.toolRun Demo.env Demo.serviceContext Demo.keyedRequest
      "11111111-1111-1111-1111-111111111111" "idem-key" "req-id" Demo.gmail "gmail_send"
      (JObj [("to", JStr "test@example.com")]) "sim-user-id" "workspace-id"
      (fst (Demo.startingWith [Execute.Resolves 10 Demo.sent],
            Execute.setExecutionId "idem-key" Execute.initialLocals))
    = (s2, inr result)
    /\ Execute.success result = true
    /\ prop Demo.keyedPayload "status" = Some (JStr "completed")
    /\ prop Demo.keyedPayload "output" = (Execute.output result ?? Some (JObj []))
    /\ exists payload' : json,
        Status.GET Demo.env "idem-key" (db (fst Demo.keyedRun)) = SuccessEnvelope 200 payload'
        /\ prop payload' "status" = Some (JStr "completed")
        /\ prop payload' "output"
           = (Some (Execute.redactApiKeys Demo.env
                      (Execute.orNull (Execute.output result ?? Some (JObj []))))
              ?? Some (JObj [])).
Proof.
  apply (stored_output_is_the_redacted_output
           Demo.env Demo.serviceContext Demo.keyedRequest
           (Demo.startingWith [Execute.Resolves 10 Demo.sent])
           (Demo.startingWith [Execute.Resolves 10 Demo.sent],
            Execute.setExecutionId "idem-key" Execute.initialLocals)
           "11111111-1111-1111-1111-111111111111" "idem-key" "req-id" Demo.gmail
           "gmail_send" (JObj [("to", JStr "test@example.com")])
           "sim-user-id" "workspace-id" (fst Demo.keyedRun) Demo.keyedPayload).
  - reflexivity.
  - reflexivity.
Defined.

(** ** Provisioning, the user lookup and the execute handler *)

(** The two handlers select the link in the same way. *)
Lemma findAccountLink_firstLink :
  forall (cid : string) (us : list User) (accts : list Account),
    Provision.firstLink cid us accts
    = option_map
        (fun found : Account * User =>
           {| Provision.foundLinkId := linkId (fst found);
              Provision.foundUserId := accountUserId (fst found);
              Provision.foundCreatedAt := accountCreatedAt (fst found);
              Provision.foundEmail := userEmail (snd found) |})
        (UserLookup.findAccountLink cid us accts).
Proof.
  intros cid us. induction accts as [|a accts IH]; [reflexivity|].
  cbn [Provision.firstLink UserLookup.findAccountLink].
  unfold Provision.linksTo, Provision.joinUser.
  change Provision.CANVAS_PROVIDER_ID with UserLookup.CANVAS_PROVIDER_ID.
  destruct (String.eqb (accountId a) cid && String.eqb (providerId a)
                                                      UserLookup.CANVAS_PROVIDER_ID)%bool;
    [|exact IH].
  destruct (find (fun u => String.eqb (accountUserId a) (userId u)) us);
    [reflexivity | exact IH].
Qed.

Lemma findAccountLink_joined :
  forall (cid : string) (us : list User) (accts : list Account) (a : Account) (u : User),
    UserLookup.findAccountLink cid us accts = Some (a, u) ->
    accountUserId a = userId u.
Proof.
  intros cid us. induction accts as [|b accts IH]; intros a u H; [discriminate H|].
  cbn [UserLookup.findAccountLink] in H.
  destruct (String.eqb (accountId b) cid && String.eqb (providerId b)
                                                      UserLookup.CANVAS_PROVIDER_ID)%bool;
    [|exact (IH a u H)].
  destruct (find (fun u0 => String.eqb (accountUserId b) (userId u0)) us) as [u'|] eqn:Hfind;
    [|exact (IH a u H)].
  injection H as <- <-. apply find_some in Hfind. destruct Hfind as [_ Heq].
  apply String.eqb_eq. exact Heq.
Qed.

Section ProvisionMoreFacts.

Context {W : Type} (env : Provision.Env).

(** X26.  Provisioning and the user lookup agree: after a provisioning
    call that succeeded (201 or 409), looking the Canvas user up answers
    200 with the Sim user id the provisioning call returned. *)
Theorem provisioned_user_is_found_by_lookup :
  forall (lookup : UserLookup.Env) (context : CanvasRequestContext)
         (data : Provision.UserProvisioningRequest)
         (s s1 : State W) (status : Z) (payload : json),
    Provision.POST env context (Provision.Decoded data) s
    = (s1, inr (SuccessEnvelope status payload)) ->
    UserLookup.isUuid lookup (Provision.reqCanvasUserId data) = true ->
    exists found : json,
      UserLookup.GET lookup (Provision.reqCanvasUserId data) (db s1)
      = SuccessEnvelope 200 found
      /\ prop found "canvasUserId" = Some (JStr (Provision.reqCanvasUserId data))
      /\ prop found "simUserId" = prop payload "simUserId".
Proof.
  intros lookup context data s s1 status payload Hpost Huuid.
  destruct (POST_links env context data s s1 status payload Hpost) as (l & Hlink & Hid).
  unfold Provision.findExistingCanvasLink in Hlink.
  rewrite findAccountLink_firstLink in Hlink.
  unfold UserLookup.GET. rewrite Huuid. cbn [negb].
  destruct (UserLookup.findAccountLink (Provision.reqCanvasUserId data)
                                       (users (db s1)) (accounts (db s1)))
    as [[a u]|] eqn:Hfound; [|discriminate Hlink].
  cbn [option_map fst snd] in Hlink. injection Hlink as <-.
  cbn [Provision.foundUserId] in Hid.
  rewrite (findAccountLink_joined _ _ _ _ _ Hfound) in Hid.
  eexists. split; [reflexivity|]. split; [reflexivity|].
  rewrite Hid. reflexivity.
Qed.

Lemma link_is_first_account :
  forall (cid : string) (us : list User) (accts : list Account) (l : Provision.CanvasLink),
    (forall a, In a accts -> exists u, In u us /\ userId u = accountUserId a) ->
    Provision.firstLink cid us accts = Some l ->
    exists a, find (Provision.linksTo cid) accts = Some a
              /\ accountUserId a = Provision.foundUserId l.
Proof.
  intros cid us. induction accts as [|b accts IH]; intros l Hresolve Hlink;
    [discriminate Hlink|].
  cbn [Provision.firstLink find] in *.
  destruct (Provision.linksTo cid b) eqn:Hlinks.
  - unfold Provision.joinUser in Hlink.
    destruct (find (fun u => String.eqb (accountUserId b) (userId u)) us) as [u|] eqn:Hjoin.
    + injection Hlink as <-. exists b. split; reflexivity.
    + destruct (Hresolve b (or_introl eq_refl)) as (u & Hin & Hid).
      apply (find_none _ _ Hjoin) in Hin. rewrite Hid, String.eqb_refl in Hin.
      discriminate Hin.
  - apply IH; [|exact Hlink]. intros a Ha. apply Hresolve. right. exact Ha.
Qed.

Lemma no_link_no_account :
  forall (cid : string) (us : list User) (accts : list Account),
    (forall a, In a accts -> exists u, In u us /\ userId u = accountUserId a) ->
    Provision.firstLink cid us accts = None ->
    find (Provision.linksTo cid) accts = None.
Proof.
  intros cid us. induction accts as [|b accts IH]; intros Hresolve Hlink; [reflexivity|].
  cbn [Provision.firstLink find] in *.
  destruct (Provision.linksTo cid b) eqn:Hlinks.
  - unfold Provision.joinUser in Hlink.
    destruct (find (fun u => String.eqb (accountUserId b) (userId u)) us) as [u|] eqn:Hjoin;
      [discriminate Hlink|].
    destruct (Hresolve b (or_introl eq_refl)) as (u & Hin & Hid).
    apply (find_none _ _ Hjoin) in Hin. rewrite Hid, String.eqb_refl in Hin.
    discriminate Hin.
  - apply IH; [|exact Hlink]. intros a Ha. apply Hresolve. right. exact Ha.
Qed.

(** X27.  Provisioning prepares the ground for the execute handler.  In
    a database whose links all point at existing users, after a
    provisioning call that succeeded the execute handler resolves the
    Canvas user to the Sim user id that call returned; and when the call
    created a new user (201, e-mail address unknown before), that user
    owns a workspace, so the execution is not turned away for a missing
    link or workspace. *)
Theorem provisioned_user_is_resolved_by_execute :
  forall (context : CanvasRequestContext) (data : Provision.UserProvisioningRequest)
         (s s1 : State W) (status : Z) (payload : json),
    Provision.POST env context (Provision.Decoded data) s
    = (s1, inr (SuccessEnvelope status payload)) ->
    (forall a, In a (accounts (db s)) ->
               exists u, In u (users (db s)) /\ userId u = accountUserId a) ->
    exists simUserId : string,
      prop payload "simUserId" = Some (JStr simUserId)
      /\ Execute.findLinkedSimUser (Provision.reqCanvasUserId data) (db s1) = Some simUserId
      /\ (status = 201 ->
          Provision.findUserByEmail (Provision.reqEmail data) (db s) = None ->
          exists workspace,
            Execute.findUserWorkspace simUserId (db s1) = Some workspace).
Proof.
  intros context data s s1 status payload Hpost Hresolve.
  unfold Provision.POST, tryCatch in Hpost.
  destruct (Provision.validRequest env data); cbn [negb] in Hpost; [|discriminate Hpost].
  unfold bind at 1 in Hpost. unfold gets at 1 in Hpost.
  unfold Execute.findLinkedSimUser.
  change (fun a : Account =>
            (String.eqb (accountId a) (Provision.reqCanvasUserId data)
             && String.eqb (providerId a) Execute.CANVAS_PROVIDER_ID)%bool)
    with (Provision.linksTo (Provision.reqCanvasUserId data)).
  destruct (Provision.findExistingCanvasLink (Provision.reqCanvasUserId data) (db s))
    as [l|] eqn:Hlink.
  - injection Hpost as <- <- <-.
    destruct (link_is_first_account _ _ _ l Hresolve Hlink) as (a & Hfind & Hid).
    exists (Provision.foundUserId l). split; [reflexivity|].
    split; [rewrite Hfind, <- Hid; reflexivity | discriminate].
  - pose proof (no_link_no_account _ _ _ Hresolve Hlink) as Hnone.
    unfold bind at 1 in Hpost. unfold gets at 1 in Hpost.
    destruct (Provision.findUserByEmail (Provision.reqEmail data) (db s)) as [u|] eqn:Huser.
    + unfold Provision.createCanvasAccountLink, bind, randomUUID, now, gets, updateDb,
        modify, setDb, ret in Hpost.
      cbn [db entropy clock world calls fst snd] in Hpost.
      injection Hpost as <- <- <-. cbn [db accounts insertAccount].
      exists (userId u). split; [reflexivity|]. split; [|congruence].
      rewrite (find_app_none _ _ _ _ Hnone).
      unfold Provision.linksTo at 1. cbn [accountId providerId].
      rewrite !String.eqb_refl. reflexivity.
    + unfold Provision.createNewSimUser, bind, randomUUID, now, gets, updateDb,
        modify, setDb, ret in Hpost.
      cbn [db entropy clock world calls] in Hpost.
      destruct (Provision.saveWorkflowFails env (Provision.uuids env (S (S (entropy s)))));
        injection Hpost as <- <- <-;
        cbn [db accounts workspaces insertAccount insertUser insertUserStats
                insertWorkspace insertPermission insertWorkflow insertWorkflowState];
        (exists (Provision.uuids env (entropy s)); split; [reflexivity|]; split;
         [rewrite (find_app_none _ _ _ _ Hnone);
          unfold Provision.linksTo at 1; cbn [accountId providerId];
          rewrite !String.eqb_refl; reflexivity
         |intros _ _; unfold Execute.findUserWorkspace;
          cbn [db workspaces insertAccount insertUser insertUserStats
                  insertWorkspace insertPermission insertWorkflow insertWorkflowState];
          match goal with
          | |- context [find ?p (workspaces (db s) ++ [?w])] =>
              destruct (find_app_last _ p (workspaces (db s)) w) as [w' Hw];
                [cbn [ownerId]; apply String.eqb_refl|];
                rewrite Hw; eexists; reflexivity
          end]).
Qed.

End ProvisionMoreFacts.

(** Scenario A, followed by the lookup of the new user. *)
Lemma provisioned_user_is_found_by_lookup_witness :
  exists found : json,
    UserLookup.GET Demo.lookupEnv (Provision.reqCanvasUserId Demo.newUser)
                   (db (fst Demo.firstProvisioning))
    = SuccessEnvelope 200 found
    /\ prop found "canvasUserId" = Some (JStr (Provision.reqCanvasUserId Demo.newUser))
    /\ prop found "simUserId" = prop Demo.firstPayload "simUserId".
Proof.
  apply (provisioned_user_is_found_by_lookup
           Demo.provisionEnv Demo.lookupEnv Demo.serviceContext Demo.newUser
           Demo.freshStore (fst Demo.firstProvisioning) 201 Demo.firstPayload).
  - reflexivity.
  - reflexivity.
Defined.

(** Scenario A on the empty database. *)
Lemma provisioned_user_is_resolved_by_execute_witness :
  exists simUserId : string,
    prop Demo.firstPayload "simUserId" = Some (JStr simUserId)
    /\ Execute.findLinkedSimUser (Provision.reqCanvasUserId Demo.newUser)
                                 (db (fst Demo.firstProvisioning))
       = Some simUserId
    /\ (201 = 201 ->
        Provision.findUserByEmail (Provision.reqEmail Demo.newUser) (db Demo.freshStore)
        = None ->
        exists workspace,
          Execute.findUserWorkspace simUserId (db (fst Demo.firstProvisioning))
          = Some workspace).
Proof.
  apply (provisioned_user_is_resolved_by_execute
           Demo.provisionEnv Demo.serviceContext Demo.newUser
           Demo.freshStore (fst Demo.firstProvisioning) 201 Demo.firstPayload).
  - reflexivity.
  - intros a [].
Defined.

(** ** The execute handler: refusals and failures *)

Section ExecuteMoreFacts.

Context {W : Type} (env : Execute.Env W).

(** X28.  A timeout below 1000 ms or above the maximum of 300000 ms is
    refused with 400 "Validation failed" before anything happens: no
    execution id is drawn, no record is written and no tool is called. *)
Theorem out_of_range_timeout_is_refused_without_effect :
  forall (serviceContext : CanvasRequestContext) (data : Execute.ExecuteRequest)
         (s : State W) (o : Execute.RequestOptions) (t : Z),
    Execute.options data = Some o ->
    Execute.timeout o = Some t ->
    t < 1000 \/ Execute.MAX_EXECUTION_TIMEOUT_MS < t ->
    Execute.POST env serviceContext (Execute.Decoded data) s
    = (s, inr (ErrorEnvelope 400 "Validation failed" (Some "INVALID_PARAMS")
                             (Some (Execute.fieldErrors env data)) None)).
Proof.
  intros serviceContext data s o t Hoptions Htimeout Hrange.
  assert (Hinvalid : Execute.validRequest data = false).
  { unfold Execute.validRequest. rewrite Hoptions, Htimeout.
    assert (Hout : ((t <? 1000) || (Execute.MAX_EXECUTION_TIMEOUT_MS <? t))%bool = true).
    { apply orb_true_iff. destruct Hrange as [Hlow|Hhigh].
      - left. apply Z.ltb_lt. exact Hlow.
      - right. apply Z.ltb_lt. exact Hhigh. }
    rewrite Hout. cbn [negb]. rewrite !andb_false_r. reflexivity. }
  unfold Execute.POST, tryCatch. cbn [Execute.tryBlock].
  unfold bind at 1. unfold Execute.admission. rewrite Hinvalid. reflexivity.
Qed.



End ExecuteMoreFacts.

(** A timeout of 300001 ms is one too many. *)
Lemma out_of_range_timeout_is_refused_without_effect_witness :
  Execute.POST Demo.env Demo.serviceContext
               (Execute.Decoded (Demo.gmailRequest None 300001 false))
               (Demo.startingWith [Execute.Resolves 10 Demo.sent])
  = (Demo.startingWith [Execute.Resolves 10 Demo.sent],
     inr (ErrorEnvelope 400 "Validation failed" (Some "INVALID_PARAMS")
                        (Some (Execute.fieldErrors
                                 Demo.env (Demo.gmailRequest None 300001 false)))
                        None)).
Proof.
  apply (out_of_range_timeout_is_refused_without_effect
           Demo.env Demo.serviceContext (Demo.gmailRequest None 300001 false)
           (Demo.startingWith [Execute.Resolves 10 Demo.sent])
           {| Execute.timeout := Some 300001; Execute.retryOnFailure := Some false |}
           300001).
  - reflexivity.
  - reflexivity.
  - right. reflexivity.
Defined.

